(** * ebook-pdf: the capture / fingerprint / compare / advance loop of [main.py]

    A shallow embedding of [AppManager] and of the capture loop of [main]
    (src/main.py), with the properties of the design document stated over it.

    Conventions.
    - Python [str] values are [string]s; [Optional[str]] is [option string];
      Python truthiness of an optional string is [truthy].
    - The directory [screenshots_dir] is a finite map from file names to the
      image stored under that name.
    - Everything the operating system answers (window lookup, image grab, key
      delivery, the clock, the frontmost application) is an input of the
      model: one [Iteration] record per turn of the capture loop. *)

From Stdlib Require Import ZArith Ascii String List Bool Lia SpecFloat.
From stdpp Require Import gmap strings list fin_maps sorting.

Local Open Scope string_scope.

(** ** Fingerprint computation *)

Module PHash.

(** Python's [float] with the operations [_calculate_phash] applies to it;
    the interface leaves their rounding open. *)
Class PyFloat := {
  F : Type;
  of_int : Z -> F;              (* [float(n)], implicit in mixed arithmetic *)
  half : F;                     (* the literal [0.5] *)
  math_pi : F;                  (* [math.pi] *)
  fadd : F -> F -> F;           (* [+] *)
  fmul : F -> F -> F;           (* [*] *)
  fdiv : F -> F -> F;           (* [/] *)
  math_cos : F -> F;            (* [math.cos] *)
  fgt : F -> F -> bool;         (* [>] *)
  fsum : list F -> F            (* the built-in [sum] *)
}.

(** Pillow: images, [convert('L')], [resize(size, Image.BICUBIC)] and
    [getdata()], which yields [width * height] samples row by row. *)
Class Pillow := {
  Image : Type;
  convert_L : Image -> Image;
  resize_bicubic : nat * nat -> Image -> Image;
  getdata : Image -> list Z;
  getdata_resize :
    forall size img,
      length (getdata (resize_bicubic size img)) = fst size * snd size
}.

Section Transform.
Context {float : PyFloat} {pillow : Pillow}.

(** [(math.pi / N) * (n + 0.5) * k] *)
Definition angle (N n k : nat) : F :=
  fmul (fmul (fdiv math_pi (of_int (Z.of_nat N)))
             (fadd (of_int (Z.of_nat n)) half))
       (of_int (Z.of_nat k)).

(** The inner function [dct_1d] (main.py 400-408). *)
Definition dct_1d (vector : list F) : list F :=
  let N := length vector in
  map (fun k =>
         fold_left
           (fun s n =>
              fadd s (fmul (nth n vector (of_int 0))
                           (math_cos (angle N n k))))
           (seq 0 N) (of_int 0))
      (seq 0 N).

(** [zip] over the unpacked rows (main.py 412): one tuple per position,
    until a row is exhausted; the fuel is the length of the first row. *)
Fixpoint zip_star_aux {A} (fuel : nat) (rows : list (list A))
  : list (list A) :=
  match fuel with
  | O => []
  | S fuel' =>
      match mapM head rows with
      | Some heads => heads :: zip_star_aux fuel' (map (@tail A) rows)
      | None => []
      end
  end.

Definition zip_star {A} (rows : list (list A)) : list (list A) :=
  match rows with
  | [] => []
  | first :: _ => zip_star_aux (length first) rows
  end.

(** [m[y][x]], [None] for an [IndexError]. *)
Definition entry {A} (m : list (list A)) (y x : nat) : option A :=
  m !! y ≫= fun row => row !! x.

(** The pairs [(y, x)] in the order of the two nested [range(8)] loops. *)
Definition block : list (nat * nat) :=
  flat_map (fun y => map (fun x => (y, x)) (seq 0 8)) (seq 0 8).

(** [x == 0 and y == 0] *)
Definition is_dc (p : nat * nat) : bool :=
  Nat.eqb (snd p) 0 && Nat.eqb (fst p) 0.

(** [sum(vals) / len(vals) if vals else 0] (main.py 420). *)
Definition average (vals : list F) : F :=
  match vals with
  | [] => of_int 0
  | _ :: _ => fdiv (fsum vals) (of_int (Z.of_nat (length vals)))
  end.

(** [_calculate_phash] (main.py 390-429); [None] when an index is out of
    range.  [pixels[i * 32:(i + 1) * 32]] is a slice, so it never raises. *)
Definition _calculate_phash (image : Image) : option string :=
  let small := resize_bicubic (32, 32) (convert_L image) in
  let pixels := getdata small in
  let matrix :=
    map (fun i => firstn 32 (skipn (i * 32) pixels)) (seq 0 32) in
  let dct_rows := map (fun row => dct_1d (map of_int row)) matrix in
  let dct := zip_star (map dct_1d (zip_star dct_rows)) in
  vals ← mapM (fun p => entry dct (fst p) (snd p))
              (List.filter (fun p => negb (is_dc p)) block);
  let avg := average vals in
  bits ← mapM (fun p =>
                 if is_dc p then Some "0"%char
                 else c ← entry dct (fst p) (snd p);
                      Some (if fgt c avg then "1"%char else "0"%char))
              block;
  Some (string_of_list_ascii bits).

(** *** The transform as the design document words it *)

(** The 32x32 luminance grid: sample [x] of row [y]. *)
Definition grid (pixels : list Z) (y x : nat) : F :=
  of_int (nth (32 * y + x) pixels 0%Z).

(** The 1D cosine transform of [N] samples at frequency [k]. *)
Definition dct_sum (sample : nat -> F) (N k : nat) : F :=
  fold_left
    (fun s n => fadd s (fmul (sample n) (math_cos (angle N n k))))
    (seq 0 N) (of_int 0).

(** First the rows ... *)
Definition row_transform (pixels : list Z) (y k : nat) : F :=
  dct_sum (grid pixels y) 32 k.

(** ... then the columns of the result: the coefficient at [(y, x)]. *)
Definition coefficient (pixels : list Z) (y x : nat) : F :=
  dct_sum (fun n => row_transform pixels n x) 32 y.

(** The positions of the top-left 8x8 block other than [(0, 0)]. *)
Definition non_dc : list (nat * nat) :=
  List.filter (fun p => negb (Nat.eqb (fst p) 0 && Nat.eqb (snd p) 0)) block.

(** The mean of the 63 coefficients at those positions. *)
Definition mean63 (pixels : list Z) : F :=
  fdiv (fsum (map (fun p => coefficient pixels (fst p) (snd p)) non_dc))
       (of_int 63).

(** The symbol at position [(y, x)] of the fingerprint. *)
Definition bit (pixels : list Z) (y x : nat) : ascii :=
  if Nat.eqb y 0 && Nat.eqb x 0 then "0"%char
  else if fgt (coefficient pixels y x) (mean63 pixels) then "1"%char
       else "0"%char.

(** *** Names for the tables of [_calculate_phash] *)

(** [n] rows of [m] entries each. *)
Definition rect {A} (n m : nat) (rows : list (list A)) : Prop :=
  length rows = n /\ Forall (fun row => length row = m) rows.

(** [matrix], [dct_rows] and [dct] (main.py 396, 410, 412) as functions of
    [pixels]. *)
Definition matrix_of (pixels : list Z) : list (list Z) :=
  map (fun i => firstn 32 (skipn (i * 32) pixels)) (seq 0 32).

Definition dct_rows_of (pixels : list Z) : list (list F) :=
  map (fun row => dct_1d (map of_int row)) (matrix_of pixels).

Definition dct_of (pixels : list Z) : list (list F) :=
  zip_star (map dct_1d (zip_star (dct_rows_of pixels))).

End Transform.

(** A toy instance, to run the definitions: integers for floats and a list
    of samples for an image. *)
Definition toy_float : PyFloat :=
  {| F := Z; of_int := fun z => z; half := 1%Z; math_pi := 355%Z;
     fadd := Z.add; fmul := Z.mul; fdiv := Z.div;
     math_cos := fun z => ((z / 11) mod 21 - 10)%Z;
     fgt := Z.gtb; fsum := fun l => fold_left Z.add l 0%Z |}.

Definition toy_resize (size : nat * nat) (img : list Z) : list Z :=
  map (fun i => nth (i mod length img) img 0%Z) (seq 0 (fst size * snd size)).

Definition toy_pillow : Pillow :=
  {| Image := list Z; convert_L := fun img => img;
     resize_bicubic := toy_resize; getdata := fun img => img;
     getdata_resize :=
       fun size img => eq_trans (length_map _ _) (length_seq _ _) |}.

Definition toy_phash (img : list Z) : option string :=
  @_calculate_phash toy_float toy_pillow img.

End PHash.

(** ** Fingerprint comparison *)

Module Hamming.

(** Python truthiness of an [Optional[str]]: [None] and [""] are falsy. *)
Definition truthy (o : option string) : bool :=
  match o with
  | Some s => negb (String.eqb s "")
  | None => false
  end.

(** [sum(ch1 != ch2 for ch1, ch2 in zip(a, b))]: [zip] stops at the shorter
    operand. *)
Fixpoint zip_count_neq (a b : string) : nat :=
  match a, b with
  | String c1 a', String c2 b' =>
      (if Ascii.eqb c1 c2 then 0 else 1) + zip_count_neq a' b'
  | _, _ => 0
  end.

(** [AppManager._phash_distance] (main.py 431-434). *)
Definition _phash_distance (a b : option string) : nat :=
  if negb (truthy a) || negb (truthy b) then 0
  else
    match a, b with
    | Some sa, Some sb =>
        if negb (Nat.eqb (String.length sa) (String.length sb)) then 0
        else zip_count_neq sa sb
    | _, _ => 0
    end.

(** The design document's Hamming distance: the number of positions [i] at
    which the two sequences carry different symbols. *)
Definition differs_at (a b : string) (i : nat) : bool :=
  match String.get i a, String.get i b with
  | Some x, Some y => negb (Ascii.eqb x y)
  | None, None => false
  | _, _ => true
  end.

Definition hamming (a b : string) : nat :=
  length (List.filter (differs_at a b) (seq 0 (String.length a))).

End Hamming.

(** ** File names and the screenshot directory *)

Module Files.

(** [str(n)] for a Python [int]: decimal, no leading zeros, [-] for
    negatives.  [str_digits] peels the digits off from the least significant
    one; the fuel [log2 n] covers every decimal digit of [n]. *)
Definition digit_char (d : Z) : ascii := ascii_of_nat (48 + Z.to_nat d).

Fixpoint str_digits (fuel : nat) (n : Z) (acc : string) : string :=
  let acc' := String (digit_char (n mod 10)) acc in
  match fuel with
  | O => acc'
  | S f => if (n / 10 =? 0)%Z then acc' else str_digits f (n / 10) acc'
  end.

Definition str_int (n : Z) : string :=
  if (n <? 0)%Z
  then String "-" (str_digits (Z.to_nat (Z.log2 (- n))) (- n) "")
  else str_digits (Z.to_nat (Z.log2 n)) n "".

(** [f"screenshot_{timestamp}_tmp.png"] and [f"screenshot_{timestamp}.png"]
    (main.py 233-234); [f"temp_{i}.png"] (main.py 524). *)
Definition tmp_name (timestamp : Z) : string :=
  "screenshot_" ++ str_int timestamp ++ "_tmp.png".

Definition final_name (timestamp : Z) : string :=
  "screenshot_" ++ str_int timestamp ++ ".png".

Definition temp_name (i : nat) : string :=
  "temp_" ++ str_int (Z.of_nat i) ++ ".png".

(** What the program observes of a captured window image once it is written
    as a PNG file: the result of [_calculate_phash] on it ([None] when
    opening or hashing the image raises, main.py 261-265), the MD5 hex
    digest of the file ([_calculate_image_hash], main.py 385-388), the
    [size] of [Image.open(file)] ([None] when [Image.open] raises,
    main.py 469-470 and 514), and whether its pixel data can be decoded, so
    that [convert] and [resize] do not raise on it (main.py 516-521). *)
Record Frame := {
  frame_phash : option string;
  frame_md5 : string;
  frame_size : option (Z * Z);
  frame_loads : bool
}.

(** [Path.glob("*.png")]: the file name ends in [.png]. *)
Fixpoint ends_with (suffix s : string) : bool :=
  if String.eqb s suffix then true
  else match s with
       | EmptyString => false
       | String _ s' => ends_with suffix s'
       end.

Definition glob_png (d : gmap string Frame) : list string :=
  filter (fun name => ends_with ".png" name = true) (map_to_list d).*1.

(** [sorted(self.screenshots_dir.glob("*.png"))] (main.py 452): paths of one
    directory compare as their names do, character by character. *)
Definition sorted_pngs (d : gmap string Frame) : list string :=
  merge_sort String.le (glob_png d).

End Files.

(** ** [AppManager] and [capture_screenshot] *)

Module App.
Import Hamming Files.

(** The fields of [AppManager] the capture loop reads and writes, with the
    two places on disk it owns: the contents of [screenshots_dir] and the
    file [base_dir / "ebook.pdf"] (a list of pages, each the list of images
    drawn on it). *)
Record AppManager := {
  screenshots : gmap string Frame;
  ebook_pdf : option (list (list Frame));
  last_image_hash : option string;
  reached_duplicate : bool
}.

Definition set_screenshots (d : gmap string Frame) (am : AppManager) :=
  {| screenshots := d; ebook_pdf := ebook_pdf am;
     last_image_hash := last_image_hash am;
     reached_duplicate := reached_duplicate am |}.

Definition set_reached_duplicate (b : bool) (am : AppManager) :=
  {| screenshots := screenshots am; ebook_pdf := ebook_pdf am;
     last_image_hash := last_image_hash am;
     reached_duplicate := b |}.

Definition set_last_image_hash (h : option string) (am : AppManager) :=
  {| screenshots := screenshots am; ebook_pdf := ebook_pdf am;
     last_image_hash := h;
     reached_duplicate := reached_duplicate am |}.

Definition set_ebook_pdf (p : option (list (list Frame))) (am : AppManager) :=
  {| screenshots := screenshots am; ebook_pdf := p;
     last_image_hash := last_image_hash am;
     reached_duplicate := reached_duplicate am |}.

(** What [screenshots_dir] holds when the program starts: its entries in
    the order in which [glob("*")] yields them, and for each name whether
    the operating system makes [unlink] raise.  An entry that is a file
    ([is_file()]) comes with the image stored in it, any other entry (a
    subdirectory) with [None]. *)
Record Startup := {
  found : list (string * option Frame);
  unlink_raises : string -> bool
}.

(** A directory without entries. *)
#[global] Instance startup_empty : Empty Startup :=
  {| found := []; unlink_raises := fun _ => false |}.

(** The files among the entries of a directory. *)
Fixpoint files_of (entries : list (string * option Frame))
  : gmap string Frame :=
  match entries with
  | [] => ∅
  | (file_path, Some f) :: rest => <[file_path := f]> (files_of rest)
  | (_, None) :: rest => files_of rest
  end.

(** [_clear_screenshots_folder] (main.py 436-447): the entries are visited
    one after the other; one that is not a file is passed over, a file is
    unlinked.  The first [unlink] that raises ends the loop (the [except] of
    main.py 446), so that this file and the entries not yet visited stay.
    The result is the files the directory holds afterwards. *)
Fixpoint _clear_screenshots_folder (unlink_raises : string -> bool)
    (entries : list (string * option Frame)) : gmap string Frame :=
  match entries with
  | [] => ∅
  | (file_path, Some f) :: rest =>
      if unlink_raises file_path then files_of entries
      else _clear_screenshots_folder unlink_raises rest
  | (_, None) :: rest => _clear_screenshots_folder unlink_raises rest
  end.

(** [AppManager.__init__] (main.py 39-58), given what [screenshots_dir] and
    [ebook.pdf] held before the program started. *)
Definition init (start : Startup) (pdf : option (list (list Frame)))
  : AppManager :=
  {| screenshots :=
       _clear_screenshots_folder (unlink_raises start) (found start);
     ebook_pdf := pdf;
     last_image_hash := None;
     reached_duplicate := false |}.

(** The two verdicts of the design document. *)
Inductive Verdict := New | Duplicate.

(** What the window server answers to one call of [capture_screenshot], in
    the order the function tests it. *)
Inductive CaptureOutcome :=
| NoTargetPid       (* main.py 174-190: [return None] *)
| NoWindowList      (* main.py 195-197: [return None] *)
| NoVisibleWindow   (* main.py 211-213: [return None] *)
| NoWindowId        (* main.py 216-217: [return None] *)
| ImageNone         (* main.py 226-229: flag cleared, [return None] *)
| Raised            (* an exception before the temporary file exists,
                       handled at main.py 290-293 *)
| Grabbed (timestamp : Z) (f : Frame).
                    (* the image was written to [tmp_path] at the clock
                       reading [int(time.time()) = timestamp] *)

(** The literal [3] of [if distance <= 3] (main.py 274). *)
Definition threshold : nat := 3.

(** [capture_screenshot] (main.py 164-293).  Returns the saved path, if any,
    and the updated manager.  Renaming and re-reading the file just written
    are taken to succeed. *)
Definition capture_screenshot (am : AppManager) (o : CaptureOutcome)
  : option string * AppManager :=
  match o with
  | NoTargetPid | NoWindowList | NoVisibleWindow | NoWindowId => (None, am)
  | ImageNone => (None, set_reached_duplicate false am)
  | Raised => (None, set_reached_duplicate false am)
  | Grabbed timestamp f =>
      let tmp_path := tmp_name timestamp in
      let final_path := final_name timestamp in
      (* CGImageDestinationFinalize wrote the image to tmp_path *)
      let written := <[tmp_path := f]> (screenshots am) in
      let current_phash := frame_phash f in
      let save (_ : unit) :=
        (* tmp_path.rename(final_path) *)
        let renamed := <[final_path := f]> (delete tmp_path written) in
        let h := if truthy current_phash then current_phash
                 else Some (frame_md5 f) in
        (Some final_path,
         set_reached_duplicate false
           (set_last_image_hash h (set_screenshots renamed am))) in
      if truthy (last_image_hash am) && truthy current_phash then
        let distance := _phash_distance current_phash (last_image_hash am) in
        if (distance <=? threshold)%nat then
          (* tmp_path.unlink(missing_ok=True) *)
          (None,
           set_reached_duplicate true
             (set_screenshots (delete tmp_path written) am))
        else save tt
      else save tt
  end.

(** The decision of main.py 271-274 on a grabbed frame. *)
Definition classify (am : AppManager) (f : Frame) : Verdict :=
  if truthy (last_image_hash am) && truthy (frame_phash f)
     && (_phash_distance (frame_phash f) (last_image_hash am)
         <=? threshold)%nat
  then Duplicate else New.

(** How [main] reads the result of a capture (main.py 693-710): the flag
    [reached_duplicate] means the frame repeated the previous page, a
    returned path means a new page was saved, anything else is a failed
    capture. *)
Definition verdict_of (res : option string * AppManager) : option Verdict :=
  if reached_duplicate (snd res) then Some Duplicate
  else match fst res with
       | Some _ => Some New
       | None => None
       end.

(** What [capture_screenshot] keeps as baseline of a saved frame
    (main.py 284-285). *)
Definition baseline_of (f : Frame) : option string :=
  if truthy (frame_phash f) then frame_phash f else Some (frame_md5 f).

(** The manager after a frame was saved under [final_name timestamp]. *)
Definition saved (timestamp : Z) (f : Frame) (am : AppManager) : AppManager :=
  {| screenshots :=
       <[final_name timestamp := f]>
         (delete (tmp_name timestamp)
            (<[tmp_name timestamp := f]> (screenshots am)));
     ebook_pdf := ebook_pdf am;
     last_image_hash :=
       if truthy (frame_phash f) then frame_phash f
       else Some (frame_md5 f);
     reached_duplicate := false |}.

(** The manager after a frame was found to repeat the previous page. *)
Definition skipped (timestamp : Z) (f : Frame) (am : AppManager)
  : AppManager :=
  {| screenshots :=
       delete (tmp_name timestamp)
         (<[tmp_name timestamp := f]> (screenshots am));
     ebook_pdf := ebook_pdf am;
     last_image_hash := last_image_hash am;
     reached_duplicate := true |}.

End App.

(** ** [_create_pdf] *)

Module Pdf.
Import Files App.

(** The part of reportlab's [canvas.Canvas] that [_create_pdf] uses:
    [drawImage] adds to the page being drawn, [showPage] closes it, and
    [save] closes the page being drawn when something was drawn on it. *)
Record Canvas := {
  pages : list (list Frame);
  code : list Frame
}.

Definition new_canvas : Canvas := {| pages := []; code := [] |}.

Definition drawImage (img : Frame) (c : Canvas) : Canvas :=
  {| pages := pages c; code := code c ++ [img] |}.

Definition showPage (c : Canvas) : Canvas :=
  {| pages := pages c ++ [code c]; code := [] |}.

Definition save (c : Canvas) : list (list Frame) :=
  match code c with
  | [] => pages c
  | _ :: _ => pages (showPage c)
  end.

(** Python's [float] is the IEEE 754 binary64 format: 53 bits of
    precision, results rounded to the nearest value, ties to even.  The
    arithmetic is that of [SpecFloat] at this precision. *)
Definition binary64_prec : Z := 53.
Definition binary64_emax : Z := 1024.

(** [float(n)], [x * y] and [x / y]. *)
Definition float_of_int (n : Z) : spec_float :=
  binary_normalize binary64_prec binary64_emax n 0 false.

Definition float_mul (x y : spec_float) : spec_float :=
  SFmul binary64_prec binary64_emax x y.

Definition float_div (x y : spec_float) : spec_float :=
  SFdiv binary64_prec binary64_emax x y.

(** The literal [1.5]: [6755399441055744 * 2^-52]. *)
Definition float_1_5 : spec_float := S754_finite false 6755399441055744 (-52).

(** [int(x)]: the integer part, with no result for an infinity or a NaN. *)
Definition int_of_float (x : spec_float) : option Z :=
  match x with
  | S754_zero _ => Some 0%Z
  | S754_finite negative m e =>
      let magnitude := if (0 <=? e)%Z then (Z.pos m * 2 ^ e)%Z
                       else (Z.pos m / 2 ^ (- e))%Z in
      Some (if negative then (- magnitude)%Z else magnitude)
  | S754_infinity _ | S754_nan => None
  end.

(** The page size of main.py 473-499, from the size of the first image:
    [(target_width, target_height)], or [None] when a division raises
    [ZeroDivisionError], the last being [ratio = target_width /
    target_height]. *)
Definition target_size (original_width original_height : Z)
  : option (Z * Z) :=
  let fhd_width := 1920%Z in
  let fhd_height := 1080%Z in
  let target :=
    if (fhd_width <? original_width)%Z || (fhd_height <? original_height)%Z
    then
      let max_dimension :=
        float_mul (float_of_int (Z.max fhd_width fhd_height)) float_1_5 in
      let longer := if (original_height <=? original_width)%Z
                    then original_width else original_height in
      if (longer =? 0)%Z then None
      else
        let scale_factor := float_div max_dimension (float_of_int longer) in
        match int_of_float
                (float_mul (float_of_int original_width) scale_factor),
              int_of_float
                (float_mul (float_of_int original_height) scale_factor)
        with
        | Some target_width, Some target_height =>
            Some (target_width, target_height)
        | _, _ => None
        end
    else Some (original_width, original_height) in
  match target with
  | Some (target_width, target_height) =>
      if (target_height =? 0)%Z then None
      else Some (target_width, target_height)
  | None => None
  end.

(** [Image.open(image_file)], [convert('RGB')] and
    [resize((target_width, target_height), LANCZOS)] go through
    (main.py 514-521): the file is an image Pillow can open and decode, and
    both target dimensions are positive, as [resize] demands. *)
Definition resizes (target : Z * Z) (img : Frame) : bool :=
  match frame_size img with
  | Some _ => frame_loads img && (0 <? fst target)%Z && (0 <? snd target)%Z
  | None => false
  end.

(** The loop of main.py 509-540 from index [i] on, over [n = len(image_files)]
    files.  Each image is opened, written (resized) to [temp_{i}.png], drawn
    from there and the temporary file unlinked; an image that cannot be
    opened or resized raises, which ends the loop without a canvas.  The
    resize keeps the picture, so the drawn image is recorded as the frame it
    came from.  Writing and drawing the temporary file are taken to
    succeed. *)
Fixpoint draw_pages (target : Z * Z) (i n : nat) (image_files : list string)
    (d : gmap string Frame) (c : Canvas)
  : gmap string Frame * option Canvas :=
  match image_files with
  | [] => (d, Some c)
  | image_file :: rest =>
      match d !! image_file with
      | None => (d, None)
      | Some original_img =>
          if resizes target original_img then
            let temp_path := temp_name i in
            let d1 := <[temp_path := original_img]> d in
            let c1 := match d1 !! temp_path with
                      | Some resized_img => drawImage resized_img c
                      | None => c
                      end in
            let d2 := delete temp_path d1 in
            let c2 := if (i <? n - 1)%nat then showPage c1 else c1 in
            draw_pages target (S i) n rest d2 c2
          else (d, None)
      end
  end.

(** [_create_pdf] (main.py 449-554).  Every exception is caught at
    main.py 553 and leaves [ebook.pdf] as it was: the first image cannot be
    opened, the page size cannot be computed, or an image cannot be opened
    or resized.  The canvas holds the pages only; writing [ebook.pdf] in
    [c.save()] is taken to succeed. *)
Definition _create_pdf (am : AppManager) : AppManager :=
  let image_files := sorted_pngs (screenshots am) in
  match image_files with
  | [] => am
  | _ :: _ =>
      let image_files :=
        if (1 <? length image_files)%nat then removelast image_files
        else image_files in
      match image_files with
      | [] => am
      | first_image :: _ =>
          match screenshots am !! first_image ≫= frame_size with
          | None => am
          | Some (original_width, original_height) =>
              match target_size original_width original_height with
              | None => am
              | Some target =>
                  match draw_pages target 0 (length image_files) image_files
                          (screenshots am) new_canvas with
                  | (d, Some c) =>
                      set_ebook_pdf (Some (save c)) (set_screenshots d am)
                  | (d, None) => set_screenshots d am
                  end
              end
          end
      end
  end.

(** The page [_create_pdf] makes of a file: the one image stored there. *)
Definition page_of (d : gmap string Frame) (name : string) : list Frame :=
  match d !! name with
  | Some f => [f]
  | None => []
  end.

End Pdf.

(** ** The capture loop of [main] *)

Module Loop.
Import Hamming Files App Pdf.

(** The four delays of [AppManager.__init__] (main.py 50-53). *)
Inductive Delay :=
| post_focus_delay_sec
| post_key_delay_sec
| page_load_delay_sec
| retry_interval_sec.

Definition delay_ms (d : Delay) : Z :=
  match d with
  | post_focus_delay_sec => 1000
  | post_key_delay_sec => 1000
  | page_load_delay_sec => 500
  | retry_interval_sec => 300
  end.

(** [send_right_arrow] (main.py 142-162): the AppleScript key code first,
    the Quartz event as fallback; [False] only when both are rejected. *)
Definition send_right_arrow (primary_ok fallback_ok : bool) : bool :=
  if primary_ok then true
  else if fallback_ok then true
  else false.

(** What the outside world answers during one turn of the loop. *)
Record Iteration := {
  frontmost : option string;     (* [_get_frontmost_app()] *)
  outcome : CaptureOutcome;      (* the window server, for the capture *)
  primary_ok : bool;             (* osascript delivered the key *)
  fallback_ok : bool             (* the Quartz event was posted *)
}.

(** The effects of the loop, in the order they happen. *)
Inductive Event :=
| Sleep (d : Delay)
| Capture (o : CaptureOutcome) (shot : option string)
| SendRightArrow (moved : bool)
| CreatePdf.

(** The state of one run: the manager, the local [duplicate_count] of
    [main], and the effects so far. *)
Record Run := {
  manager : AppManager;
  duplicate_count : nat;
  trace : list Event
}.

Definition log (e : Event) (r : Run) : Run :=
  {| manager := manager r; duplicate_count := duplicate_count r;
     trace := trace r ++ [e] |}.

Definition set_manager (am : AppManager) (r : Run) : Run :=
  {| manager := am; duplicate_count := duplicate_count r;
     trace := trace r |}.

Definition set_duplicate_count (n : nat) (r : Run) : Run :=
  {| manager := manager r; duplicate_count := n; trace := trace r |}.

(** The two ways the loop is left, named as in the design document:
    [Completed] for the [break] after a focus change (main.py 679-682) or
    after [max_duplicates] repeats (main.py 698-701), [Aborted] for the
    [break] after a key that could not be sent (main.py 715-719). *)
Inductive Terminal := Completed | Aborted.

Inductive Step :=
| Continue (r : Run)
| Stop (t : Terminal) (r : Run).

Definition max_duplicates : nat := 10.

Definition create_pdf (r : Run) : Run :=
  log CreatePdf (set_manager (_create_pdf (manager r)) r).

(** Step 4 and 5 of the loop body (main.py 712-723). *)
Definition advance (it : Iteration) (r : Run) : Step :=
  let moved := send_right_arrow (primary_ok it) (fallback_ok it) in
  let r := log (SendRightArrow moved) r in
  if negb moved then Stop Aborted (create_pdf r)
  else Continue (log (Sleep post_key_delay_sec) r).

(** [frontmost and frontmost != target_bundle_id] (main.py 679). *)
Definition focus_lost (target_bundle_id : string) (front : option string)
  : bool :=
  match front with
  | Some s => negb (String.eqb s "") && negb (String.eqb s target_bundle_id)
  | None => false
  end.

(** One turn of the inner [while True] (main.py 676-723).  A [break] hands
    control back to the application picker of the outer loop, which is not
    part of the run. *)
Definition loop_body (target_bundle_id : string) (it : Iteration) (r : Run)
  : Step :=
  if focus_lost target_bundle_id (frontmost it) then
    Stop Completed (create_pdf r)
  else
    let r := log (Sleep page_load_delay_sec) r in
    let (shot, am) := capture_screenshot (manager r) (outcome it) in
    let r := log (Capture (outcome it) shot) (set_manager am r) in
    if reached_duplicate (manager r) then
      let r := set_duplicate_count (duplicate_count r + 1) r in
      if (max_duplicates <=? duplicate_count r)%nat then
        Stop Completed (create_pdf r)
      else advance it r
    else
      match shot with
      | None => Continue (log (Sleep retry_interval_sec) r)
      | Some _ => advance it (set_duplicate_count 0 r)
      end.

(** The inner loop, run against the answers in [script]; [Running] when the
    script is used up before the loop is left. *)
Inductive Result :=
| Running (r : Run)
| Finished (t : Terminal) (r : Run).

Fixpoint capture_loop (target_bundle_id : string) (script : list Iteration)
    (r : Run) : Result :=
  match script with
  | [] => Running r
  | it :: rest =>
      match loop_body target_bundle_id it r with
      | Continue r' => capture_loop target_bundle_id rest r'
      | Stop t r' => Finished t r'
      end
  end.

(** The start of a run (main.py 672-674). *)
Definition start_run (am : AppManager) : Run :=
  {| manager := am; duplicate_count := 0;
     trace := [Sleep post_focus_delay_sec] |}.

Definition run_of (res : Result) : Run :=
  match res with
  | Running r => r
  | Finished _ r => r
  end.

Definition run_of_step (s : Step) : Run :=
  match s with
  | Continue r => r
  | Stop _ r => r
  end.

End Loop.

(** ** Notions used in the properties *)

Module Notions.
Import Hamming Files App Pdf Loop.

(** Every file of the directory is a saved screenshot. *)
Definition screenshots_only (d : gmap string Frame) : Prop :=
  forall name,
    is_Some (d !! name) -> exists timestamp, name = final_name timestamp.

(** The 1-based place of [name] in a listing. *)
Fixpoint position (name : string) (l : list string) : option nat :=
  match l with
  | [] => None
  | x :: l' =>
      if String.eqb x name then Some 1
      else option_map S (position name l')
  end.

(** The sequence index of a saved page: its place among the [.png] files of
    the directory in sorted order, the order in which [_create_pdf] puts
    them on pages. *)
Definition sequence_index (d : gmap string Frame) (name : string)
  : option nat :=
  position name (sorted_pngs d).

(** The frame saved by an effect, if it is a capture that saved one. *)
Definition saved_by (e : Event) : option Frame :=
  match e with
  | Capture (Grabbed _ f) (Some _) => Some f
  | _ => None
  end.

(** The frame most recently saved, read off the effects of a run. *)
Fixpoint last_saved (tr : list Event) : option Frame :=
  match tr with
  | [] => None
  | e :: rest =>
      match last_saved rest with
      | Some f => Some f
      | None => saved_by e
      end
  end.

(** The baseline is the one of the frame saved last, or the one the run
    started with when it saved none. *)
Definition baseline_inv (h0 : option string) (r : Run) : Prop :=
  last_image_hash (manager r)
  = match last_saved (trace r) with
    | Some f => baseline_of f
    | None => h0
    end.

(** The turn grabs a frame that repeats the page kept by [am], with the
    target application still in front and no stale temporary file. *)
Definition repeats (target : string) (am : AppManager) (it : Iteration)
  : bool :=
  negb (focus_lost target (frontmost it))
  && match outcome it with
     | Grabbed timestamp f =>
         match classify am f, screenshots am !! tmp_name timestamp with
         | Duplicate, None => true
         | _, _ => false
         end
     | _ => false
     end.

(** The key of the turn is delivered, by one path or the other. *)
Definition delivers (it : Iteration) : bool :=
  send_right_arrow (primary_ok it) (fallback_ok it).

(** The effects of a turn that finds a repeat and moves on. *)
Definition repeat_events (it : Iteration) : list Event :=
  [Sleep page_load_delay_sec; Capture (outcome it) None;
   SendRightArrow true; Sleep post_key_delay_sec].

(** The state in which a turn reaches step 3 after a repeat. *)
Definition counted (it : Iteration) (r : Run) : Run :=
  {| manager := set_reached_duplicate true (manager r);
     duplicate_count := duplicate_count r + 1;
     trace := trace r ++ [Sleep page_load_delay_sec;
                          Capture (outcome it) None] |}.

(** The effects of the turn whose repeat reaches [max_duplicates]. *)
Definition final_events (it : Iteration) : list Event :=
  [Sleep page_load_delay_sec; Capture (outcome it) None; CreatePdf].


End Notions.

(** ** Sample data *)

Module Samples.
Import Files App Loop.

Definition zeros64 : string :=
  "0000000000000000000000000000000000000000000000000000000000000000".
Definition ones64 : string :=
  "1111111111111111111111111111111111111111111111111111111111111111".
(** Three, respectively four, symbols away from [zeros64]. *)
Definition three_set : string :=
  "1110000000000000000000000000000000000000000000000000000000000000".
Definition four_set : string :=
  "1111000000000000000000000000000000000000000000000000000000000000".
(** A 32-symbol MD5 hex digest. *)
Definition md5_digest : string := "d41d8cd98f00b204e9800998ecf8427e".

(** A window image of 1440 by 900 pixels with the given fingerprint. *)
Definition page (fingerprint : string) : Frame :=
  {| frame_phash := Some fingerprint; frame_md5 := md5_digest;
     frame_size := Some (1440, 900)%Z; frame_loads := true |}.

(** A frame whose fingerprint could not be computed: a file Pillow cannot
    open. *)
Definition unreadable : Frame :=
  {| frame_phash := None; frame_md5 := md5_digest;
     frame_size := None; frame_loads := false |}.

(** A manager whose baseline is [h] and whose directory is empty. *)
Definition with_baseline (h : option string) : AppManager :=
  {| screenshots := ∅; ebook_pdf := None;
     last_image_hash := h; reached_duplicate := false |}.

(** The manager after one page, [page zeros64], was saved at second
    1700000000 by a fresh manager. *)
Definition one_page : AppManager :=
  snd (capture_screenshot (init ∅ None) (Grabbed 1700000000 (page zeros64))).

(** The manager after a second page, [page ones64], was saved two seconds
    later. *)
Definition two_pages : AppManager :=
  snd (capture_screenshot one_page (Grabbed 1700000002 (page ones64))).

Definition reader : string := "com.example.reader".

(** A turn with the reader in front and both key paths working. *)
Definition turn (o : CaptureOutcome) : Iteration :=
  {| frontmost := Some reader; outcome := o;
     primary_ok := true; fallback_ok := true |}.

(** Ten turns, two seconds apart, that each grab [page zeros64] again. *)
Definition ten_repeats : list Iteration :=
  map (fun i => turn (Grabbed (1700000002 + 2 * Z.of_nat i) (page zeros64)))
      (seq 0 10).

(** A run that has just saved its first page. *)
Definition after_first_page : Run :=
  {| manager := one_page; duplicate_count := 0;
     trace := [Sleep post_focus_delay_sec; Sleep page_load_delay_sec;
               Capture (Grabbed 1700000000 (page zeros64))
                 (Some "screenshot_1700000000.png");
               SendRightArrow true; Sleep post_key_delay_sec] |}.

End Samples.

(** ** Further notions for the directory and the loop *)

Module MoreNotions.
Import Files App Pdf Loop.

(** The number of underscores of a name tells a saved screenshot from a
    temporary one. *)
Fixpoint underscores (s : string) : nat :=
  match s with
  | EmptyString => 0
  | String c s' => (if Ascii.eqb c "_" then 1 else 0) + underscores s'
  end.

(** The files [_create_pdf] puts on pages: all of them but the last, or the
    single one (main.py 457-464). *)
Definition pdf_files (d : gmap string Frame) : list string :=
  let image_files := sorted_pngs d in
  if (1 <? length image_files)%nat then removelast image_files
  else image_files.

(** [name] is a file of [d] that can be opened and resized to [target]. *)
Definition draws (target : Z * Z) (d : gmap string Frame) (name : string)
  : bool :=
  match d !! name with
  | Some img => resizes target img
  | None => false
  end.

(** The page size [_create_pdf] works with, that of the first file it puts
    on a page; [None] when there is no file, when that file cannot be opened
    or when the computation raises. *)
Definition page_size (d : gmap string Frame) : option (Z * Z) :=
  match pdf_files d with
  | [] => None
  | first_image :: _ =>
      match d !! first_image ≫= frame_size with
      | Some (original_width, original_height) =>
          target_size original_width original_height
      | None => None
      end
  end.

(** [_create_pdf] gets as far as [c.save()]: there is a page size, and every
    file it puts on a page can be opened and resized to it. *)
Definition assembles (d : gmap string Frame) : bool :=
  match page_size d with
  | Some target => forallb (draws target d) (pdf_files d)
  | None => false
  end.

(** A capture that produced no image file. *)
Definition fails (o : CaptureOutcome) : bool :=
  match o with
  | Grabbed _ _ => false
  | _ => true
  end.

(** The effects of a turn whose capture is retried. *)
Definition retry_events (it : Iteration) : list Event :=
  [Sleep page_load_delay_sec; Capture (outcome it) None;
   Sleep retry_interval_sec].

End MoreNotions.

(** ** Python lists *)

Module Py.

(** [l[i]]: a negative index counts from the end, an index out of range
    raises [IndexError]. *)
Definition getitem {A} (l : list A) (i : Z) : option A :=
  let n := Z.of_nat (length l) in
  let i := if (i <? 0)%Z then (i + n)%Z else i in
  if (0 <=? i)%Z && (i <? n)%Z then l !! Z.to_nat i else None.

(** [range(lo, hi)]. *)
Definition range (lo hi : Z) : list Z :=
  map (fun k => (lo + Z.of_nat k)%Z) (seq 0 (Z.to_nat (hi - lo))).

End Py.

(** ** The application picker: [_curses_select] *)

Module Selector.
Import Py.

(** The key codes of curses that [_curses_select] names. *)
Definition KEY_DOWN : Z := 258.
Definition KEY_UP : Z := 259.
Definition KEY_ENTER : Z := 343.

Definition ord (c : ascii) : Z := Z.of_nat (nat_of_ascii c).

(** How a call of [_curses_select] ends, given the keys [getch] delivers. *)
Inductive Selection :=
| Index (selected : Z)      (* [return selected] *)
| Cancelled                 (* [return None] *)
| ZeroDivisionError         (* [% len(apps)] with no application *)
| Waiting (selected : Z).   (* blocked in [getch]: the keys are used up *)

(** The [while True] of main.py 603-635 over [n = len(apps)] entries. *)
Fixpoint select_loop (n selected : Z) (keys : list Z) : Selection :=
  match keys with
  | [] => Waiting selected
  | key :: rest =>
      if (key =? KEY_UP)%Z || (key =? ord "k")%Z then
        if (n =? 0)%Z then ZeroDivisionError
        else select_loop n ((selected - 1) mod n) rest
      else if (key =? KEY_DOWN)%Z || (key =? ord "j")%Z then
        if (n =? 0)%Z then ZeroDivisionError
        else select_loop n ((selected + 1) mod n) rest
      else if (key =? KEY_ENTER)%Z || (key =? 10)%Z || (key =? 13)%Z then
        Index selected
      else if (key =? ord "q")%Z || (key =? 27)%Z then Cancelled
      else select_loop n selected rest
  end.

(** [_curses_select] (main.py 597-635); [selected_index] is the field of
    [InteractiveAppSelector].  Setting up and drawing the screen is taken to
    succeed; it does not touch [selected]. *)
Definition _curses_select {A} (selected_index : Z) (apps : list A)
    (keys : list Z) : Selection :=
  let selected := match apps with
                  | [] => 0%Z
                  | _ :: _ => selected_index
                  end in
  select_loop (Z.of_nat (length apps)) selected keys.

(** A key that moves the selection, and by how much. *)
Definition step_of (key : Z) : option Z :=
  if (key =? KEY_UP)%Z || (key =? ord "k")%Z then Some (-1)%Z
  else if (key =? KEY_DOWN)%Z || (key =? ord "j")%Z then Some 1%Z
  else None.

Definition is_move (key : Z) : bool :=
  match step_of key with
  | Some _ => true
  | None => false
  end.

(** The sum of the moves of a list of keys. *)
Fixpoint net (keys : list Z) : Z :=
  match keys with
  | [] => 0
  | key :: rest =>
      match step_of key with
      | Some d => d + net rest
      | None => net rest
      end
  end.

End Selector.

(** ** [pdf_splitter.py] *)

Module Splitter.
Import Py.

Section Pages.
Context {Page : Type}.

(** What a call of [extract_pages] leaves: [False] and no output, or [True]
    and the pages written to [output_pdf]. *)
Inductive Extract :=
| Failed
| Written (written : list Page).

(** [extract_pages] (pdf_splitter.py 101-148).  [input_pdf] is what
    [PdfReader] finds in the input file, [None] when the file is missing or
    cannot be parsed; writing the output is taken to succeed. *)
Definition extract_pages (input_pdf : option (list Page))
    (start_page end_page : Z) : Extract :=
  match input_pdf with
  | None => Failed
  | Some pages =>
      let total_pages := Z.of_nat (length pages) in
      if (start_page <? 1)%Z || (end_page >? total_pages)%Z
         || (start_page >? end_page)%Z
      then Failed
      else
        (* writer.add_page(reader.pages[page_num]) for each page_num *)
        match mapM (getitem pages) (range (start_page - 1) end_page) with
        | Some written => Written written
        | None => Failed
        end
  end.

End Pages.

(** The loop of [interactive_mode] that asks for the range
    (pdf_splitter.py 178-188).  An answer is what [int] makes of the line
    typed, [None] when it raises [ValueError]; the result is [None] while
    the loop still waits for an answer. *)
Fixpoint ask_range (total_pages : Z) (answers : list (option Z))
  : option (Z * Z) :=
  match answers with
  | [] => None
  | None :: rest => ask_range total_pages rest
  | Some start_page :: rest =>
      match rest with
      | [] => None
      | None :: rest' => ask_range total_pages rest'
      | Some end_page :: rest' =>
          if (1 <=? start_page)%Z && (start_page <=? end_page)%Z
             && (end_page <=? total_pages)%Z
          then Some (start_page, end_page)
          else ask_range total_pages rest'
      end
  end.

(** Pages [start_page] to [end_page] of a document, counted from 1. *)
Definition page_range {Page} (pages : list Page) (start_page end_page : Z)
  : list Page :=
  take (Z.to_nat (end_page - start_page + 1))
       (drop (Z.to_nat (start_page - 1)) pages).

Definition valid_range (total_pages start_page end_page : Z) : bool :=
  (1 <=? start_page)%Z && (start_page <=? end_page)%Z
  && (end_page <=? total_pages)%Z.

End Splitter.

(** ** The list of running applications: [_get_running_apps_nsworkspace] *)

Module Apps.

(** [p.rfind(sep)]: the index of the last [sep] of [p], or -1. *)
Fixpoint rfind (sep : ascii) (p : string) : Z :=
  match p with
  | EmptyString => (-1)%Z
  | String c p' =>
      let r := rfind sep p' in
      if (0 <=? r)%Z then (r + 1)%Z
      else if Ascii.eqb c sep then 0%Z else (-1)%Z
  end.

(** [sep * n]. *)
Fixpoint repeat_sep (sep : ascii) (n : nat) : string :=
  match n with
  | O => EmptyString
  | S n' => String sep (repeat_sep sep n')
  end.

(** [s.rstrip(sep)]. *)
Fixpoint rstrip (sep : ascii) (s : string) : string :=
  match s with
  | EmptyString => EmptyString
  | String c s' =>
      match rstrip sep s' with
      | EmptyString => if Ascii.eqb c sep then EmptyString
                       else String c EmptyString
      | t => String c t
      end
  end.

(** [os.path.dirname] of posixpath:
    [i = p.rfind('/') + 1; head = p[:i]; if head and head != '/' * len(head):
     head = head.rstrip('/'); return head]. *)
Definition dirname (p : string) : string :=
  let i := (rfind "/" p + 1)%Z in
  let head := substring 0 (Z.to_nat i) p in
  if negb (String.eqb head "")
     && negb (String.eqb head (repeat_sep "/" (String.length head)))
  then rstrip "/" head
  else head.

(** What [NSRunningApplication] answers for one running application. *)
Record RunningApp := {
  bundleIdentifier : option string;
  localizedName : option string;
  processIdentifier : Z
}.

(** An entry of the list [_get_running_apps_nsworkspace] returns. *)
Record Entry := {
  name : string;
  bundle_id : string;
  path : string;
  pid : Z
}.

(** What the workspace and the Unicode tables answer:
    [workspace.URLForApplicationWithBundleIdentifier_(bundle_id).path()],
    [None] when there is no such URL or it has no path, and
    [unicodedata.normalize('NFC', _)]. *)
Class Workspace := {
  URLForApplicationWithBundleIdentifier : string -> option string;
  normalize_NFC : string -> string
}.

Section Listing.
Context {workspace : Workspace}.

(** The path tests of main.py 89-98. *)
Definition top_level (original_path : string) : bool :=
  negb (String.eqb original_path "")
  && String.prefix "/Applications" original_path
  && String.eqb (dirname original_path) "/Applications".

(** The body of the [for] loop (main.py 80-117): the entry to append, if the
    application passes the tests before the one on [seen_bundle_ids]. *)
Definition candidate (app : RunningApp) : option Entry :=
  match bundleIdentifier app with
  | None => None
  | Some bundle_id =>
      if String.eqb bundle_id "" then None
      else
        match URLForApplicationWithBundleIdentifier bundle_id with
        | None => None
        | Some original_path =>
            if top_level original_path then
              let app_name :=
                match localizedName app with
                | None => "Unknown"
                | Some n => if String.eqb n "" then "Unknown" else n
                end in
              Some {| name := normalize_NFC app_name;
                      bundle_id := bundle_id;
                      path := original_path;
                      pid := processIdentifier app |}
            else None
        end
  end.

Fixpoint collect (running_apps : list RunningApp)
    (seen_bundle_ids : gset string) (apps : list Entry) : list Entry :=
  match running_apps with
  | [] => apps
  | app :: rest =>
      match candidate app with
      | None => collect rest seen_bundle_ids apps
      | Some entry =>
          if decide (bundle_id entry ∈ seen_bundle_ids)
          then collect rest seen_bundle_ids apps
          else collect rest ({[bundle_id entry]} ∪ seen_bundle_ids)
                 (apps ++ [entry])
      end
  end.

(** [_get_running_apps_nsworkspace] (main.py 72-119). *)
Definition _get_running_apps_nsworkspace (running_apps : list RunningApp)
  : list Entry :=
  collect running_apps ∅ [].

End Listing.

(** No [/] occurs in [s]. *)
Fixpoint slash_free (s : string) : bool :=
  match s with
  | EmptyString => true
  | String c s' => negb (Ascii.eqb c "/") && slash_free s'
  end.

(** The string up to and with its last [/]. *)
Fixpoint head_of (p : string) : string :=
  match p with
  | EmptyString => EmptyString
  | String c p' =>
      match head_of p' with
      | EmptyString => if Ascii.eqb c "/" then String "/" EmptyString
                       else EmptyString
      | h => String c h
      end
  end.

(** The string after its last [/]. *)
Fixpoint tail_of (p : string) : string :=
  match p with
  | EmptyString => EmptyString
  | String c p' =>
      match head_of p' with
      | EmptyString => if Ascii.eqb c "/" then p' else p
      | _ => tail_of p'
      end
  end.

(** The last character of a string. *)
Fixpoint last_char (s : string) : option ascii :=
  match s with
  | EmptyString => None
  | String c s' =>
      match last_char s' with
      | None => Some c
      | Some c' => Some c'
      end
  end.

End Apps.

(** ** Sample applications *)

Module MoreSamples.
Import Files App Apps.

(** A readable image of 3000 by 1 pixels, and a manager whose directory
    holds it as its only screenshot; a manager whose only screenshot cannot
    be opened. *)
Definition sliver : Frame :=
  {| frame_phash := Some Samples.zeros64; frame_md5 := Samples.md5_digest;
     frame_size := Some (3000, 1)%Z; frame_loads := true |}.

Definition sliver_saved : AppManager :=
  snd (capture_screenshot (init ∅ None) (Grabbed 1700000000 sliver)).

Definition unreadable_saved : AppManager :=
  snd (capture_screenshot (init ∅ None)
         (Grabbed 1700000000 Samples.unreadable)).


(** A workspace with one application directly in [/Applications] and one in
    a folder below it. *)
Definition installed (b : string) : option string :=
  if String.eqb b "com.apple.Safari" then Some "/Applications/Safari.app"
  else if String.eqb b "com.apple.Terminal"
       then Some "/Applications/Utilities/Terminal.app"
  else None.

Definition installed_workspace : Workspace :=
  {| URLForApplicationWithBundleIdentifier := installed;
     normalize_NFC := fun s => s |}.

Definition safari : RunningApp :=
  {| bundleIdentifier := Some "com.apple.Safari";
     localizedName := Some "Safari"; processIdentifier := 501 |}.

Definition terminal : RunningApp :=
  {| bundleIdentifier := Some "com.apple.Terminal";
     localizedName := Some "Terminal"; processIdentifier := 502 |}.

Definition safari_entry : Entry :=
  {| name := "Safari"; bundle_id := "com.apple.Safari";
     path := "/Applications/Safari.app"; pid := 501 |}.

End MoreSamples.

(** * Properties *)

Import Hamming Files App Pdf Loop Notions Samples.

(** ** Running the definitions *)

Example str_int_examples :
  Files.str_int 0 = "0" /\ Files.str_int 7 = "7" /\ Files.str_int 10 = "10"
  /\ Files.str_int 1700000000 = "1700000000" /\ Files.str_int (-42) = "-42"
  /\ Files.final_name 1700000000 = "screenshot_1700000000.png"
  /\ Files.tmp_name 1700000000 = "screenshot_1700000000_tmp.png"
  /\ Files.temp_name 12 = "temp_12.png".
Proof. repeat split; reflexivity. Qed.

Example ends_with_examples :
  Files.ends_with ".png" "screenshot_1.png" = true
  /\ Files.ends_with ".png" "screenshot_1.png.bak" = false
  /\ Files.ends_with ".png" ".png" = true
  /\ Files.ends_with ".png" "png" = false.
Proof. repeat split; reflexivity. Qed.

Example sorted_pngs_example :
  Files.sorted_pngs
    (<["b.png" := unreadable]>
       (<["notes.txt" := unreadable]> (<["a.png" := unreadable]> ∅)))
  = ["a.png"; "b.png"].
Proof. vm_compute. reflexivity. Qed.

Example toy_phash_example :
  PHash.toy_phash [12; 200; 31; 77; 150]%Z
  = Some "0101001110000001000000001000000100000000000000001000000111010011".
Proof. vm_compute. reflexivity. Qed.

(** ** The fingerprint *)

Section FingerprintFacts.
Import PHash.
Context {float : PyFloat} {pillow : Pillow}.

Lemma length_dct_1d vector : length (dct_1d vector) = length vector.
Proof. unfold dct_1d. rewrite length_map, length_seq. reflexivity. Qed.

Lemma dct_1d_lookup vector k :
  k < length vector ->
  dct_1d vector !! k
  = Some (dct_sum (fun n => nth n vector (of_int 0)) (length vector) k).
Proof.
  intros Hk. unfold dct_1d.
  rewrite list_lookup_fmap, lookup_seq_lt by exact Hk. reflexivity.
Qed.

Lemma dct_sum_ext (f g : nat -> F) N k :
  (forall n, n < N -> f n = g n) -> dct_sum f N k = dct_sum g N k.
Proof.
  intros Hfg. unfold dct_sum.
  assert (Hin : forall n, n ∈ seq 0 N -> f n = g n).
  { intros n Hn. apply elem_of_seq in Hn. apply Hfg. lia. }
  generalize (of_int 0). revert Hin.
  induction (seq 0 N) as [|n l IH]; intros Hin s; [reflexivity|].
  cbn [fold_left]. rewrite (Hin n) by apply list_elem_of_here.
  apply IH. intros n' Hn'. apply Hin, list_elem_of_further, Hn'.
Qed.

Lemma mapM_head_rect {A} (rows : list (list A)) m :
  Forall (fun row => length row = S m) rows ->
  exists heads,
    mapM head rows = Some heads
    /\ length heads = length rows
    /\ forall i, heads !! i = rows !! i ≫= head.
Proof.
  induction 1 as [|row rows Hrow _ (heads & Hm & Hl & Hi)].
  - exists []. split; [reflexivity|]. split; [reflexivity|].
    intros i. reflexivity.
  - destruct row as [|a row]; [discriminate|].
    exists (a :: heads). cbn [mapM]. rewrite Hm.
    split; [reflexivity|]. split; [cbn; rewrite Hl; reflexivity|].
    intros [|i]; [reflexivity | apply Hi].
Qed.

Lemma zip_star_aux_rect {A} m :
  forall n (rows : list (list A)),
    rect n m rows ->
    rect m n (zip_star_aux m rows)
    /\ forall j i, entry (zip_star_aux m rows) j i = entry rows i j.
Proof.
  induction m as [|m IH]; intros n rows [Hn Hrows].
  - cbn [zip_star_aux]. split; [split; [reflexivity | constructor]|].
    intros j i. unfold entry. rewrite lookup_nil. cbn.
    destruct (rows !! i) as [row|] eqn:E; [|reflexivity]. cbn.
    rewrite Forall_forall in Hrows.
    assert (Hrow : length row = 0)
      by (apply Hrows, list_elem_of_lookup; exists i; exact E).
    destruct row; [reflexivity | discriminate].
  - cbn [zip_star_aux].
    destruct (mapM_head_rect rows m Hrows) as (heads & -> & Hl & Hi).
    assert (Htails : rect n m (map tail rows)).
    { split; [rewrite length_map; exact Hn|].
      apply Forall_fmap. eapply Forall_impl; [exact Hrows|].
      intros [|a row] Hrow; [discriminate|]. cbn in *. lia. }
    destruct (IH n _ Htails) as [[Hlen Hcols] Hentry].
    split; [split|].
    + cbn [length]. rewrite Hlen. reflexivity.
    + constructor; [rewrite Hl; exact Hn | exact Hcols].
    + intros [|j] i.
      * unfold entry. cbn. rewrite Hi.
        destruct (rows !! i) as [[|a row]|]; reflexivity.
      * change (entry (heads :: zip_star_aux m (map tail rows)) (S j) i)
          with (entry (zip_star_aux m (map tail rows)) j i).
        rewrite Hentry. unfold entry. rewrite list_lookup_fmap.
        destruct (rows !! i) as [[|a row]|]; reflexivity.
Qed.

Lemma zip_star_rect {A} n m (rows : list (list A)) :
  0 < n -> rect n m rows ->
  rect m n (zip_star rows)
  /\ forall j i, entry (zip_star rows) j i = entry rows i j.
Proof.
  intros Hpos Hrect. pose proof Hrect as [Hn Hrows].
  destruct rows as [|first rows]; [cbn in Hn; lia|].
  unfold zip_star.
  assert (Hfirst : length first = m).
  { apply Forall_cons in Hrows as [H _]. exact H. }
  rewrite Hfirst. apply zip_star_aux_rect. exact Hrect.
Qed.

Lemma map_dct_1d_rect n m rows :
  rect n m rows -> rect n m (map dct_1d rows).
Proof.
  intros [Hn Hrows]. split; [rewrite length_map; exact Hn|].
  apply Forall_fmap. eapply Forall_impl; [exact Hrows|].
  intros row Hrow. cbn. rewrite length_dct_1d. exact Hrow.
Qed.

Lemma matrix_row_length (pixels : list Z) i :
  length pixels = 1024 -> i < 32 ->
  length (firstn 32 (skipn (i * 32) pixels)) = 32.
Proof. intros Hl Hi. rewrite length_firstn, length_skipn. lia. Qed.

Lemma dct_rows_rect (pixels : list Z) :
  length pixels = 1024 -> rect 32 32 (dct_rows_of pixels).
Proof.
  intros Hl. unfold dct_rows_of, matrix_of. split.
  - rewrite !length_map, length_seq. reflexivity.
  - apply Forall_fmap, Forall_fmap, Forall_forall. intros i Hi.
    apply elem_of_seq in Hi. unfold compose.
    rewrite length_dct_1d, length_map.
    apply matrix_row_length; [exact Hl | lia].
Qed.

Lemma dct_rows_entry (pixels : list Z) i k :
  length pixels = 1024 -> i < 32 -> k < 32 ->
  entry (dct_rows_of pixels) i k = Some (row_transform pixels i k).
Proof.
  intros Hl Hi Hk. unfold entry, dct_rows_of, matrix_of.
  rewrite !list_lookup_fmap, lookup_seq_lt by exact Hi.
  cbn [fmap option_fmap option_map mbind option_bind Nat.add].
  pose proof (matrix_row_length pixels i Hl Hi) as Hrow.
  rewrite dct_1d_lookup by (rewrite length_map, Hrow; exact Hk).
  rewrite length_map, Hrow. f_equal.
  apply dct_sum_ext. intros n Hn. unfold grid.
  rewrite map_nth, nth_firstn.
  assert (Hlt : (n <? 32)%nat = true) by (apply Nat.ltb_lt; exact Hn).
  rewrite Hlt, nth_skipn. do 2 f_equal. lia.
Qed.

Lemma dct_entry (pixels : list Z) y x :
  length pixels = 1024 -> y < 32 -> x < 32 ->
  entry (dct_of pixels) y x = Some (coefficient pixels y x).
Proof.
  intros Hl Hy Hx. unfold dct_of.
  destruct (zip_star_rect 32 32 (dct_rows_of pixels))
    as [Hcols Hcol_entry]; [lia | apply dct_rows_rect, Hl|].
  destruct (zip_star_rect 32 32 (map dct_1d (zip_star (dct_rows_of pixels))))
    as [_ ->]; [lia | apply map_dct_1d_rect, Hcols|].
  unfold entry at 1. rewrite list_lookup_fmap.
  destruct Hcols as [Hn Hrows].
  destruct (lookup_lt_is_Some_2 (zip_star (dct_rows_of pixels)) x)
    as [col Hcol]; [rewrite Hn; exact Hx|].
  rewrite Hcol. cbn [fmap option_fmap option_map mbind option_bind].
  assert (Hlen : length col = 32).
  { rewrite Forall_forall in Hrows.
    apply Hrows, list_elem_of_lookup. exists x. exact Hcol. }
  rewrite dct_1d_lookup by (rewrite Hlen; exact Hy).
  rewrite Hlen. f_equal. unfold coefficient.
  apply dct_sum_ext. intros m Hm.
  apply nth_lookup_Some.
  specialize (Hcol_entry x m). unfold entry at 1 in Hcol_entry.
  rewrite Hcol in Hcol_entry. cbn [mbind option_bind] in Hcol_entry.
  rewrite Hcol_entry. apply dct_rows_entry; assumption.
Qed.

Lemma block_bounds p : p ∈ block -> fst p < 8 /\ snd p < 8.
Proof.
  intros Hin. apply list_elem_of_In in Hin. unfold block in Hin.
  apply in_flat_map in Hin as (y & Hy & Hin).
  apply in_map_iff in Hin as (x & <- & Hx).
  apply in_seq in Hy. apply in_seq in Hx. cbn. lia.
Qed.

Lemma block_lookup y x :
  y < 8 -> x < 8 -> block !! (8 * y + x) = Some (y, x).
Proof.
  intros Hy Hx.
  do 8 (destruct y as [|y];
        [do 8 (destruct x as [|x]; [reflexivity|]); lia|]).
  lia.
Qed.

Lemma mapM_map_Some {A B} (f : A -> option B) (g : A -> B) (l : list A) :
  (forall a, a ∈ l -> f a = Some (g a)) -> mapM f l = Some (map g l).
Proof.
  induction l as [|a l IH]; intros H; [reflexivity|].
  cbn [mapM map]. rewrite (H a) by apply list_elem_of_here.
  rewrite IH by (intros a' Ha'; apply H, list_elem_of_further, Ha').
  reflexivity.
Qed.

Lemma get_string_of_list_ascii (l : list ascii) n :
  String.get n (string_of_list_ascii l) = l !! n.
Proof.
  revert n. induction l as [|a l IH]; intros [|n]; cbn; auto.
Qed.

Lemma length_string_of_list_ascii (l : list ascii) :
  String.length (string_of_list_ascii l) = length l.
Proof.
  induction l as [|a l IH]; cbn; [reflexivity | rewrite IH; reflexivity].
Qed.

Lemma average_nonempty vals :
  vals <> [] ->
  average vals = fdiv (fsum vals) (of_int (Z.of_nat (length vals))).
Proof. destruct vals; [congruence | reflexivity]. Qed.

Lemma calculate_phash_tables image :
  _calculate_phash image
  = let dct := dct_of (getdata (resize_bicubic (32, 32) (convert_L image))) in
    vals ← mapM (fun p => entry dct (fst p) (snd p))
                (List.filter (fun p => negb (is_dc p)) block);
    bits ← mapM (fun p =>
                   if is_dc p then Some "0"%char
                   else c ← entry dct (fst p) (snd p);
                        Some (if fgt c (average vals) then "1"%char
                              else "0"%char))
                block;
    Some (string_of_list_ascii bits).
Proof. reflexivity. Qed.

(** The fingerprint of an image, symbol by symbol. *)
Lemma calculate_phash_bits image :
  let pixels := getdata (resize_bicubic (32, 32) (convert_L image)) in
  _calculate_phash image
  = Some (string_of_list_ascii
            (map (fun p => bit pixels (fst p) (snd p)) block)).
Proof.
  intros pixels.
  assert (Hl : length pixels = 1024) by apply getdata_resize.
  rewrite calculate_phash_tables. fold pixels. cbv zeta.
  assert (Hentry : forall p, p ∈ block ->
            entry (dct_of pixels) (fst p) (snd p)
            = Some (coefficient pixels (fst p) (snd p))).
  { intros p Hp. apply block_bounds in Hp as [Hy Hx].
    apply dct_entry; [exact Hl | lia | lia]. }
  assert (Hsame : List.filter (fun p => negb (is_dc p)) block = non_dc)
    by (vm_compute; reflexivity).
  rewrite Hsame.
  rewrite (mapM_map_Some _ (fun p => coefficient pixels (fst p) (snd p))).
  2:{ intros p Hp. apply Hentry. unfold non_dc in Hp.
      apply list_elem_of_In, filter_In in Hp as [Hp _].
      apply list_elem_of_In, Hp. }
  cbn [mbind option_bind].
  rewrite average_nonempty.
  2:{ intros E. apply (f_equal (@length _)) in E.
      rewrite length_map in E. discriminate E. }
  rewrite length_map.
  change (Z.of_nat (length non_dc)) with 63%Z.
  fold (mean63 pixels).
  rewrite (mapM_map_Some _ (fun p => bit pixels (fst p) (snd p))).
  - reflexivity.
  - intros p Hp. unfold bit, is_dc. rewrite (andb_comm (Nat.eqb (snd p) 0)).
    destruct (Nat.eqb (fst p) 0 && Nat.eqb (snd p) 0); [reflexivity|].
    rewrite (Hentry p Hp). reflexivity.
Qed.

(** C2. The fingerprint of an image is computed from its luminance version
    resampled to 32x32 with the bicubic filter; it has 64 symbols, the first
    of which, for position (0,0), is 0, and the symbol for any other position
    (y,x) of the top-left 8x8 block is 1 exactly when the coefficient of the
    row-then-column cosine transform at (y,x) is greater than the mean of the
    63 coefficients of the block other than the one at (0,0), else 0. *)
Theorem C2_fingerprint_bits (image : Image) :
  let small := resize_bicubic (32, 32) (convert_L image) in
  let pixels := getdata small in
  exists fingerprint,
    _calculate_phash image = Some fingerprint
    /\ String.length fingerprint = 64
    /\ String.get 0 fingerprint = Some "0"%char
    /\ length non_dc = 63
    /\ (forall y x,
          y < 8 -> x < 8 -> (y, x) <> (0, 0) ->
          String.get (8 * y + x) fingerprint
          = Some (if fgt (coefficient pixels y x) (mean63 pixels)
                  then "1"%char else "0"%char)).
Proof.
  intros small pixels.
  exists (string_of_list_ascii
            (map (fun p => bit pixels (fst p) (snd p)) block)).
  split; [apply calculate_phash_bits|].
  split; [rewrite length_string_of_list_ascii, length_map; reflexivity|].
  split; [reflexivity|].
  split; [reflexivity|].
  intros y x Hy Hx Hne.
  rewrite get_string_of_list_ascii, list_lookup_fmap.
  rewrite (block_lookup y x Hy Hx).
  cbn [fmap option_fmap option_map fst snd]. unfold bit.
  destruct y as [|y], x as [|x]; try reflexivity. congruence.
Qed.

End FingerprintFacts.

Lemma C2_fingerprint_bits_witness :
  exists fingerprint,
    PHash.toy_phash [12; 200; 31; 77; 150]%Z = Some fingerprint
    /\ String.length fingerprint = 64
    /\ String.get 0 fingerprint = Some "0"%char.
Proof.
  destruct (@C2_fingerprint_bits PHash.toy_float PHash.toy_pillow
              [12; 200; 31; 77; 150]%Z)
    as (fingerprint & H1 & H2 & H3 & _).
  exists fingerprint. exact (conj H1 (conj H2 H3)).
Defined.

(** ** The distance *)

Lemma truthy_Some s : truthy (Some s) = true <-> s <> "".
Proof.
  simpl. rewrite negb_true_iff. split.
  - intros H ->. discriminate.
  - intros H. destruct s; [congruence | reflexivity].
Qed.

Lemma truthy_length s n : String.length s = S n -> truthy (Some s) = true.
Proof. destruct s; [discriminate | reflexivity]. Qed.

Lemma zip_count_neq_comm a : forall b, zip_count_neq a b = zip_count_neq b a.
Proof.
  induction a as [|c a IH]; intros [|d b]; simpl; try reflexivity.
  rewrite IH, (Ascii.eqb_sym c d). reflexivity.
Qed.

Lemma zip_count_neq_diag a : zip_count_neq a a = 0.
Proof.
  induction a as [|c a IH]; simpl; [reflexivity|].
  rewrite Ascii.eqb_refl, IH. reflexivity.
Qed.

Lemma filter_seq_shift (p : nat -> bool) n :
  forall k, length (List.filter p (seq (S k) n))
            = length (List.filter (fun i => p (S i)) (seq k n)).
Proof.
  induction n as [|n IH]; intros k; simpl; [reflexivity|].
  destruct (p (S k)); simpl; rewrite IH; reflexivity.
Qed.

Lemma zip_count_neq_hamming a :
  forall b, String.length a = String.length b ->
            zip_count_neq a b = hamming a b.
Proof.
  unfold hamming.
  induction a as [|c a IH]; intros [|d b] Hlen;
    try reflexivity; try discriminate.
  injection Hlen as Hlen.
  cbn [zip_count_neq String.length seq List.filter].
  rewrite (IH b Hlen).
  assert (Htl : length (List.filter (differs_at (String c a) (String d b))
                          (seq 1 (String.length a)))
                = length (List.filter (differs_at a b)
                            (seq 0 (String.length a)))).
  { rewrite filter_seq_shift. reflexivity. }
  change (differs_at (String c a) (String d b) 0) with (negb (Ascii.eqb c d)).
  destruct (Ascii.eqb c d); cbn [negb length]; rewrite Htl; reflexivity.
Qed.

(** ** Facts about [_phash_distance] *)

Lemma phash_distance_comm (a b : option string) :
  _phash_distance a b = _phash_distance b a.
Proof.
  unfold _phash_distance.
  rewrite (orb_comm (negb (truthy a))).
  destruct (negb (truthy b) || negb (truthy a)); [reflexivity|].
  destruct a as [sa|], b as [sb|]; try reflexivity.
  rewrite (Nat.eqb_sym (String.length sa)).
  destruct (Nat.eqb (String.length sb) (String.length sa)); simpl;
    [apply zip_count_neq_comm | reflexivity].
Qed.

Lemma phash_distance_diag (a : option string) : _phash_distance a a = 0.
Proof.
  unfold _phash_distance.
  destruct (negb (truthy a) || negb (truthy a)); [reflexivity|].
  destruct a as [sa|]; [|reflexivity].
  rewrite Nat.eqb_refl. simpl. apply zip_count_neq_diag.
Qed.

Lemma phash_distance_present (a b : string) :
  a <> "" -> String.length a = String.length b ->
  _phash_distance (Some a) (Some b) = hamming a b.
Proof.
  intros Ha Hlen. unfold _phash_distance.
  assert (Hb : b <> "").
  { intros ->. destruct a; [congruence | discriminate]. }
  apply truthy_Some in Ha. apply truthy_Some in Hb.
  rewrite Ha, Hb. simpl.
  rewrite Hlen, Nat.eqb_refl. simpl.
  apply zip_count_neq_hamming. exact Hlen.
Qed.

Lemma phash_distance_absent_l (b : option string) :
  _phash_distance None b = 0.
Proof. reflexivity. Qed.

Lemma phash_distance_absent_r (a : option string) :
  _phash_distance a None = 0.
Proof. rewrite phash_distance_comm. reflexivity. Qed.

Lemma phash_distance_mismatch (a b : string) :
  String.length a <> String.length b ->
  _phash_distance (Some a) (Some b) = 0.
Proof.
  intros Hlen. unfold _phash_distance.
  destruct (negb (truthy (Some a)) || negb (truthy (Some b)));
    [reflexivity|].
  apply Nat.eqb_neq in Hlen. rewrite Hlen. reflexivity.
Qed.

(** C9. The distance of [_phash_distance] is symmetric, and the distance of
    a fingerprint to itself is 0; both hold for every pair of optional
    strings, absent and empty ones included. *)
Theorem C9_distance_symmetric_and_zero_on_self (a b : option string) :
  _phash_distance a b = _phash_distance b a /\ _phash_distance a a = 0.
Proof. split; [apply phash_distance_comm | apply phash_distance_diag]. Qed.

(** ** Facts about [capture_screenshot] *)

Lemma capture_grabbed_cases am timestamp f :
  capture_screenshot am (Grabbed timestamp f)
  = if truthy (last_image_hash am) && truthy (frame_phash f)
       && (_phash_distance (frame_phash f) (last_image_hash am)
           <=? threshold)%nat
    then (None, skipped timestamp f am)
    else (Some (final_name timestamp), saved timestamp f am).
Proof.
  unfold capture_screenshot.
  destruct (truthy (last_image_hash am) && truthy (frame_phash f));
    [|reflexivity].
  destruct (_phash_distance (frame_phash f) (last_image_hash am)
            <=? threshold)%nat; reflexivity.
Qed.

Lemma skipped_screenshots am timestamp f :
  screenshots am !! tmp_name timestamp = None ->
  screenshots (skipped timestamp f am) = screenshots am.
Proof. intros H. simpl. apply delete_insert_id. exact H. Qed.

Lemma saved_screenshots am timestamp f :
  screenshots am !! tmp_name timestamp = None ->
  screenshots (saved timestamp f am)
  = <[final_name timestamp := f]> (screenshots am).
Proof. intros H. simpl. rewrite delete_insert_id by exact H. reflexivity. Qed.

(** C1. For a present 64-symbol candidate [c] and baseline [b],
    [capture_screenshot] reports Duplicate exactly when the Hamming distance
    of [c] and [b] is at most the threshold 3 (3 itself included); on
    Duplicate nothing is returned and the directory is left as it was, on New
    the frame is stored under its final name and that path is returned. *)
Theorem C1_duplicate_iff_within_threshold
    (am : AppManager) (timestamp : Z) (f : Frame) (c b : string) :
  frame_phash f = Some c ->
  last_image_hash am = Some b ->
  String.length c = 64 ->
  String.length b = 64 ->
  screenshots am !! tmp_name timestamp = None ->
  let res := capture_screenshot am (Grabbed timestamp f) in
  (verdict_of res = Some Duplicate <-> hamming c b <= 3)
  /\ (verdict_of res = Some New <-> ~ hamming c b <= 3)
  /\ (verdict_of res = Some Duplicate ->
      fst res = None /\ screenshots (snd res) = screenshots am)
  /\ (verdict_of res = Some New ->
      fst res = Some (final_name timestamp)
      /\ screenshots (snd res)
         = <[final_name timestamp := f]> (screenshots am)).
Proof.
  intros Hc Hb Lc Lb Htmp res. subst res.
  rewrite capture_grabbed_cases, Hc, Hb.
  rewrite (truthy_length b 63 Lb), (truthy_length c 63 Lc).
  rewrite phash_distance_present
    by (first [ intros ->; discriminate | congruence ]).
  cbn [andb]. unfold threshold.
  destruct (Nat.leb_spec (hamming c b) 3) as [Hle|Hgt].
  - unfold verdict_of. cbn [fst snd skipped reached_duplicate].
    repeat split; try tauto; try discriminate; try lia.
    apply (skipped_screenshots am timestamp f Htmp).
  - unfold verdict_of. cbn [fst snd saved reached_duplicate].
    repeat split; try tauto; try discriminate; try lia.
    apply (saved_screenshots am timestamp f Htmp).
Qed.

Lemma C1_duplicate_iff_within_threshold_witness :
  let am := with_baseline (Some zeros64) in
  let res := capture_screenshot am (Grabbed 1700000000 (page three_set)) in
  (verdict_of res = Some Duplicate <-> hamming three_set zeros64 <= 3)
  /\ (verdict_of res = Some New <-> ~ hamming three_set zeros64 <= 3)
  /\ (verdict_of res = Some Duplicate ->
      fst res = None /\ screenshots (snd res) = screenshots am)
  /\ (verdict_of res = Some New ->
      fst res = Some (final_name 1700000000)
      /\ screenshots (snd res)
         = <[final_name 1700000000 := page three_set]> (screenshots am)).
Proof.
  apply (C1_duplicate_iff_within_threshold
           (with_baseline (Some zeros64)) 1700000000 (page three_set)
           three_set zeros64); reflexivity.
Defined.

Example boundary_three_is_duplicate :
  hamming three_set zeros64 = 3
  /\ classify (with_baseline (Some zeros64)) (page three_set) = Duplicate
  /\ hamming four_set zeros64 = 4
  /\ classify (with_baseline (Some zeros64)) (page four_set) = New.
Proof. repeat split; reflexivity. Qed.

Lemma verdict_grabbed am timestamp f :
  verdict_of (capture_screenshot am (Grabbed timestamp f))
  = Some (classify am f).
Proof.
  rewrite capture_grabbed_cases. unfold classify.
  destruct (truthy (last_image_hash am) && truthy (frame_phash f)
            && (_phash_distance (frame_phash f) (last_image_hash am)
                <=? threshold)%nat); reflexivity.
Qed.

Lemma capture_absent am timestamp f :
  truthy (frame_phash f) = false \/ truthy (last_image_hash am) = false ->
  capture_screenshot am (Grabbed timestamp f)
  = (Some (final_name timestamp), saved timestamp f am).
Proof.
  intros H. rewrite capture_grabbed_cases.
  destruct H as [-> | ->]; rewrite ?andb_false_r; reflexivity.
Qed.

Lemma classify_capture_new am timestamp f :
  classify am f = New ->
  capture_screenshot am (Grabbed timestamp f)
  = (Some (final_name timestamp), saved timestamp f am).
Proof.
  unfold classify. intros H. rewrite capture_grabbed_cases.
  destruct (truthy (last_image_hash am) && truthy (frame_phash f)
            && (_phash_distance (frame_phash f) (last_image_hash am)
                <=? threshold)%nat); [discriminate | reflexivity].
Qed.

Lemma classify_capture_duplicate am timestamp f :
  classify am f = Duplicate ->
  capture_screenshot am (Grabbed timestamp f)
  = (None, skipped timestamp f am).
Proof.
  unfold classify. intros H. rewrite capture_grabbed_cases.
  destruct (truthy (last_image_hash am) && truthy (frame_phash f)
            && (_phash_distance (frame_phash f) (last_image_hash am)
                <=? threshold)%nat); [reflexivity | discriminate].
Qed.

(** C4, as stated, fails: on a fresh manager the baseline is absent and the
    distance to it is 0, yet the first frame is classified New and saved. *)
Lemma C4_first_frame_is_saved :
  let am := init ∅ None in
  let f := page zeros64 in
  let res := capture_screenshot am (Grabbed 1700000000 f) in
  last_image_hash am = None
  /\ _phash_distance (frame_phash f) (last_image_hash am) = 0
  /\ verdict_of res = Some New
  /\ fst res = Some "screenshot_1700000000.png"
  /\ screenshots (snd res) !! "screenshot_1700000000.png" = Some f.
Proof. repeat split; reflexivity. Qed.

(** C4, amended. [_phash_distance] is 0 whenever an operand is absent
    ([None] or empty) or the lengths differ.  In [capture_screenshot], two
    present fingerprints of different lengths give distance 0, so the frame
    is classified Duplicate and not saved; when the candidate or the baseline
    is absent no distance is taken and the frame is classified New and
    saved. *)
Theorem C4_absent_or_mismatched
    (am : AppManager) (timestamp : Z) (f : Frame) :
  screenshots am !! tmp_name timestamp = None ->
  let candidate := frame_phash f in
  let baseline := last_image_hash am in
  let res := capture_screenshot am (Grabbed timestamp f) in
  (truthy candidate = false \/ truthy baseline = false
   \/ (exists c b, candidate = Some c /\ baseline = Some b
                   /\ String.length c <> String.length b) ->
   _phash_distance candidate baseline = 0)
  /\ (forall c b,
        candidate = Some c -> baseline = Some b -> c <> "" -> b <> "" ->
        String.length c <> String.length b ->
        verdict_of res = Some Duplicate
        /\ fst res = None
        /\ screenshots (snd res) = screenshots am)
  /\ (truthy candidate = false \/ truthy baseline = false ->
      verdict_of res = Some New
      /\ fst res = Some (final_name timestamp)
      /\ screenshots (snd res)
         = <[final_name timestamp := f]> (screenshots am)).
Proof.
  intros Htmp candidate baseline res. subst candidate baseline res.
  split; [|split].
  - intros [H | [H | (c & b & Hc & Hb & Hlen)]].
    + unfold _phash_distance. rewrite H. reflexivity.
    + unfold _phash_distance. rewrite H, orb_true_r. reflexivity.
    + rewrite Hc, Hb. apply phash_distance_mismatch. exact Hlen.
  - intros c b Hc Hb Hc0 Hb0 Hlen.
    rewrite capture_grabbed_cases, Hc, Hb.
    apply truthy_Some in Hc0. apply truthy_Some in Hb0.
    rewrite Hc0, Hb0, (phash_distance_mismatch c b Hlen).
    cbn [andb Nat.leb fst snd]. unfold verdict_of. cbn [snd skipped
      reached_duplicate].
    repeat split. apply (skipped_screenshots am timestamp f Htmp).
  - intros H. rewrite (capture_absent am timestamp f H).
    unfold verdict_of. cbn [fst snd saved reached_duplicate].
    repeat split. apply (saved_screenshots am timestamp f Htmp).
Qed.

Lemma C4_absent_or_mismatched_witness :
  let am := with_baseline (Some md5_digest) in
  let f := page zeros64 in
  let res := capture_screenshot am (Grabbed 1700000000 f) in
  _phash_distance (frame_phash f) (last_image_hash am) = 0
  /\ verdict_of res = Some Duplicate
  /\ fst res = None
  /\ screenshots (snd res) = screenshots am.
Proof.
  pose proof (C4_absent_or_mismatched
                (with_baseline (Some md5_digest)) 1700000000 (page zeros64)
                eq_refl) as (Hdist & Hmis & _).
  split.
  - apply Hdist. right. right. exists zeros64, md5_digest.
    repeat split; try reflexivity; try (vm_compute; lia).
  - apply (Hmis zeros64 md5_digest); try reflexivity; try discriminate;
      try (vm_compute; lia).
Defined.

(** ** The baseline along a run *)

Lemma last_saved_snoc tr e :
  last_saved (tr ++ [e])
  = match saved_by e with
    | Some f => Some f
    | None => last_saved tr
    end.
Proof.
  induction tr as [|e' tr IH]; simpl.
  - destruct (saved_by e); reflexivity.
  - rewrite IH. destruct (saved_by e); [reflexivity|].
    destruct (last_saved tr); reflexivity.
Qed.

Lemma capture_baseline am o :
  last_image_hash (snd (capture_screenshot am o))
  = match saved_by (Capture o (fst (capture_screenshot am o))) with
    | Some f => baseline_of f
    | None => last_image_hash am
    end.
Proof.
  destruct o as [ | | | | | |timestamp f]; try reflexivity.
  rewrite capture_grabbed_cases.
  destruct (truthy (last_image_hash am) && truthy (frame_phash f)
            && (_phash_distance (frame_phash f) (last_image_hash am)
                <=? threshold)%nat); reflexivity.
Qed.

Lemma create_pdf_last_image_hash am :
  last_image_hash (_create_pdf am) = last_image_hash am.
Proof.
  unfold _create_pdf.
  destruct (sorted_pngs (screenshots am)) as [|x l]; [reflexivity|].
  destruct (if (1 <? length (x :: l))%nat then removelast (x :: l)
            else x :: l) as [|first_image kept]; [reflexivity|].
  destruct (screenshots am !! first_image ≫= frame_size) as [[w h]|];
    [|reflexivity].
  destruct (target_size w h) as [target|]; [|reflexivity].
  destruct (draw_pages _ _ _ _ _ _) as [d [c|]]; reflexivity.
Qed.

Lemma baseline_inv_log h0 r e :
  saved_by e = None -> baseline_inv h0 r -> baseline_inv h0 (log e r).
Proof.
  unfold baseline_inv. intros He H. simpl.
  rewrite last_saved_snoc, He. exact H.
Qed.

Lemma baseline_inv_count h0 r n :
  baseline_inv h0 r -> baseline_inv h0 (set_duplicate_count n r).
Proof. intros H. exact H. Qed.

Lemma baseline_inv_create_pdf h0 r :
  baseline_inv h0 r -> baseline_inv h0 (create_pdf r).
Proof.
  unfold baseline_inv, create_pdf. intros H. simpl.
  rewrite last_saved_snoc, create_pdf_last_image_hash. exact H.
Qed.

Lemma baseline_inv_advance h0 it r :
  baseline_inv h0 r -> baseline_inv h0 (run_of_step (advance it r)).
Proof.
  intros H. unfold advance.
  destruct (negb (send_right_arrow (primary_ok it) (fallback_ok it))); simpl.
  - apply baseline_inv_create_pdf, baseline_inv_log; [reflexivity | exact H].
  - do 2 (apply baseline_inv_log; [reflexivity|]). exact H.
Qed.

Lemma baseline_inv_capture h0 r o :
  baseline_inv h0 r ->
  baseline_inv h0
    (log (Capture o (fst (capture_screenshot (manager r) o)))
       (set_manager (snd (capture_screenshot (manager r) o)) r)).
Proof.
  unfold baseline_inv. intros H. simpl.
  rewrite last_saved_snoc, capture_baseline.
  destruct (saved_by _); [reflexivity | exact H].
Qed.

Lemma baseline_inv_loop_body h0 target it r :
  baseline_inv h0 r ->
  baseline_inv h0 (run_of_step (loop_body target it r)).
Proof.
  intros H. unfold loop_body.
  destruct (focus_lost target (frontmost it)).
  { simpl. apply baseline_inv_create_pdf. exact H. }
  pose proof (baseline_inv_capture h0 (log (Sleep page_load_delay_sec) r)
                (outcome it)
                (baseline_inv_log h0 r (Sleep page_load_delay_sec)
                   eq_refl H)) as Hc.
  simpl manager in *.
  destruct (capture_screenshot (manager r) (outcome it)) as [shot am].
  simpl fst in *. simpl snd in *.
  set (r1 := log (Capture (outcome it) shot) _) in *.
  destruct (reached_duplicate am).
  - destruct (max_duplicates <=? _)%nat.
    + simpl. apply baseline_inv_create_pdf, baseline_inv_count, Hc.
    + apply baseline_inv_advance, baseline_inv_count, Hc.
  - destruct shot.
    + apply baseline_inv_advance, baseline_inv_count, Hc.
    + simpl. apply baseline_inv_log; [reflexivity | exact Hc].
Qed.

Lemma baseline_inv_capture_loop h0 target script :
  forall r, baseline_inv h0 r ->
            baseline_inv h0 (run_of (capture_loop target script r)).
Proof.
  induction script as [|it rest IH]; intros r H; simpl; [exact H|].
  pose proof (baseline_inv_loop_body h0 target it r H) as Hs.
  destruct (loop_body target it r) as [r'|t r']; simpl in *.
  - apply IH. exact Hs.
  - exact Hs.
Qed.

(** C7, as stated, fails: a frame whose fingerprint cannot be computed is
    saved all the same, and the baseline becomes the 32-symbol MD5 digest of
    its file, not a 64-bit fingerprint of the page. *)
Lemma C7_baseline_is_md5_digest :
  let turn := {| frontmost := None;
                 outcome := Grabbed 1700000000 unreadable;
                 primary_ok := true; fallback_ok := true |} in
  let r := run_of (capture_loop "com.example.reader" [turn]
                     (start_run (init ∅ None))) in
  last_saved (trace r) = Some unreadable
  /\ screenshots (manager r) !! "screenshot_1700000000.png" = Some unreadable
  /\ frame_phash unreadable = None
  /\ last_image_hash (manager r) = Some md5_digest
  /\ String.length md5_digest = 32.
Proof. vm_compute. repeat split; reflexivity. Qed.

(** C7, amended.  At every point of a run the baseline is the one kept for
    the page saved last: its fingerprint when that was computed, otherwise
    the MD5 hex digest of its file; before the run has saved a page it is the
    baseline the run started with, which is null for a fresh manager.  A
    capture that is not classified New, a Duplicate in particular, leaves the
    baseline as it was. *)
Theorem C7_baseline_follows_last_saved
    (am : AppManager) (target : string) (script : list Iteration) :
  let r := run_of (capture_loop target script (start_run am)) in
  match last_saved (trace r) with
  | Some f =>
      last_image_hash (manager r)
      = if truthy (frame_phash f) then frame_phash f
        else Some (frame_md5 f)
  | None => last_image_hash (manager r) = last_image_hash am
  end
  /\ (forall d pdf, last_image_hash (init d pdf) = None)
  /\ (forall am0 o,
        verdict_of (capture_screenshot am0 o) <> Some New ->
        last_image_hash (snd (capture_screenshot am0 o))
        = last_image_hash am0)
  /\ (forall am0 timestamp f,
        classify am0 f = Duplicate ->
        last_image_hash (snd (capture_screenshot am0 (Grabbed timestamp f)))
        = last_image_hash am0).
Proof.
  intros r. split; [|split; [|split]].
  - pose proof (baseline_inv_capture_loop (last_image_hash am) target script
                  (start_run am) eq_refl) as H.
    fold r in H. unfold baseline_inv, baseline_of in H.
    destruct (last_saved (trace r)); exact H.
  - reflexivity.
  - intros am0 o Hv. rewrite capture_baseline.
    destruct o as [ | | | | | |timestamp f]; try reflexivity.
    rewrite verdict_grabbed in Hv.
    destruct (classify am0 f) eqn:E; [congruence|].
    rewrite (classify_capture_duplicate am0 timestamp f E). reflexivity.
  - intros am0 timestamp f E.
    rewrite (classify_capture_duplicate am0 timestamp f E). reflexivity.
Qed.

(** ** The directory listing *)

Lemma ends_with_refl s : ends_with s s = true.
Proof. destruct s; cbn [ends_with]; rewrite String.eqb_refl; reflexivity. Qed.

Lemma ends_with_app suffix s : ends_with suffix (s ++ suffix) = true.
Proof.
  induction s as [|c s IH].
  - apply ends_with_refl.
  - change (String c s ++ suffix) with (String c (s ++ suffix)).
    cbn [ends_with]. rewrite IH.
    destruct (String.eqb _ _); reflexivity.
Qed.

Lemma append_assoc (s t u : string) : (s ++ t) ++ u = s ++ (t ++ u).
Proof.
  induction s as [|c s IH]; [reflexivity|].
  change (String c ((s ++ t) ++ u) = String c (s ++ (t ++ u))).
  rewrite IH. reflexivity.
Qed.

Lemma final_name_png timestamp : ends_with ".png" (final_name timestamp) = true.
Proof.
  unfold final_name.
  rewrite <- (append_assoc "screenshot_" (str_int timestamp) ".png").
  apply ends_with_app.
Qed.







Lemma elem_of_glob_png (d : gmap string Frame) name :
  name ∈ glob_png d <-> ends_with ".png" name = true /\ is_Some (d !! name).
Proof.
  unfold glob_png. rewrite list_elem_of_filter, list_elem_of_fmap.
  split.
  - intros [Hpng ([n x] & -> & Hin)]. split; [exact Hpng|].
    apply elem_of_map_to_list in Hin. exists x. exact Hin.
  - intros [Hpng [x Hx]]. split; [exact Hpng|].
    exists (name, x). split; [reflexivity|].
    apply elem_of_map_to_list. exact Hx.
Qed.

Lemma elem_of_sorted_pngs (d : gmap string Frame) name :
  name ∈ sorted_pngs d
  <-> ends_with ".png" name = true /\ is_Some (d !! name).
Proof.
  unfold sorted_pngs. rewrite merge_sort_Permutation.
  apply elem_of_glob_png.
Qed.

Lemma length_sorted_pngs (d : gmap string Frame) :
  length (sorted_pngs d) = length (glob_png d).
Proof. unfold sorted_pngs. rewrite merge_sort_Permutation. reflexivity. Qed.

Lemma NoDup_sorted_pngs (d : gmap string Frame) : NoDup (sorted_pngs d).
Proof.
  unfold sorted_pngs. rewrite merge_sort_Permutation.
  unfold glob_png. apply NoDup_filter, NoDup_fst_map_to_list.
Qed.

Lemma sorted_pngs_sorted (d : gmap string Frame) :
  StronglySorted String.le (sorted_pngs d).
Proof. apply StronglySorted_merge_sort; apply _. Qed.



Lemma sorted_pngs_empty : sorted_pngs (∅ : gmap string Frame) = [].
Proof.
  unfold sorted_pngs, glob_png. rewrite map_to_list_empty. reflexivity.
Qed.

(** ** Names of ten-digit capture times sort as the times do *)








(** ** Numbering of the saved pages *)

Lemma position_None name l : name ∉ l -> position name l = None.
Proof.
  induction l as [|x l IH]; intros Hnot; simpl; [reflexivity|].
  apply not_elem_of_cons in Hnot as [Hne Hnot].
  destruct (String.eqb_spec x name) as [->|_]; [congruence|].
  rewrite (IH Hnot). reflexivity.
Qed.








(** A directory of three files and a subdirectory, the second file
    refusing to be unlinked: the first file is removed, the other two stay,
    and the first page saved after that is the third of the listing. *)
Example clear_screenshots_folder_example :
  let start :=
    {| found := [("screenshot_1600000000.png", Some (page zeros64));
                 ("notes", None);
                 ("screenshot_1600000001.png", Some (page zeros64));
                 ("screenshot_1600000002.png", Some (page ones64))];
       unlink_raises := String.eqb "screenshot_1600000001.png" |} in
  let am := init start None in
  sorted_pngs (screenshots am)
  = ["screenshot_1600000001.png"; "screenshot_1600000002.png"]
  /\ sequence_index
       (screenshots
          (snd (capture_screenshot am (Grabbed 1700000000 (page zeros64)))))
       (final_name 1700000000) = Some 3.
Proof. vm_compute. split; reflexivity. Qed.



(** ** One turn of the loop *)

Lemma set_reached_duplicate_twice b am :
  set_reached_duplicate b (set_reached_duplicate b am)
  = set_reached_duplicate b am.
Proof. reflexivity. Qed.

Lemma repeats_flag target am it b :
  repeats target (set_reached_duplicate b am) it = repeats target am it.
Proof. reflexivity. Qed.

Lemma skipped_no_tmp am timestamp f :
  screenshots am !! tmp_name timestamp = None ->
  skipped timestamp f am = set_reached_duplicate true am.
Proof.
  intros H. unfold skipped, set_reached_duplicate.
  rewrite (delete_insert_id _ _ _ H). reflexivity.
Qed.

Lemma saved_no_tmp am timestamp f :
  screenshots am !! tmp_name timestamp = None ->
  saved timestamp f am
  = set_reached_duplicate false
      (set_last_image_hash (baseline_of f)
         (set_screenshots (<[final_name timestamp := f]> (screenshots am))
            am)).
Proof.
  intros H. unfold saved, set_reached_duplicate, set_last_image_hash,
    set_screenshots, baseline_of. cbn.
  rewrite (delete_insert_id _ _ _ H). reflexivity.
Qed.

Lemma app_events {A} (l : list A) (a b : A) :
  ((l ++ [a]) ++ [b] = l ++ [a; b])%list.
Proof. rewrite <- app_assoc. reflexivity. Qed.

Lemma loop_body_repeat target it r :
  repeats target (manager r) it = true ->
  loop_body target it r
  = if (max_duplicates <=? duplicate_count r + 1)%nat
    then Stop Completed (create_pdf (counted it r))
    else advance it (counted it r).
Proof.
  unfold repeats, loop_body. intros H.
  apply andb_true_iff in H as [Hfocus H].
  apply negb_true_iff in Hfocus. rewrite Hfocus.
  destruct (outcome it) as [ | | | | | |timestamp f] eqn:Ho;
    try discriminate.
  destruct (classify (manager r) f) eqn:Hc; [discriminate|].
  destruct (screenshots (manager r) !! tmp_name timestamp) eqn:Htmp;
    [discriminate|].
  cbn [manager log set_manager].
  rewrite (classify_capture_duplicate _ timestamp f Hc).
  rewrite (skipped_no_tmp _ timestamp f Htmp).
  cbn [manager log set_manager set_duplicate_count reached_duplicate
       set_reached_duplicate duplicate_count trace].
  unfold counted, set_duplicate_count, log, set_manager.
  cbn [manager duplicate_count trace].
  rewrite app_events, Ho. reflexivity.
Qed.

Lemma advance_delivered it r :
  delivers it = true ->
  advance it r
  = Continue (log (Sleep post_key_delay_sec) (log (SendRightArrow true) r)).
Proof. unfold advance, delivers. intros ->. reflexivity. Qed.

Lemma advance_rejected it r :
  delivers it = false ->
  advance it r = Stop Aborted (create_pdf (log (SendRightArrow false) r)).
Proof. unfold advance, delivers. intros ->. reflexivity. Qed.

Lemma capture_loop_app target l1 l2 :
  forall r,
    capture_loop target (l1 ++ l2) r
    = match capture_loop target l1 r with
      | Running r' => capture_loop target l2 r'
      | Finished t r' => Finished t r'
      end.
Proof.
  induction l1 as [|it l1 IH]; intros r; [reflexivity|].
  rewrite <- app_comm_cons. cbn [capture_loop].
  destruct (loop_body target it r); [apply IH | reflexivity].
Qed.

(** Fewer than [max_duplicates] repeats in a row: the loop goes on, the
    counter has grown by their number, the directory and the baseline are
    as before. *)
Lemma capture_loop_repeats target :
  forall (dups : list Iteration) (r : Run),
    forallb (repeats target (manager r)) dups = true ->
    forallb delivers dups = true ->
    duplicate_count r + length dups < max_duplicates ->
    capture_loop target dups r
    = Running
        {| manager := match dups with
                      | [] => manager r
                      | _ :: _ => set_reached_duplicate true (manager r)
                      end;
           duplicate_count := duplicate_count r + length dups;
           trace := trace r ++ flat_map repeat_events dups |}.
Proof.
  induction dups as [|it dups IH]; intros r Hrep Hdel Hlt.
  - cbn [capture_loop length flat_map]. rewrite Nat.add_0_r, app_nil_r.
    destruct r; reflexivity.
  - cbn [forallb] in Hrep, Hdel.
    apply andb_true_iff in Hrep as [Hrep1 Hrep].
    apply andb_true_iff in Hdel as [Hdel1 Hdel].
    cbn [length] in Hlt.
    cbn [capture_loop]. rewrite (loop_body_repeat target it r Hrep1).
    destruct (Nat.leb_spec max_duplicates (duplicate_count r + 1)) as [Hge|_];
      [lia|].
    rewrite (advance_delivered it _ Hdel1).
    rewrite IH; cbn [manager log counted duplicate_count trace].
    + f_equal. f_equal.
      * destruct dups; reflexivity.
      * cbn [length]. lia.
      * cbn [flat_map]. unfold repeat_events at 2.
        rewrite <- !app_assoc. reflexivity.
    + exact Hrep.
    + exact Hdel.
    + lia.
Qed.

Lemma loop_body_new target it r timestamp f :
  focus_lost target (frontmost it) = false ->
  outcome it = Grabbed timestamp f ->
  classify (manager r) f = New ->
  loop_body target it r
  = advance it
      {| manager := saved timestamp f (manager r);
         duplicate_count := 0;
         trace := trace r ++ [Sleep page_load_delay_sec;
                              Capture (outcome it)
                                (Some (final_name timestamp))] |}.
Proof.
  intros Hfocus Ho Hc. unfold loop_body. rewrite Hfocus, Ho.
  cbn [manager log set_manager].
  rewrite (classify_capture_new _ timestamp f Hc).
  unfold set_duplicate_count, log, set_manager.
  cbn [manager duplicate_count trace reached_duplicate saved].
  rewrite app_events. reflexivity.
Qed.

Lemma loop_body_duplicate target it r timestamp f :
  focus_lost target (frontmost it) = false ->
  outcome it = Grabbed timestamp f ->
  classify (manager r) f = Duplicate ->
  let r1 := {| manager := skipped timestamp f (manager r);
               duplicate_count := duplicate_count r + 1;
               trace := trace r ++ [Sleep page_load_delay_sec;
                                    Capture (outcome it) None] |} in
  loop_body target it r
  = if (max_duplicates <=? duplicate_count r + 1)%nat
    then Stop Completed (create_pdf r1)
    else advance it r1.
Proof.
  intros Hfocus Ho Hc. unfold loop_body. rewrite Hfocus, Ho.
  cbn [manager log set_manager].
  rewrite (classify_capture_duplicate _ timestamp f Hc).
  unfold set_duplicate_count, log, set_manager.
  cbn [manager duplicate_count trace reached_duplicate skipped].
  rewrite app_events. reflexivity.
Qed.

Lemma advance_duplicate_count it r :
  duplicate_count (run_of_step (advance it r)) = duplicate_count r.
Proof.
  unfold advance.
  destruct (negb (send_right_arrow (primary_ok it) (fallback_ok it)));
    reflexivity.
Qed.

(** [_create_pdf] only ever writes and removes files named [temp_<i>.png]. *)
Lemma draw_pages_keeps name :
  (forall i, name <> temp_name i) ->
  forall target image_files i n (d : gmap string Frame) c,
    fst (draw_pages target i n image_files d c) !! name = d !! name.
Proof.
  intros Hname target.
  induction image_files as [|file rest IH]; intros i n d c;
    cbn [draw_pages]; [reflexivity|].
  destruct (d !! file) as [img|]; [|reflexivity].
  destruct (resizes target img); [|reflexivity].
  rewrite IH.
  rewrite lookup_delete_ne, lookup_insert_ne; auto.
Qed.

Lemma create_pdf_keeps am name :
  (forall i, name <> temp_name i) ->
  screenshots (_create_pdf am) !! name = screenshots am !! name.
Proof.
  intros Hname. unfold _create_pdf.
  destruct (sorted_pngs (screenshots am)) as [|x l]; [reflexivity|].
  destruct (if (1 <? length (x :: l))%nat then removelast (x :: l)
            else x :: l) as [|first_image kept]; [reflexivity|].
  destruct (screenshots am !! first_image ≫= frame_size) as [[w h]|];
    [|reflexivity].
  destruct (target_size w h) as [target|]; [|reflexivity].
  match goal with
  | |- context [draw_pages ?t ?i ?n ?fs ?d ?c] =>
      pose proof (draw_pages_keeps name Hname t fs i n d c) as H;
      destruct (draw_pages t i n fs d c) as [d' [c'|]]
  end; exact H.
Qed.

Lemma final_name_not_temp timestamp i : final_name timestamp <> temp_name i.
Proof. unfold final_name, temp_name. intros H. discriminate H. Qed.

(** ** Repeats end the run *)

Lemma forallb_firstn {A} (p : A -> bool) (l : list A) k :
  forallb p l = true -> forallb p (firstn k l) = true.
Proof.
  intros H. rewrite <- (firstn_skipn k l), forallb_app in H.
  apply andb_true_iff in H as [H _]. exact H.
Qed.

Lemma forallb_skipn {A} (p : A -> bool) (l : list A) k :
  forallb p l = true -> forallb p (skipn k l) = true.
Proof.
  intros H. rewrite <- (firstn_skipn k l), forallb_app in H.
  apply andb_true_iff in H as [_ H]. exact H.
Qed.

(** C3. A frame classified New sets the counter to 0 and one classified
    Duplicate adds 1 to it; the turn in which the counter reaches
    [max_duplicates] = 10 leaves the loop as Completed and builds the PDF
    without sending a key.  So from a counter of 0, ten repeats in a row (the
    key delivered after each of the first nine) end the run at the tenth and
    not before, with the directory as it was before the repeats. *)
Theorem C3_counter_and_ten_repeats
    (target : string) (r : Run) (dups rest : list Iteration) :
  duplicate_count r = 0 ->
  length dups = max_duplicates ->
  forallb (repeats target (manager r)) dups = true ->
  forallb delivers (firstn 9 dups) = true ->
  (forall r0 it timestamp f,
     focus_lost target (frontmost it) = false ->
     outcome it = Grabbed timestamp f ->
     classify (manager r0) f = New ->
     duplicate_count (run_of_step (loop_body target it r0)) = 0)
  /\ (forall r0 it timestamp f,
        focus_lost target (frontmost it) = false ->
        outcome it = Grabbed timestamp f ->
        classify (manager r0) f = Duplicate ->
        duplicate_count (run_of_step (loop_body target it r0))
        = duplicate_count r0 + 1)
  /\ (forall r0 it timestamp f,
        focus_lost target (frontmost it) = false ->
        outcome it = Grabbed timestamp f ->
        classify (manager r0) f = Duplicate ->
        max_duplicates <= duplicate_count r0 + 1 ->
        exists r', loop_body target it r0 = Stop Completed r'
                   /\ trace r' = (trace r0 ++ final_events it)%list)
  /\ (forall k, k < max_duplicates ->
        capture_loop target (firstn k dups) r
        = Running
            {| manager := match k with
                          | 0 => manager r
                          | S _ => set_reached_duplicate true (manager r)
                          end;
               duplicate_count := k;
               trace := trace r ++ flat_map repeat_events (firstn k dups) |})
  /\ capture_loop target (dups ++ rest) r
     = Finished Completed
         {| manager := _create_pdf (set_reached_duplicate true (manager r));
            duplicate_count := max_duplicates;
            trace := trace r ++ flat_map repeat_events (firstn 9 dups)
                             ++ flat_map final_events (skipn 9 dups) |}
  /\ (forall timestamp,
        screenshots (_create_pdf (set_reached_duplicate true (manager r)))
          !! final_name timestamp
        = screenshots (manager r) !! final_name timestamp).
Proof.
  intros Hzero Hlen Hrep Hdel.
  split; [|split; [|split; [|split; [|split]]]].
  - intros r0 it timestamp f Hfocus Ho Hc.
    rewrite (loop_body_new target it r0 timestamp f Hfocus Ho Hc).
    apply advance_duplicate_count.
  - intros r0 it timestamp f Hfocus Ho Hc.
    rewrite (loop_body_duplicate target it r0 timestamp f Hfocus Ho Hc).
    destruct (max_duplicates <=? duplicate_count r0 + 1)%nat;
      [reflexivity | apply advance_duplicate_count].
  - intros r0 it timestamp f Hfocus Ho Hc Hmax.
    rewrite (loop_body_duplicate target it r0 timestamp f Hfocus Ho Hc).
    apply Nat.leb_le in Hmax. rewrite Hmax.
    eexists. split; [reflexivity|].
    unfold final_events. cbn [create_pdf log set_manager trace].
    rewrite <- app_assoc. reflexivity.
  - intros k Hk.
    assert (Hlk : length (firstn k dups) = k).
    { rewrite length_firstn. lia. }
    rewrite capture_loop_repeats.
    + rewrite Hzero, Hlk. f_equal. f_equal.
      destruct k; destruct dups; try reflexivity; discriminate.
    + apply forallb_firstn, Hrep.
    + replace (firstn k dups) with (firstn k (firstn 9 dups)).
      * apply forallb_firstn, Hdel.
      * rewrite firstn_firstn. f_equal. unfold max_duplicates in Hk. lia.
    + rewrite Hzero, Hlk. simpl. exact Hk.
  - rewrite <- (firstn_skipn 9 dups) at 1.
    rewrite <- app_assoc, capture_loop_app.
    assert (Hl9 : length (firstn 9 dups) = 9).
    { rewrite length_firstn. unfold max_duplicates in Hlen. lia. }
    rewrite capture_loop_repeats;
      [ | apply forallb_firstn, Hrep | exact Hdel
        | rewrite Hzero, Hl9; unfold max_duplicates; simpl; lia ].
    assert (Hs : length (skipn 9 dups) = 1).
    { rewrite length_skipn. unfold max_duplicates in Hlen. lia. }
    pose proof (forallb_skipn _ _ 9 Hrep) as Hreps.
    destruct (skipn 9 dups) as [|it [|]]; try discriminate.
    cbn [forallb] in Hreps. apply andb_true_iff in Hreps as [Hit _].
    destruct (firstn 9 dups) as [|it0 l9] eqn:E9; [discriminate|].
    cbn [app capture_loop].
    rewrite loop_body_repeat by exact Hit.
    cbn [duplicate_count]. rewrite Hzero, Hl9.
    cbn [Nat.add Nat.leb max_duplicates].
    unfold create_pdf, counted, log, set_manager, final_events.
    cbn [manager duplicate_count trace flat_map app].
    rewrite <- !app_assoc. reflexivity.
  - intros timestamp. rewrite create_pdf_keeps; [reflexivity|].
    apply final_name_not_temp.
Qed.

Lemma C3_counter_and_ten_repeats_witness :
  capture_loop reader (ten_repeats ++ []) after_first_page
  = Finished Completed
      {| manager := _create_pdf (set_reached_duplicate true one_page);
         duplicate_count := max_duplicates;
         trace := trace after_first_page
                  ++ flat_map repeat_events (firstn 9 ten_repeats)
                  ++ flat_map final_events (skipn 9 ten_repeats) |}
  /\ capture_loop reader (firstn 9 ten_repeats) after_first_page
     = Running
         {| manager := set_reached_duplicate true one_page;
            duplicate_count := 9;
            trace := trace after_first_page
                     ++ flat_map repeat_events
                          (firstn 9 (firstn 9 ten_repeats)) |}.
Proof.
  pose proof (C3_counter_and_ten_repeats reader after_first_page
                ten_repeats [] eq_refl eq_refl eq_refl eq_refl)
    as (_ & _ & _ & Hbefore & Hend & _).
  split; [exact Hend|].
  rewrite (Hbefore 9) by (unfold max_duplicates; lia).
  rewrite firstn_firstn. reflexivity.
Defined.

(** The scenario of the design document: a blank page, a page of text, the
    same page again with one symbol changed, then a third page eleven times.
    Three pages are saved and the run is Completed. *)
Example scenario_three_pages :
  let half :=
    "1111111111111111111111111111111100000000000000000000000000000000" in
  let half' :=
    "1111111111111111111111111111111110000000000000000000000000000000" in
  let script :=
    (turn (Grabbed 1700000000 (page zeros64))
     :: turn (Grabbed 1700000002 (page half))
     :: turn (Grabbed 1700000004 (page half'))
     :: turn (Grabbed 1700000006 (page ones64))
     :: map (fun i => turn (Grabbed (1700000008 + 2 * Z.of_nat i)
                              (page ones64)))
            (seq 0 10))%list in
  exists r,
    capture_loop reader script (start_run (init ∅ None))
    = Finished Completed r
    /\ sorted_pngs (screenshots (manager r))
       = ["screenshot_1700000000.png"; "screenshot_1700000002.png";
          "screenshot_1700000006.png"]
    /\ duplicate_count r = 10.
Proof. eexists. vm_compute. repeat split; reflexivity. Qed.

(** ** Failed captures *)

(** C5, evaluated where it fails.  After a page was saved and then grabbed
    again (one Duplicate, counter 1), a capture that finds no visible window
    returns without clearing [reached_duplicate]: the loop counts it as a
    repeat (counter 2) and sends the key, with no retry pause.  The sibling
    failure [ImageNone], which clears the flag (main.py 228), leaves the
    counter at 1 and pauses for [retry_interval_sec]. *)
Theorem C5_no_window_counts_as_duplicate :
  let script o :=
    [turn (Grabbed 1700000000 (page zeros64));
     turn (Grabbed 1700000002 (page zeros64));
     turn o] in
  let start := start_run (init ∅ None) in
  let run s := run_of (capture_loop reader s start) in
  let before := run (firstn 2 (script Raised)) in
  let no_window := run (script NoVisibleWindow) in
  let image_none := run (script ImageNone) in
  duplicate_count before = 1
  /\ duplicate_count no_window = 2
  /\ trace no_window
     = (trace before ++ [Sleep page_load_delay_sec;
                         Capture NoVisibleWindow None;
                         SendRightArrow true; Sleep post_key_delay_sec])%list
  /\ duplicate_count image_none = 1
  /\ trace image_none
     = (trace before ++ [Sleep page_load_delay_sec;
                         Capture ImageNone None;
                         Sleep retry_interval_sec])%list.
Proof. vm_compute. repeat split; reflexivity. Qed.

(** ** The pages of the PDF *)

Import MoreNotions MoreSamples.

Lemma screenshots_only_no_temp d i :
  screenshots_only d -> d !! temp_name i = None.
Proof.
  intros Hd. destruct (d !! temp_name i) as [f|] eqn:E; [|reflexivity].
  destruct (Hd (temp_name i)) as [timestamp Ht]; [exists f; exact E|].
  symmetry in Ht. apply final_name_not_temp in Ht. destruct Ht.
Qed.

Lemma draw_pages_all target (d : gmap string Frame) :
  (forall i, d !! temp_name i = None) ->
  forall image_files i n c,
    i + length image_files = n ->
    forallb (draws target d) image_files = true ->
    code c = [] ->
    exists c', draw_pages target i n image_files d c = (d, Some c')
               /\ save c' = (pages c ++ map (page_of d) image_files)%list.
Proof.
  intros Htemp. induction image_files as [|file rest IH];
    intros i n c Hn Hall Hcode.
  - exists c. split; [reflexivity|].
    unfold save. rewrite Hcode, app_nil_r. reflexivity.
  - cbn [forallb] in Hall. apply andb_true_iff in Hall as [Hfile Hall].
    unfold draws in Hfile.
    destruct (d !! file) as [img|] eqn:Himg; [|discriminate].
    cbn [draw_pages]. rewrite Himg, Hfile, lookup_insert_eq.
    rewrite (delete_insert_id _ _ _ (Htemp i)).
    cbn [length] in Hn. cbn [map]. unfold page_of at 1. rewrite Himg.
    destruct rest as [|file' rest'].
    + assert (Hlast : (i <? n - 1)%nat = false)
        by (apply Nat.ltb_ge; simpl in Hn; lia).
      rewrite Hlast. cbn [draw_pages].
      exists (drawImage img c). split; [reflexivity|].
      unfold save, drawImage. cbn [code pages showPage].
      rewrite Hcode. reflexivity.
    + assert (Hmore : (i <? n - 1)%nat = true)
        by (apply Nat.ltb_lt; simpl in Hn; lia).
      rewrite Hmore.
      destruct (IH (S i) n (showPage (drawImage img c)))
        as (c' & Hdraw & Hsave); [simpl in *; lia | exact Hall | reflexivity|].
      exists c'. split; [exact Hdraw|].
      rewrite Hsave. unfold showPage, drawImage. cbn [pages code].
      rewrite Hcode, <- app_assoc. reflexivity.
Qed.

(** An image that cannot be opened or resized ends the loop with the
    directory as it was and no canvas. *)
Lemma draw_pages_stops target (d : gmap string Frame) :
  (forall i, d !! temp_name i = None) ->
  forall image_files i n c,
    forallb (draws target d) image_files = false ->
    draw_pages target i n image_files d c = (d, None).
Proof.
  intros Htemp. induction image_files as [|file rest IH]; intros i n c Hall;
    [discriminate|].
  cbn [forallb] in Hall. cbn [draw_pages]. unfold draws in Hall at 1.
  destruct (d !! file) as [img|] eqn:Himg; [|reflexivity].
  destruct (resizes target img); [|reflexivity].
  cbn [andb] in Hall.
  rewrite (delete_insert_id _ _ _ (Htemp i)). apply IH, Hall.
Qed.

Lemma removelast_elem (x : string) l : x ∈ removelast l -> x ∈ l.
Proof.
  induction l as [|y l IH]; cbn [removelast]; [trivial|].
  destruct l as [|z l]; [intros H; apply elem_of_nil in H; destruct H|].
  intros H. apply elem_of_cons in H as [->|H].
  - apply list_elem_of_here.
  - apply list_elem_of_further, IH, H.
Qed.

Lemma length_removelast' {A} (l : list A) :
  length (removelast l) = length l - 1.
Proof. rewrite removelast_firstn_len, length_firstn. lia. Qed.

Lemma glob_png_all (d : gmap string Frame) :
  screenshots_only d -> glob_png d = (map_to_list d).*1.
Proof.
  intros Hd. unfold glob_png.
  assert (Hall : Forall (fun name => ends_with ".png" name = true)
                   (map_to_list d).*1).
  { apply Forall_forall. intros name Hin.
    apply list_elem_of_fmap in Hin as ([n f] & -> & Hin).
    apply elem_of_map_to_list in Hin.
    destruct (Hd n) as [timestamp ->]; [exists f; exact Hin|].
    apply final_name_png. }
  induction Hall as [|x l Hx Hl IH]; [reflexivity|].
  rewrite filter_cons_True by exact Hx. rewrite IH. reflexivity.
Qed.

(** A manager that started on an empty directory holds no file. *)
Lemma init_screenshots_only pdf : screenshots_only (screenshots (init ∅ pdf)).
Proof.
  intros name [f Hf]. cbn in Hf. rewrite lookup_empty in Hf. discriminate.
Qed.

(** [capture_screenshot] leaves a directory of saved screenshots a directory
    of saved screenshots, and never touches [ebook.pdf]. *)
Lemma capture_screenshots_only am o :
  screenshots_only (screenshots am) ->
  screenshots_only (screenshots (snd (capture_screenshot am o))).
Proof.
  intros Hd. destruct o as [| | | | | |t f]; try exact Hd.
  rewrite capture_grabbed_cases.
  destruct (_ && _ && _); cbn [snd skipped saved screenshots];
    intros name [g Hg].
  - destruct (decide (name = tmp_name t)) as [->|Hne].
    + rewrite lookup_delete_eq in Hg. discriminate.
    + rewrite lookup_delete_ne, lookup_insert_ne in Hg by congruence.
      apply Hd. eauto.
  - destruct (decide (name = final_name t)) as [->|Hnf]; [eauto|].
    rewrite lookup_insert_ne in Hg by congruence.
    destruct (decide (name = tmp_name t)) as [->|Hne].
    + rewrite lookup_delete_eq in Hg. discriminate.
    + rewrite lookup_delete_ne, lookup_insert_ne in Hg by congruence.
      apply Hd. eauto.
Qed.

Lemma capture_ebook_pdf am o :
  ebook_pdf (snd (capture_screenshot am o)) = ebook_pdf am.
Proof.
  destruct o as [| | | | | |t f]; try reflexivity.
  rewrite capture_grabbed_cases. destruct (_ && _ && _); reflexivity.
Qed.

(** On a directory of saved screenshots [_create_pdf] either gets as far as
    [c.save()] and writes the pages of [pdf_files], or changes nothing. *)
Lemma create_pdf_result am :
  screenshots_only (screenshots am) ->
  _create_pdf am
  = if assembles (screenshots am)
    then set_ebook_pdf
           (Some (map (page_of (screenshots am)) (pdf_files (screenshots am))))
           am
    else am.
Proof.
  intros Hd.
  assert (Htemp : forall i, screenshots am !! temp_name i = None)
    by (intros i; apply screenshots_only_no_temp, Hd).
  assert (Hset : set_screenshots (screenshots am) am = am)
    by (destruct am; reflexivity).
  unfold _create_pdf, assembles, page_size, pdf_files.
  destruct (sorted_pngs (screenshots am)) as [|x l]; [reflexivity|].
  set (kept := if (1 <? length (x :: l))%nat then removelast (x :: l)
               else x :: l).
  destruct kept as [|first_image rest] eqn:Ekept; [reflexivity|].
  destruct (screenshots am !! first_image ≫= frame_size) as [[w h]|];
    [|reflexivity].
  destruct (target_size w h) as [target|]; [|reflexivity].
  destruct (forallb (draws target (screenshots am)) (first_image :: rest))
    eqn:Eall.
  - destruct (draw_pages_all target (screenshots am) Htemp
                (first_image :: rest) 0 (length (first_image :: rest))
                new_canvas eq_refl Eall eq_refl) as (c' & -> & ->).
    rewrite Hset. reflexivity.
  - rewrite (draw_pages_stops target (screenshots am) Htemp _ _ _ _ Eall).
    exact Hset.
Qed.

Lemma assembles_files (d : gmap string Frame) :
  assembles d = true -> sorted_pngs d <> [].
Proof.
  unfold assembles, page_size, pdf_files. intros H E. rewrite E in H.
  discriminate.
Qed.

(** C10. When the directory holds N saved screenshots, [_create_pdf] lists
    them in sorted order.  Whenever it assembles the PDF, that is, gets as
    far as [c.save()], it leaves out for N >= 2 the screenshot that sorts
    last and writes a PDF of N-1 pages, one image per page, in that order;
    for N = 1 the single image is the single page; so the PDF it writes has
    at least one page.  When it does not get that far, because an image
    cannot be opened or resized or the page size cannot be computed, it
    writes nothing. *)
Theorem C10_pdf_drops_last_page (am : AppManager) :
  screenshots_only (screenshots am) ->
  let files := sorted_pngs (screenshots am) in
  let N := length files in
  N = size (screenshots am)
  /\ StronglySorted String.le files
  /\ Forall (fun name => exists f, screenshots am !! name = Some f
                                   /\ page_of (screenshots am) name = [f])
       files
  /\ (assembles (screenshots am) = true ->
      1 <= N
      /\ (2 <= N ->
          ebook_pdf (_create_pdf am)
          = Some (map (page_of (screenshots am)) (removelast files))
          /\ length (removelast files) = N - 1
          /\ files = (removelast files ++ [List.last files ""])%list
          /\ List.last files "" ∉ removelast files)
      /\ (N = 1 ->
          ebook_pdf (_create_pdf am)
          = Some (map (page_of (screenshots am)) files))
      /\ (exists pages,
            ebook_pdf (_create_pdf am) = Some pages /\ pages <> []))
  /\ (assembles (screenshots am) = false -> _create_pdf am = am).
Proof.
  intros Hd files N.
  assert (Hin : Forall (fun name => is_Some (screenshots am !! name)) files).
  { apply Forall_forall. intros name Hname.
    apply elem_of_sorted_pngs in Hname as [_ H]. exact H. }
  pose proof (create_pdf_result am Hd) as Hres.
  split; [|split; [|split; [|split]]].
  - unfold N, files. rewrite length_sorted_pngs, (glob_png_all _ Hd).
    rewrite length_fmap, length_map_to_list. reflexivity.
  - apply sorted_pngs_sorted.
  - eapply Forall_impl; [exact Hin|]. intros name [f Hf].
    exists f. split; [exact Hf|]. unfold page_of. rewrite Hf. reflexivity.
  - intros Hasm. rewrite Hasm in Hres.
    assert (Hne : files <> []) by (apply assembles_files, Hasm).
    assert (HN : 1 <= N).
    { unfold N. destruct files; [congruence | cbn [length]; lia]. }
    assert (Hpdf : ebook_pdf (_create_pdf am)
                   = Some (map (page_of (screenshots am))
                             (if (1 <? N)%nat then removelast files
                              else files)))
      by (rewrite Hres; reflexivity).
    split; [exact HN|]. split; [|split].
    + intros HN2.
      assert (Hsplit : files
                       = (removelast files ++ [List.last files ""])%list)
        by (apply app_removelast_last, Hne).
      assert (H : (1 <? N)%nat = true) by (apply Nat.ltb_lt; lia).
      rewrite H in Hpdf.
      split; [exact Hpdf|]. split; [apply length_removelast'|].
      split; [exact Hsplit|].
      pose proof (NoDup_sorted_pngs (screenshots am)) as Hnd.
      fold files in Hnd. rewrite Hsplit in Hnd.
      apply NoDup_app in Hnd as (_ & Hdisj & _).
      intros Hl. apply (Hdisj _ Hl). apply list_elem_of_here.
    + intros HN1.
      assert (H : (1 <? N)%nat = false) by (apply Nat.ltb_ge; lia).
      rewrite H in Hpdf. exact Hpdf.
    + eexists. split; [exact Hpdf|].
      intros E. apply (f_equal (@length _)) in E. rewrite length_map in E.
      destruct (Nat.ltb_spec 1 N).
      * rewrite length_removelast' in E. fold N in E. cbn in E. lia.
      * fold N in E. cbn in E. lia.
  - intros Hasm. rewrite Hasm in Hres. exact Hres.
Qed.

Lemma two_pages_screenshots_only : screenshots_only (screenshots two_pages).
Proof.
  assert (E : screenshots two_pages
              = <[final_name 1700000002 := page ones64]>
                  (<[final_name 1700000000 := page zeros64]> ∅))
    by (vm_compute; reflexivity).
  intros name [f Hf]. rewrite E in Hf.
  apply lookup_insert_Some in Hf as [[<- _] | [_ Hf]];
    [exists 1700000002%Z; reflexivity|].
  apply lookup_insert_Some in Hf as [[<- _] | [_ Hf]];
    [exists 1700000000%Z; reflexivity|].
  rewrite lookup_empty in Hf. discriminate.
Qed.

Lemma C10_pdf_drops_last_page_witness :
  let files := sorted_pngs (screenshots two_pages) in
  assembles (screenshots two_pages) = true
  /\ ebook_pdf (_create_pdf two_pages)
     = Some (map (page_of (screenshots two_pages)) (removelast files))
  /\ length (removelast files) = length files - 1.
Proof.
  pose proof (C10_pdf_drops_last_page two_pages two_pages_screenshots_only)
    as (_ & _ & _ & H & _).
  assert (Hasm : assembles (screenshots two_pages) = true)
    by (vm_compute; reflexivity).
  assert (HN : 2 <= length (sorted_pngs (screenshots two_pages)))
    by (vm_compute; lia).
  destruct (H Hasm) as (_ & H2 & _).
  destruct (H2 HN) as (Hpdf & Hlen & _).
  exact (conj Hasm (conj Hpdf Hlen)).
Defined.

Example pdf_of_two_pages :
  sorted_pngs (screenshots two_pages)
  = ["screenshot_1700000000.png"; "screenshot_1700000002.png"]
  /\ ebook_pdf (_create_pdf two_pages) = Some [[page zeros64]]
  /\ ebook_pdf (_create_pdf one_page) = Some [[page zeros64]]
  /\ ebook_pdf (_create_pdf (init ∅ None)) = None.
Proof. vm_compute. repeat split; reflexivity. Qed.

(** The page size: an image within 1920 by 1080 keeps its size, a larger one
    is scaled so that its longer side is 2880; a saved image that cannot be
    opened, or whose scaled height is 0, leaves the directory without a
    PDF. *)
Example target_size_examples :
  float_mul (float_of_int 1920) float_1_5 = float_of_int 2880
  /\ target_size 1440 900 = Some (1440, 900)%Z
  /\ target_size 3024 1964 = Some (2880, 1870)%Z
  /\ target_size 1000 2001 = Some (1439, 2880)%Z
  /\ target_size 3000 1 = None
  /\ target_size 1 3000 = Some (0, 2880)%Z.
Proof. vm_compute. repeat split; reflexivity. Qed.

Example pdf_not_assembled :
  sorted_pngs (screenshots unreadable_saved) = ["screenshot_1700000000.png"]
  /\ assembles (screenshots unreadable_saved) = false
  /\ _create_pdf unreadable_saved = unreadable_saved
  /\ ebook_pdf (_create_pdf unreadable_saved) = None
  /\ sorted_pngs (screenshots sliver_saved) = ["screenshot_1700000000.png"]
  /\ assembles (screenshots sliver_saved) = false
  /\ ebook_pdf (_create_pdf sliver_saved) = None.
Proof. vm_compute. repeat split; reflexivity. Qed.

(** ** A key that cannot be sent *)

Lemma send_right_arrow_false p q :
  send_right_arrow p q = false <-> p = false /\ q = false.
Proof. destruct p, q; simpl; intuition discriminate. Qed.

(** C8, as stated, fails: the key is rejected after the second page was
    saved, the run is Aborted, and the PDF that finalizes it holds the first
    page only, although both pages are persisted. *)
Lemma C8_last_page_is_not_finalized :
  let t := 1700000000%Z in
  let rejected := {| frontmost := Some reader;
                     outcome := Grabbed (t + 2) (page ones64);
                     primary_ok := false; fallback_ok := false |} in
  exists r,
    capture_loop reader [turn (Grabbed t (page zeros64)); rejected]
      (start_run (init ∅ None))
    = Finished Aborted r
    /\ sorted_pngs (screenshots (manager r))
       = ["screenshot_1700000000.png"; "screenshot_1700000002.png"]
    /\ screenshots (manager r) !! "screenshot_1700000000.png"
       = Some (page zeros64)
    /\ screenshots (manager r) !! "screenshot_1700000002.png"
       = Some (page ones64)
    /\ ebook_pdf (manager r) = Some [[page zeros64]].
Proof. eexists. vm_compute. repeat split; reflexivity. Qed.

(** C8, amended.  When a turn reaches the advance step (its capture was read
    as New, or as Duplicate below the limit) and the key is rejected on the
    primary and on the fallback path, the loop is left at once as Aborted:
    whatever the rest of the script, the effects of the run end with the one
    failed send followed by one call of [_create_pdf] on the directory as the
    capture left it.  Every saved page is still present afterwards.  On a
    directory of saved screenshots [_create_pdf] changes no file, and
    [ebook.pdf] then holds the saved pages in the order of their names, one
    to a page, without the one that sorts last when there are two or more;
    when [_create_pdf] does not get as far as [c.save()], [ebook.pdf] is what
    it was before the turn. *)
Theorem C8_failed_advance_aborts
    (target : string) (it : Iteration) (rest : list Iteration) (r : Run) :
  let res := capture_screenshot (manager r) (outcome it) in
  focus_lost target (frontmost it) = false ->
  verdict_of res = Some New
  \/ (verdict_of res = Some Duplicate
      /\ duplicate_count r + 1 < max_duplicates) ->
  primary_ok it = false ->
  fallback_ok it = false ->
  capture_loop target (it :: rest) r
  = Finished Aborted
      {| manager := _create_pdf (snd res);
         duplicate_count :=
           if reached_duplicate (snd res) then duplicate_count r + 1 else 0;
         trace := trace r ++ [Sleep page_load_delay_sec;
                              Capture (outcome it) (fst res);
                              SendRightArrow false; CreatePdf] |}
  /\ (forall timestamp,
        screenshots (_create_pdf (snd res)) !! final_name timestamp
        = screenshots (snd res) !! final_name timestamp)
  /\ (screenshots_only (screenshots (manager r)) ->
      let d := screenshots (snd res) in
      let files := sorted_pngs d in
      screenshots (_create_pdf (snd res)) = d
      /\ ebook_pdf (_create_pdf (snd res))
         = (if assembles d
            then Some (map (page_of d)
                         (if (1 <? length files)%nat then removelast files
                          else files))
            else ebook_pdf (manager r))).
Proof.
  intros res Hfocus Hreach Hp Hf. split; [|split].
  - cbn [capture_loop]. unfold loop_body. rewrite Hfocus.
    cbn [manager log set_manager].
    fold res. destruct res as [shot am] eqn:Eres.
    cbn [fst snd] in *. unfold verdict_of in Hreach. cbn [fst snd] in Hreach.
    assert (Hrej : forall r1,
               advance it r1
               = Stop Aborted (create_pdf (log (SendRightArrow false) r1))).
    { intros r1. apply advance_rejected. unfold delivers.
      rewrite Hp, Hf. reflexivity. }
    destruct (reached_duplicate am) eqn:Eflag.
    + destruct Hreach as [Hnew | [_ Hlt]]; [discriminate|].
      cbn [set_duplicate_count duplicate_count log manager].
      rewrite Hrej. unfold create_pdf, log, set_manager, set_duplicate_count.
      cbn [manager duplicate_count trace].
      rewrite <- !app_assoc.
      destruct (Nat.leb_spec max_duplicates (duplicate_count r + 1));
        [lia | reflexivity].
    + destruct shot as [path|].
      * rewrite Hrej.
        unfold create_pdf, log, set_manager, set_duplicate_count.
        cbn [manager duplicate_count trace].
        rewrite <- !app_assoc. reflexivity.
      * destruct Hreach as [Hnew | [Hdup _]]; discriminate.
  - intros timestamp. apply create_pdf_keeps, final_name_not_temp.
  - intros Hd d files.
    assert (Hd' : screenshots_only d)
      by (apply capture_screenshots_only, Hd).
    rewrite (create_pdf_result (snd res) Hd'). fold d.
    destruct (assembles d); cbn [set_ebook_pdf screenshots ebook_pdf].
    + split; reflexivity.
    + split; [reflexivity|]. apply capture_ebook_pdf.
Qed.

Lemma C8_failed_advance_aborts_witness :
  let it := {| frontmost := Some reader;
               outcome := Grabbed 1700000000 (page zeros64);
               primary_ok := false; fallback_ok := false |} in
  exists r,
    capture_loop reader (it :: ten_repeats) (start_run (init ∅ None))
    = Finished Aborted r
    /\ trace r = [Sleep post_focus_delay_sec; Sleep page_load_delay_sec;
                  Capture (outcome it) (Some "screenshot_1700000000.png");
                  SendRightArrow false; CreatePdf]
    /\ sorted_pngs (screenshots (manager r)) = ["screenshot_1700000000.png"]
    /\ ebook_pdf (manager r) = Some [[page zeros64]].
Proof.
  intros it.
  pose proof (C8_failed_advance_aborts reader it ten_repeats
                (start_run (init ∅ None)) eq_refl
                (or_introl eq_refl) eq_refl eq_refl) as (H & _ & Hpdf).
  destruct (Hpdf (init_screenshots_only None)) as [Hdir Hbook].
  eexists. split; [exact H|]. cbn [manager trace].
  split; [vm_compute; reflexivity|].
  split; [rewrite Hdir; vm_compute; reflexivity|].
  rewrite Hbook. vm_compute. reflexivity.
Defined.

(** * Further properties of the code *)

Import MoreNotions.

(** ** [_phash_distance] as a distance *)

Lemma zip_count_neq_zero a :
  forall b, String.length a = String.length b ->
            zip_count_neq a b = 0 -> a = b.
Proof.
  induction a as [|c a IH]; intros [|d b] Hlen Hz;
    try reflexivity; try discriminate.
  cbn [zip_count_neq] in Hz. injection Hlen as Hlen.
  destruct (Ascii.eqb_spec c d) as [->|Hne]; [|discriminate].
  rewrite (IH b Hlen Hz). reflexivity.
Qed.

Lemma zip_count_neq_bound a : forall b, zip_count_neq a b <= String.length a.
Proof.
  induction a as [|c a IH]; intros [|d b]; cbn [zip_count_neq String.length];
    try lia.
  specialize (IH b). destruct (Ascii.eqb c d); lia.
Qed.

Lemma zip_count_neq_triangle a :
  forall b c,
    String.length a = String.length b ->
    String.length b = String.length c ->
    zip_count_neq a c <= zip_count_neq a b + zip_count_neq b c.
Proof.
  induction a as [|x a IH]; intros [|y b] [|z c] Hab Hbc;
    try discriminate; cbn [zip_count_neq]; try lia.
  injection Hab as Hab. injection Hbc as Hbc.
  specialize (IH b c Hab Hbc).
  destruct (Ascii.eqb_spec x z), (Ascii.eqb_spec x y), (Ascii.eqb_spec y z);
    try lia; congruence.
Qed.

Lemma phash_distance_zip (a b : string) :
  a <> "" -> String.length a = String.length b ->
  _phash_distance (Some a) (Some b) = zip_count_neq a b.
Proof.
  intros Ha Hlen.
  rewrite phash_distance_present, zip_count_neq_hamming by assumption.
  reflexivity.
Qed.

(** X1. Two present fingerprints of the same length are at distance 0
    exactly when they are the same string. *)
Theorem distance_zero_iff_equal (a b : string) :
  a <> "" -> String.length a = String.length b ->
  (_phash_distance (Some a) (Some b) = 0 <-> a = b).
Proof.
  intros Ha Hlen. split.
  - rewrite phash_distance_zip by assumption.
    apply zip_count_neq_zero, Hlen.
  - intros <-. apply phash_distance_diag.
Qed.

Lemma distance_zero_iff_equal_witness :
  _phash_distance (Some three_set) (Some four_set) = 0
  <-> three_set = four_set.
Proof.
  apply distance_zero_iff_equal; [discriminate | reflexivity].
Defined.

(** X2. The distance of [_phash_distance] obeys the triangle inequality on
    present fingerprints of one length. *)
Theorem distance_triangle (a b c : string) :
  a <> "" ->
  String.length a = String.length b ->
  String.length b = String.length c ->
  _phash_distance (Some a) (Some c)
  <= _phash_distance (Some a) (Some b) + _phash_distance (Some b) (Some c).
Proof.
  intros Ha Hab Hbc.
  assert (Hb : b <> "").
  { intros ->. destruct a; [congruence | discriminate]. }
  rewrite !phash_distance_zip by congruence.
  apply zip_count_neq_triangle; assumption.
Qed.

Lemma distance_triangle_witness :
  _phash_distance (Some zeros64) (Some ones64)
  <= _phash_distance (Some zeros64) (Some three_set)
     + _phash_distance (Some three_set) (Some ones64).
Proof.
  apply distance_triangle; [discriminate | reflexivity | reflexivity].
Defined.

(** X3. The distance never exceeds the length of either operand, so between
    two 64-symbol fingerprints it is at most 64. *)
Theorem distance_at_most_length (a b : string) :
  _phash_distance (Some a) (Some b) <= String.length a
  /\ _phash_distance (Some a) (Some b) <= String.length b.
Proof.
  assert (H : forall x y,
             _phash_distance (Some x) (Some y) <= String.length x).
  { intros x y. unfold _phash_distance.
    destruct (negb (truthy (Some x)) || negb (truthy (Some y))); [lia|].
    destruct (negb (Nat.eqb (String.length x) (String.length y))); [lia|].
    apply zip_count_neq_bound. }
  split; [apply H|]. rewrite phash_distance_comm. apply H.
Qed.

(** ** More on [capture_screenshot] *)

Lemma classify_baseline am am' f :
  last_image_hash am' = last_image_hash am -> classify am' f = classify am f.
Proof. unfold classify. intros ->. reflexivity. Qed.

(** X4. A frame that has a fingerprint and is grabbed twice in a row is a
    Duplicate the second time, whatever the first verdict was: nothing is
    returned, the baseline stays, and the directory is left as it was. *)
Theorem same_frame_again_is_duplicate
    (am : AppManager) (t1 t2 : Z) (f : Frame) :
  truthy (frame_phash f) = true ->
  let am1 := snd (capture_screenshot am (Grabbed t1 f)) in
  let res := capture_screenshot am1 (Grabbed t2 f) in
  verdict_of res = Some Duplicate
  /\ fst res = None
  /\ last_image_hash (snd res) = last_image_hash am1
  /\ (screenshots am1 !! tmp_name t2 = None ->
      screenshots (snd res) = screenshots am1).
Proof.
  intros Hf am1 res.
  assert (Hdup : classify am1 f = Duplicate).
  { subst am1. destruct (classify am f) eqn:Hc.
    - rewrite (classify_capture_new am t1 f Hc). cbn [snd].
      unfold classify. cbn [saved last_image_hash]. rewrite Hf.
      rewrite phash_distance_diag, Hf. reflexivity.
    - rewrite (classify_capture_duplicate am t1 f Hc). cbn [snd].
      rewrite <- Hc. apply classify_baseline. reflexivity. }
  subst res. rewrite verdict_grabbed, Hdup.
  rewrite (classify_capture_duplicate am1 t2 f Hdup). cbn [fst snd].
  repeat split. apply skipped_screenshots.
Qed.

Lemma same_frame_again_is_duplicate_witness :
  let am1 := snd (capture_screenshot (init ∅ None)
                    (Grabbed 1700000000 (page ones64))) in
  let res := capture_screenshot am1 (Grabbed 1700000002 (page ones64)) in
  verdict_of res = Some Duplicate /\ fst res = None.
Proof.
  pose proof (same_frame_again_is_duplicate (init ∅ None) 1700000000
                1700000002 (page ones64) eq_refl) as (H1 & H2 & _).
  exact (conj H1 H2).
Defined.

(** X5. Once a frame without a fingerprint has been saved, the baseline is
    the MD5 digest of its file, and every frame whose fingerprint has another
    length than that digest is classified Duplicate, however different the
    page. *)
Theorem digest_baseline_rejects_fingerprints
    (am : AppManager) (t0 : Z) (f0 f : Frame) (p : string) :
  truthy (frame_phash f0) = false ->
  frame_md5 f0 <> "" ->
  frame_phash f = Some p ->
  p <> "" ->
  String.length p <> String.length (frame_md5 f0) ->
  let am1 := snd (capture_screenshot am (Grabbed t0 f0)) in
  fst (capture_screenshot am (Grabbed t0 f0)) = Some (final_name t0)
  /\ last_image_hash am1 = Some (frame_md5 f0)
  /\ _phash_distance (frame_phash f) (last_image_hash am1) = 0
  /\ classify am1 f = Duplicate.
Proof.
  intros H0 Hmd5 Hp Hne Hlen am1. subst am1.
  rewrite (capture_absent am t0 f0 (or_introl H0)). cbn [fst snd].
  assert (Hbase : last_image_hash (saved t0 f0 am) = Some (frame_md5 f0)).
  { cbn [saved last_image_hash]. rewrite H0. reflexivity. }
  assert (Hd : _phash_distance (Some p) (Some (frame_md5 f0)) = 0)
    by (apply phash_distance_mismatch, Hlen).
  split; [reflexivity|]. split; [exact Hbase|].
  rewrite Hbase, Hp. split; [exact Hd|].
  unfold classify. rewrite Hbase, Hp, Hd.
  apply truthy_Some in Hne. apply truthy_Some in Hmd5.
  rewrite Hne, Hmd5. reflexivity.
Qed.

Lemma digest_baseline_rejects_fingerprints_witness :
  let am1 := snd (capture_screenshot (init ∅ None)
                    (Grabbed 1700000000 unreadable)) in
  last_image_hash am1 = Some md5_digest
  /\ classify am1 (page ones64) = Duplicate
  /\ classify am1 (page zeros64) = Duplicate.
Proof.
  pose proof (fun f p Hp Hne Hlen =>
                digest_baseline_rejects_fingerprints (init ∅ None)
                  1700000000 unreadable f p eq_refl
                  ltac:(discriminate) Hp Hne Hlen) as H.
  destruct (H (page ones64) ones64 eq_refl ltac:(discriminate)
              ltac:(vm_compute; lia)) as (_ & H1 & _ & H2).
  destruct (H (page zeros64) zeros64 eq_refl ltac:(discriminate)
              ltac:(vm_compute; lia)) as (_ & _ & _ & H3).
  exact (conj H1 (conj H2 H3)).
Defined.

(** X6. Whatever the outcome, [capture_screenshot] touches no file other
    than the temporary and the final file of its own capture time, and never
    the PDF. *)
Theorem capture_touches_own_files_only
    (am : AppManager) (o : CaptureOutcome) (name : string) :
  (forall timestamp f,
     o = Grabbed timestamp f ->
     name <> tmp_name timestamp /\ name <> final_name timestamp) ->
  screenshots (snd (capture_screenshot am o)) !! name
  = screenshots am !! name
  /\ ebook_pdf (snd (capture_screenshot am o)) = ebook_pdf am.
Proof.
  intros Hname. destruct o as [ | | | | | |timestamp f];
    try (split; reflexivity).
  destruct (Hname timestamp f eq_refl) as [Htmp Hfinal].
  rewrite capture_grabbed_cases.
  destruct (truthy (last_image_hash am) && truthy (frame_phash f)
            && (_phash_distance (frame_phash f) (last_image_hash am)
                <=? threshold)%nat);
    cbn [snd saved skipped screenshots ebook_pdf]; (split; [|reflexivity]).
  - rewrite lookup_delete_ne, lookup_insert_ne by congruence. reflexivity.
  - rewrite lookup_insert_ne, lookup_delete_ne, lookup_insert_ne
      by congruence. reflexivity.
Qed.

Lemma capture_touches_own_files_only_witness :
  let am' := snd (capture_screenshot one_page
                    (Grabbed 1700000002 (page ones64))) in
  screenshots am' !! final_name 1700000000
  = screenshots one_page !! final_name 1700000000.
Proof.
  apply (capture_touches_own_files_only one_page
           (Grabbed 1700000002 (page ones64)) (final_name 1700000000)).
  intros timestamp f E. injection E as <- <-.
  split; vm_compute; discriminate.
Defined.

(** ** More on the capture loop *)

(** What one turn does to the counter and to the effects. *)
Lemma loop_body_shape target it r :
  match loop_body target it r with
  | Continue r' =>
      (duplicate_count r < max_duplicates ->
       duplicate_count r' < max_duplicates)
      /\ exists evs, trace r' = (trace r ++ evs)%list /\ CreatePdf ∉ evs
  | Stop t r' =>
      (duplicate_count r < max_duplicates ->
       duplicate_count r' <= max_duplicates
       /\ (t = Aborted -> duplicate_count r' < max_duplicates))
      /\ exists evs,
           trace r' = (trace r ++ evs ++ [CreatePdf])%list /\ CreatePdf ∉ evs
  end.
Proof.
  assert (Hno : forall evs : list Event,
             Forall (fun e => e <> CreatePdf) evs -> CreatePdf ∉ evs).
  { intros evs H Hin. rewrite Forall_forall in H. exact (H _ Hin eq_refl). }
  unfold loop_body, advance, create_pdf, log, set_manager,
    set_duplicate_count.
  destruct (focus_lost target (frontmost it)).
  { cbn [duplicate_count trace].
    split; [intros Hr; split; [lia | discriminate]|].
    exists []. split; [reflexivity | apply Hno; constructor]. }
  cbn [manager].
  destruct (capture_screenshot (manager r) (outcome it)) as [shot am].
  cbn [manager duplicate_count trace reached_duplicate].
  destruct (reached_duplicate am).
  - destruct (Nat.leb_spec max_duplicates (duplicate_count r + 1))
      as [Hge|Hlt].
    + cbn [duplicate_count trace]. rewrite <- !app_assoc. cbn [app].
      split; [intros Hr; split; [lia | discriminate]|].
      eexists [_; _]. split; [reflexivity|].
      apply Hno. repeat constructor; discriminate.
    + destruct (send_right_arrow (primary_ok it) (fallback_ok it));
        cbn [negb duplicate_count trace]; rewrite <- !app_assoc; cbn [app].
      * split; [intros _; exact Hlt|].
        eexists. split; [reflexivity|].
        apply Hno. repeat constructor; discriminate.
      * split; [intros _; split; [lia | intros _; exact Hlt]|].
        eexists [_; _; _]. split; [reflexivity|].
        apply Hno. repeat constructor; discriminate.
  - destruct shot as [path|].
    + destruct (send_right_arrow (primary_ok it) (fallback_ok it));
        cbn [negb duplicate_count trace]; rewrite <- !app_assoc; cbn [app].
      * split; [intros _; unfold max_duplicates; lia|].
        eexists. split; [reflexivity|].
        apply Hno. repeat constructor; discriminate.
      * split; [intros _; unfold max_duplicates; split; [lia | intros _; lia]|].
        eexists [_; _; _]. split; [reflexivity|].
        apply Hno. repeat constructor; discriminate.
    + cbn [duplicate_count trace]. rewrite <- !app_assoc. cbn [app].
      split; [trivial|].
      eexists. split; [reflexivity|].
      apply Hno. repeat constructor; discriminate.
Qed.

(** X7. At every point of a run the counter is below [max_duplicates]; it
    equals at most [max_duplicates] when the run is Completed and is below it
    when the run is Aborted. *)
Theorem counter_stays_below_limit
    (target : string) (script : list Iteration) (am : AppManager) :
  match capture_loop target script (start_run am) with
  | Running r => duplicate_count r < max_duplicates
  | Finished Completed r => duplicate_count r <= max_duplicates
  | Finished Aborted r => duplicate_count r < max_duplicates
  end.
Proof.
  assert (H : forall r, duplicate_count r < max_duplicates ->
            match capture_loop target script r with
            | Running r' => duplicate_count r' < max_duplicates
            | Finished Completed r' => duplicate_count r' <= max_duplicates
            | Finished Aborted r' => duplicate_count r' < max_duplicates
            end).
  { induction script as [|it rest IH]; intros r Hr; [exact Hr|].
    cbn [capture_loop].
    pose proof (loop_body_shape target it r) as Hs.
    destruct (loop_body target it r) as [r'|t r'].
    - apply IH. apply Hs, Hr.
    - destruct Hs as [Hc _]. destruct (Hc Hr) as [Hle Hab].
      destruct t; [exact Hle | apply Hab; reflexivity]. }
  apply H. unfold max_duplicates. cbn. lia.
Qed.

(** X8. While a run goes on no PDF has been built; when it ends, by whichever
    [break], building the PDF is its last effect and happens once. *)
Theorem pdf_is_built_once_at_the_end
    (target : string) (script : list Iteration) (am : AppManager) :
  match capture_loop target script (start_run am) with
  | Running r => CreatePdf ∉ trace r
  | Finished _ r =>
      exists evs, trace r = (evs ++ [CreatePdf])%list /\ CreatePdf ∉ evs
  end.
Proof.
  assert (H : forall r, CreatePdf ∉ trace r ->
            match capture_loop target script r with
            | Running r' => CreatePdf ∉ trace r'
            | Finished _ r' =>
                exists evs,
                  trace r' = (evs ++ [CreatePdf])%list /\ CreatePdf ∉ evs
            end).
  { induction script as [|it rest IH]; intros r Hr; [exact Hr|].
    cbn [capture_loop].
    pose proof (loop_body_shape target it r) as Hs.
    destruct (loop_body target it r) as [r'|t r'].
    - apply IH. destruct Hs as [_ (evs & -> & Hevs)].
      intros Hin. apply elem_of_app in Hin as [Hin|Hin]; tauto.
    - destruct Hs as [_ (evs & -> & Hevs)].
      exists (trace r ++ evs)%list. split; [apply app_assoc|].
      intros Hin. apply elem_of_app in Hin as [Hin|Hin]; tauto. }
  apply H. cbn. intros Hin.
  apply list_elem_of_singleton in Hin. discriminate.
Qed.

(** ** The directory along a run *)

Lemma underscores_app s1 s2 :
  underscores (s1 ++ s2) = underscores s1 + underscores s2.
Proof.
  induction s1 as [|c s1 IH]; [reflexivity|].
  change (String c s1 ++ s2) with (String c (s1 ++ s2)).
  cbn [underscores]. rewrite IH. lia.
Qed.

Lemma digit_char_not_underscore n :
  Ascii.eqb (digit_char (n mod 10)) "_" = false.
Proof.
  assert (Hk : Z.to_nat (n mod 10) < 10).
  { assert (0 <= n mod 10 < 10)%Z by (apply Z.mod_pos_bound; lia). lia. }
  apply Ascii.eqb_neq. intros H.
  apply (f_equal nat_of_ascii) in H. unfold digit_char in H.
  rewrite nat_ascii_embedding in H by (clear H; lia).
  change (nat_of_ascii "_") with 95 in H. lia.
Qed.

Lemma underscores_str_digits fuel :
  forall n acc, underscores (str_digits fuel n acc) = underscores acc.
Proof.
  induction fuel as [|fuel IH]; intros n acc; cbn [str_digits].
  - cbn [underscores]. rewrite digit_char_not_underscore. reflexivity.
  - destruct (n / 10 =? 0)%Z.
    + cbn [underscores]. rewrite digit_char_not_underscore. reflexivity.
    + rewrite IH. cbn [underscores].
      rewrite digit_char_not_underscore. reflexivity.
Qed.

Lemma underscores_str_int n : underscores (str_int n) = 0.
Proof.
  unfold str_int. destruct (n <? 0)%Z.
  - cbn [underscores]. rewrite underscores_str_digits. reflexivity.
  - apply underscores_str_digits.
Qed.

Lemma final_name_not_tmp t t' : final_name t <> tmp_name t'.
Proof.
  intros H. apply (f_equal underscores) in H.
  unfold final_name, tmp_name in H.
  rewrite !underscores_app, !underscores_str_int in H.
  cbn in H. lia.
Qed.

Lemma create_pdf_screenshots am :
  screenshots_only (screenshots am) ->
  screenshots (_create_pdf am) = screenshots am.
Proof.
  intros Hd. rewrite (create_pdf_result am Hd).
  destruct (assembles (screenshots am)); reflexivity.
Qed.

(** What one turn of the loop does to the manager and which captures it
    records. *)
Lemma loop_body_manager target it r :
  let s := run_of_step (loop_body target it r) in
  let res := capture_screenshot (manager r) (outcome it) in
  (manager s = _create_pdf (manager r)
   /\ trace s = (trace r ++ [CreatePdf])%list)
  \/ (exists evs,
        (manager s = snd res \/ manager s = _create_pdf (snd res))
        /\ trace s = (trace r ++ Sleep page_load_delay_sec
                              :: Capture (outcome it) (fst res) :: evs)%list
        /\ forall o p, Capture o p ∉ evs).
Proof.
  assert (Hno : forall evs : list Event,
             Forall (fun e => forall o p, e <> Capture o p) evs ->
             forall o p, Capture o p ∉ evs).
  { intros evs H o p Hin. rewrite Forall_forall in H.
    exact (H _ Hin o p eq_refl). }
  unfold loop_body, advance, create_pdf, log, set_manager,
    set_duplicate_count.
  destruct (focus_lost target (frontmost it)).
  { left. split; reflexivity. }
  right. cbn [manager].
  destruct (capture_screenshot (manager r) (outcome it)) as [shot am].
  cbn [manager duplicate_count trace reached_duplicate fst snd].
  destruct (reached_duplicate am).
  - destruct (max_duplicates <=? duplicate_count r + 1)%nat.
    + cbn [run_of_step manager trace]. rewrite <- !app_assoc. cbn [app].
      eexists. split; [right; reflexivity|]. split; [reflexivity|].
      apply Hno. repeat constructor; discriminate.
    + destruct (send_right_arrow (primary_ok it) (fallback_ok it));
        cbn [negb run_of_step manager trace]; rewrite <- !app_assoc;
        cbn [app].
      * eexists. split; [left; reflexivity|]. split; [reflexivity|].
        apply Hno. repeat constructor; discriminate.
      * eexists. split; [right; reflexivity|]. split; [reflexivity|].
        apply Hno. repeat constructor; discriminate.
  - destruct shot as [path|].
    + destruct (send_right_arrow (primary_ok it) (fallback_ok it));
        cbn [negb run_of_step manager trace]; rewrite <- !app_assoc;
        cbn [app].
      * eexists. split; [left; reflexivity|]. split; [reflexivity|].
        apply Hno. repeat constructor; discriminate.
      * eexists. split; [right; reflexivity|]. split; [reflexivity|].
        apply Hno. repeat constructor; discriminate.
    + cbn [run_of_step manager trace]. rewrite <- !app_assoc. cbn [app].
      eexists. split; [left; reflexivity|]. split; [reflexivity|].
      apply Hno. repeat constructor; discriminate.
Qed.

(** A property of the run state that every turn keeps holds at the end of
    every run. *)
Lemma capture_loop_invariant (P : Run -> Prop) target :
  (forall it r, P r -> P (run_of_step (loop_body target it r))) ->
  forall script r, P r -> P (run_of (capture_loop target script r)).
Proof.
  intros Hstep script. induction script as [|it rest IH]; intros r Hr.
  - exact Hr.
  - cbn [capture_loop]. specialize (Hstep it r Hr).
    destruct (loop_body target it r) as [r'|t r'].
    + apply IH. exact Hstep.
    + exact Hstep.
Qed.

(** X9. A run that starts on a directory of saved screenshots ends on one:
    whatever the window server answers and however the run ends, no
    [_tmp.png] file of a capture and no [temp_i.png] file of the PDF builder
    is left in [screenshots_dir]. *)
Theorem run_leaves_saved_screenshots_only
    (target : string) (script : list Iteration) (am : AppManager) :
  screenshots_only (screenshots am) ->
  let d := screenshots (manager (run_of (capture_loop target script
                                           (start_run am)))) in
  screenshots_only d
  /\ (forall timestamp, d !! tmp_name timestamp = None)
  /\ (forall i, d !! temp_name i = None).
Proof.
  intros Hd d.
  assert (H : screenshots_only d).
  { subst d.
    apply (capture_loop_invariant
             (fun r => screenshots_only (screenshots (manager r)))).
    - intros it r Hr.
      destruct (loop_body_manager target it r)
        as [[-> _]|(evs & [->| ->] & _)].
      + rewrite create_pdf_screenshots; assumption.
      + apply capture_screenshots_only, Hr.
      + rewrite create_pdf_screenshots;
          apply capture_screenshots_only, Hr.
    - exact Hd. }
  split; [exact H|]. split.
  - intros t. destruct (d !! tmp_name t) as [f|] eqn:E; [|reflexivity].
    destruct (H (tmp_name t)) as [t' Ht']; [eauto|].
    symmetry in Ht'. destruct (final_name_not_tmp _ _ Ht').
  - intros i. apply screenshots_only_no_temp, H.
Qed.

Lemma run_leaves_saved_screenshots_only_witness :
  let d := screenshots (manager (run_of (capture_loop reader ten_repeats
                                           (start_run one_page)))) in
  screenshots_only d
  /\ (forall timestamp, d !! tmp_name timestamp = None)
  /\ (forall i, d !! temp_name i = None).
Proof.
  apply run_leaves_saved_screenshots_only.
  apply (capture_screenshots_only (init ∅ None)).
  apply init_screenshots_only.
Defined.

(** Saved screenshots survive the PDF builder and later captures. *)
Lemma create_pdf_keeps_saved am timestamp :
  is_Some (screenshots am !! final_name timestamp) ->
  is_Some (screenshots (_create_pdf am) !! final_name timestamp).
Proof.
  intros H. rewrite create_pdf_keeps; [exact H|].
  intros i. apply final_name_not_temp.
Qed.

Lemma capture_keeps_saved am o timestamp :
  is_Some (screenshots am !! final_name timestamp) ->
  is_Some (screenshots (snd (capture_screenshot am o))
             !! final_name timestamp).
Proof.
  intros H. destruct o as [| | | | | |t' f]; try exact H.
  rewrite capture_grabbed_cases.
  destruct (_ && _ && _); cbn [snd skipped saved screenshots].
  - rewrite lookup_delete_ne, lookup_insert_ne
      by (intros E; exact (final_name_not_tmp _ _ (eq_sym E))).
    exact H.
  - destruct (decide (final_name t' = final_name timestamp)) as [->|Hne].
    + rewrite lookup_insert_eq. eauto.
    + rewrite lookup_insert_ne by exact Hne.
      rewrite lookup_delete_ne, lookup_insert_ne
        by (intros E; exact (final_name_not_tmp _ _ (eq_sym E))).
      exact H.
Qed.

Lemma capture_returns_saved am o path :
  fst (capture_screenshot am o) = Some path ->
  exists timestamp,
    path = final_name timestamp
    /\ is_Some (screenshots (snd (capture_screenshot am o))
                  !! final_name timestamp).
Proof.
  destruct o as [| | | | | |t' f]; try discriminate.
  rewrite capture_grabbed_cases.
  destruct (_ && _ && _); cbn [fst snd saved screenshots]; [discriminate|].
  intros [= <-]. exists t'. split; [reflexivity|].
  rewrite lookup_insert_eq. eauto.
Qed.

Lemma loop_body_keeps_saved target it r timestamp :
  is_Some (screenshots (manager r) !! final_name timestamp) ->
  is_Some (screenshots (manager (run_of_step (loop_body target it r)))
             !! final_name timestamp).
Proof.
  intros H.
  destruct (loop_body_manager target it r) as [[-> _]|(evs & [->| ->] & _)].
  - apply create_pdf_keeps_saved, H.
  - apply capture_keeps_saved, H.
  - apply create_pdf_keeps_saved, capture_keeps_saved, H.
Qed.

(** X10. A page the loop reported as saved stays: at any later point of the
    run, and after the PDF was built, the path returned by
    [capture_screenshot] still names a file of [screenshots_dir]. *)
Theorem saved_pages_are_kept
    (target : string) (script : list Iteration) (am : AppManager)
    (o : CaptureOutcome) (path : string) :
  let r := run_of (capture_loop target script (start_run am)) in
  Capture o (Some path) ∈ trace r ->
  is_Some (screenshots (manager r) !! path)
  /\ exists timestamp, path = final_name timestamp.
Proof.
  intros r.
  set (P := fun r : Run =>
              forall o path, Capture o (Some path) ∈ trace r ->
                exists timestamp,
                  path = final_name timestamp
                  /\ is_Some (screenshots (manager r)
                                !! final_name timestamp)).
  assert (HP : P r).
  { subst r. apply (capture_loop_invariant P).
    - clear o path. intros it r Hr o path Hin.
      pose proof (loop_body_keeps_saved target it r) as Hkeep.
      destruct (loop_body_manager target it r)
        as [[Hm Ht]|(evs & Hm & Ht & Hevs)]; rewrite Ht in Hin.
      + apply elem_of_app in Hin as [Hin|Hin].
        * destruct (Hr _ _ Hin) as (t & -> & Hs). eauto.
        * apply list_elem_of_singleton in Hin. discriminate.
      + apply elem_of_app in Hin as [Hin|Hin].
        * destruct (Hr _ _ Hin) as (t & -> & Hs). eauto.
        * apply elem_of_cons in Hin as [Hin|Hin]; [discriminate|].
          apply elem_of_cons in Hin as [Hin|Hin];
            [|destruct (Hevs _ _ Hin)].
          injection Hin as _ Hp. symmetry in Hp.
          apply capture_returns_saved in Hp as (t & -> & Hs).
          exists t. split; [reflexivity|].
          destruct Hm as [-> | ->]; [exact Hs|].
          apply create_pdf_keeps_saved, Hs.
    - intros o' path' Hin. cbn in Hin.
      apply list_elem_of_singleton in Hin. discriminate. }
  intros Hin. destruct (HP o path Hin) as (t & -> & Hs). eauto.
Qed.

Lemma saved_pages_are_kept_witness :
  let r := run_of (capture_loop reader
                     (turn (Grabbed 1700000000 (page zeros64)) :: ten_repeats)
                     (start_run (init ∅ None))) in
  is_Some (screenshots (manager r) !! "screenshot_1700000000.png")
  /\ exists timestamp, "screenshot_1700000000.png" = final_name timestamp.
Proof.
  apply (saved_pages_are_kept reader
           (turn (Grabbed 1700000000 (page zeros64)) :: ten_repeats)
           (init ∅ None) (Grabbed 1700000000 (page zeros64))).
  vm_compute. do 2 apply list_elem_of_further. apply list_elem_of_here.
Defined.

(** X11. A run takes no saved page away: a screenshot that is in
    [screenshots_dir] when a run starts, left there by an earlier run of the
    same program, is still there when the run is over. *)
Theorem earlier_pages_are_kept
    (target : string) (script : list Iteration) (am : AppManager)
    (timestamp : Z) :
  is_Some (screenshots am !! final_name timestamp) ->
  is_Some (screenshots
             (manager (run_of (capture_loop target script (start_run am))))
             !! final_name timestamp).
Proof.
  intros H.
  apply (capture_loop_invariant
           (fun r => is_Some (screenshots (manager r)
                                !! final_name timestamp))).
  - intros it r. apply loop_body_keeps_saved.
  - exact H.
Qed.

Lemma earlier_pages_are_kept_witness :
  is_Some (screenshots
             (manager (run_of (capture_loop reader ten_repeats
                                 (start_run one_page))))
             !! final_name 1700000000).
Proof.
  apply earlier_pages_are_kept. vm_compute. eauto.
Defined.

(** X12. With the flag [reached_duplicate] clear, captures that produce no
    image are retried for as long as they fail and the target stays in
    front: the loop is not left, no key is sent, nothing is counted, and the
    manager stays as it was. *)
Theorem failed_captures_are_retried
    (target : string) (script : list Iteration) (am : AppManager) :
  reached_duplicate am = false ->
  Forall (fun it => focus_lost target (frontmost it) = false
                    /\ fails (outcome it) = true) script ->
  capture_loop target script (start_run am)
  = Running {| manager := am; duplicate_count := 0;
               trace := Sleep post_focus_delay_sec
                        :: flat_map retry_events script |}.
Proof.
  intros Hflag Hall.
  assert (H : forall r,
             reached_duplicate (manager r) = false ->
             capture_loop target script r
             = Running {| manager := manager r;
                          duplicate_count := duplicate_count r;
                          trace := (trace r
                                    ++ flat_map retry_events script)%list |}).
  { induction Hall as [|it rest [Hfront Hfail] _ IH]; intros r Hr.
    - cbn [capture_loop flat_map]. rewrite app_nil_r. destruct r; reflexivity.
    - cbn [capture_loop flat_map].
      assert (Hcap : capture_screenshot (manager r) (outcome it)
                     = (None, manager r)).
      { destruct (outcome it); try discriminate Hfail; cbn [capture_screenshot];
          try reflexivity;
          f_equal; destruct (manager r); cbn in Hr; subst; reflexivity. }
      unfold loop_body. rewrite Hfront.
      unfold log, set_manager. cbn [manager]. rewrite Hcap.
      cbn [manager reached_duplicate trace duplicate_count]. rewrite Hr.
      rewrite IH by exact Hr.
      cbn [manager duplicate_count trace]. unfold retry_events.
      rewrite <- !app_assoc. reflexivity. }
  apply (H (start_run am)). exact Hflag.
Qed.

Lemma failed_captures_are_retried_witness :
  capture_loop reader [turn ImageNone; turn NoVisibleWindow; turn Raised]
    (start_run one_page)
  = Running {| manager := one_page; duplicate_count := 0;
               trace := Sleep post_focus_delay_sec
                        :: flat_map retry_events
                             [turn ImageNone; turn NoVisibleWindow;
                              turn Raised] |}.
Proof.
  apply failed_captures_are_retried.
  - reflexivity.
  - repeat constructor.
Defined.

(** X13. On a directory of saved screenshots [_create_pdf] neither leaves a
    file behind nor takes one away, so that building the PDF a second time
    gives the same PDF; with no file at all it leaves [ebook.pdf] as it
    was. *)
Theorem create_pdf_can_be_repeated (am : AppManager) :
  screenshots_only (screenshots am) ->
  screenshots (_create_pdf am) = screenshots am
  /\ _create_pdf (_create_pdf am) = _create_pdf am
  /\ (screenshots am = ∅ -> _create_pdf am = am).
Proof.
  intros Hd. pose proof (create_pdf_screenshots am Hd) as Hs.
  split; [exact Hs|]. split.
  - rewrite (create_pdf_result (_create_pdf am)) by (rewrite Hs; exact Hd).
    rewrite Hs. rewrite (create_pdf_result am Hd).
    destruct (assembles (screenshots am)); reflexivity.
  - intros He. rewrite (create_pdf_result am Hd), He.
    unfold assembles, page_size, pdf_files. rewrite sorted_pngs_empty.
    reflexivity.
Qed.

Lemma create_pdf_can_be_repeated_witness :
  screenshots (_create_pdf two_pages) = screenshots two_pages
  /\ _create_pdf (_create_pdf two_pages) = _create_pdf two_pages
  /\ (screenshots two_pages = ∅ -> _create_pdf two_pages = two_pages).
Proof.
  apply create_pdf_can_be_repeated.
  apply (capture_screenshots_only one_page).
  apply (capture_screenshots_only (init ∅ None)).
  apply init_screenshots_only.
Defined.

(** The manager a turn hands on: the one of the capture when the loop goes
    on, the one of [_create_pdf] when it is left. *)
Lemma loop_body_cases target it r :
  let am := snd (capture_screenshot (manager r) (outcome it)) in
  match loop_body target it r with
  | Continue r' => manager r' = am
  | Stop _ r' =>
      manager r' = _create_pdf (manager r) \/ manager r' = _create_pdf am
  end.
Proof.
  unfold loop_body, advance, create_pdf, log, set_manager,
    set_duplicate_count.
  destruct (focus_lost target (frontmost it)); [left; reflexivity|].
  cbn [manager].
  destruct (capture_screenshot (manager r) (outcome it)) as [shot am].
  cbn [manager duplicate_count trace reached_duplicate fst snd].
  destruct (reached_duplicate am).
  - destruct (max_duplicates <=? duplicate_count r + 1)%nat;
      [right; reflexivity|].
    destruct (send_right_arrow (primary_ok it) (fallback_ok it));
      cbn [negb manager]; [reflexivity | right; reflexivity].
  - destruct shot as [path|]; [|reflexivity].
    destruct (send_right_arrow (primary_ok it) (fallback_ok it));
      cbn [negb manager]; [reflexivity | right; reflexivity].
Qed.

(** X14. The PDF of a run that has ended.  When [_create_pdf] gets as far as
    [c.save()] on the directory the run leaves, [ebook.pdf] holds the saved
    screenshots of [screenshots_dir] in the order of their names, one to a
    page, without the last of them when there are two or more.  Otherwise,
    when the directory is empty or holds an image that [_create_pdf] cannot
    open or resize, [ebook.pdf] is left as it was before the run. *)
Theorem finished_run_pdf
    (target : string) (script : list Iteration) (am : AppManager)
    (t : Terminal) (r : Run) :
  screenshots_only (screenshots am) ->
  capture_loop target script (start_run am) = Finished t r ->
  let d := screenshots (manager r) in
  let files := sorted_pngs d in
  ebook_pdf (manager r)
  = if assembles d
    then Some (map (page_of d)
                 (if (1 <? length files)%nat then removelast files
                  else files))
    else ebook_pdf am.
Proof.
  intros Hd.
  assert (H : forall r0,
             screenshots_only (screenshots (manager r0)) ->
             ebook_pdf (manager r0) = ebook_pdf am ->
             capture_loop target script r0 = Finished t r ->
             let d := screenshots (manager r) in
             ebook_pdf (manager r)
             = if assembles d then Some (map (page_of d) (pdf_files d))
               else ebook_pdf am).
  { induction script as [|it rest IH]; intros r0 Hs Hp; [discriminate|].
    cbn [capture_loop]. pose proof (loop_body_cases target it r0) as Hc.
    cbn zeta in Hc.
    pose proof (capture_screenshots_only (manager r0) (outcome it) Hs) as Hs'.
    pose proof (capture_ebook_pdf (manager r0) (outcome it)) as Hp'.
    destruct (loop_body target it r0) as [r1|t1 r1].
    - apply IH; rewrite Hc; [exact Hs' | congruence].
    - intros [= -> ->]. cbn zeta.
      assert (Hfin : forall am0,
                 screenshots_only (screenshots am0) ->
                 ebook_pdf am0 = ebook_pdf am ->
                 ebook_pdf (_create_pdf am0)
                 = if assembles (screenshots (_create_pdf am0))
                   then Some (map (page_of (screenshots (_create_pdf am0)))
                                (pdf_files (screenshots (_create_pdf am0))))
                   else ebook_pdf am).
      { intros am0 Hs0 Hp0. rewrite (create_pdf_screenshots am0 Hs0).
        rewrite (create_pdf_result am0 Hs0).
        destruct (assembles (screenshots am0)); [reflexivity | exact Hp0]. }
      destruct Hc as [-> | ->]; apply Hfin;
        first [exact Hs | exact Hs' | exact Hp | rewrite Hp'; exact Hp]. }
  intros Hrun. exact (H (start_run am) Hd eq_refl Hrun).
Qed.

Lemma finished_run_pdf_witness :
  exists r,
    capture_loop reader
      [{| frontmost := Some "com.example.other"; outcome := ImageNone;
          primary_ok := true; fallback_ok := true |}]
      (start_run two_pages)
    = Finished Completed r
    /\ assembles (screenshots (manager r)) = true
    /\ ebook_pdf (manager r) = Some [[page zeros64]].
Proof.
  eexists. split; [vm_compute; reflexivity|].
  split; [vm_compute; reflexivity|].
  rewrite (finished_run_pdf reader
             [{| frontmost := Some "com.example.other"; outcome := ImageNone;
                 primary_ok := true; fallback_ok := true |}]
             two_pages Completed _
             two_pages_screenshots_only ltac:(vm_compute; reflexivity)).
  vm_compute. reflexivity.
Defined.

(** ** Fingerprints under the distance *)

Section FingerprintDistance.
Import PHash.
Context {float : PyFloat} {pillow : Pillow}.

Lemma calculate_phash_shape image :
  exists rest,
    _calculate_phash image = Some (String "0" rest)
    /\ String.length rest = 63
    /\ forall i c, String.get i rest = Some c -> c = "0"%char \/ c = "1"%char.
Proof.
  rewrite calculate_phash_bits.
  set (pixels := getdata (resize_bicubic (32, 32) (convert_L image))).
  assert (Hb : block = (0, 0) :: tl block) by reflexivity.
  rewrite Hb. cbn [map string_of_list_ascii fst snd].
  eexists. split; [reflexivity|]. split.
  - rewrite length_string_of_list_ascii, length_map. reflexivity.
  - intros i c. rewrite get_string_of_list_ascii, list_lookup_fmap.
    destruct (tl block !! i) as [p|]; [|discriminate].
    cbn [fmap option_fmap option_map]. intros [= <-]. unfold bit.
    destruct (_ && _); [auto|]. destruct (fgt _ _); auto.
Qed.

(** X15. Fingerprints that [_calculate_phash] computed are never taken for
    missing ones by [_phash_distance] and always have one length, so that
    their distance is the number of positions at which they differ; it is 0
    only for equal fingerprints and never more than 63, the first symbol
    being [0] in both.  Every symbol is [0] or [1]. *)
Theorem fingerprints_compare_by_position (image1 image2 : Image) :
  exists a b,
    _calculate_phash image1 = Some a
    /\ _calculate_phash image2 = Some b
    /\ truthy (Some a) = true
    /\ String.length a = String.length b
    /\ _phash_distance (Some a) (Some b) = hamming a b
    /\ _phash_distance (Some a) (Some b) <= 63
    /\ (_phash_distance (Some a) (Some b) = 0 <-> a = b)
    /\ (forall i c, String.get i a = Some c -> c = "0"%char \/ c = "1"%char).
Proof.
  destruct (calculate_phash_shape image1) as (ra & Ha & Hla & Hsa).
  destruct (calculate_phash_shape image2) as (rb & Hb & Hlb & Hsb).
  exists (String "0" ra), (String "0" rb).
  assert (Hne : String "0" ra <> "") by discriminate.
  assert (Hlen : String.length (String "0" ra) = String.length (String "0" rb))
    by (cbn [String.length]; congruence).
  split; [exact Ha|]. split; [exact Hb|]. split; [reflexivity|].
  split; [exact Hlen|].
  split; [apply phash_distance_present; assumption|].
  split.
  - rewrite phash_distance_zip by assumption.
    cbn [zip_count_neq]. rewrite Ascii.eqb_refl.
    pose proof (zip_count_neq_bound ra rb). lia.
  - split.
    + split.
      * rewrite phash_distance_zip by assumption.
        apply zip_count_neq_zero, Hlen.
      * intros <-. apply phash_distance_diag.
    + intros [|i] c; cbn [String.get].
      * intros [= <-]. auto.
      * apply Hsa.
Qed.

End FingerprintDistance.

(** ** The application picker *)

Import Py Selector.


Lemma select_loop_moves n :
  (0 < n)%Z ->
  forall keys selected rest,
    (0 <= selected < n)%Z ->
    forallb is_move keys = true ->
    select_loop n selected (keys ++ rest)
    = select_loop n ((selected + net keys) mod n) rest.
Proof.
  intros Hn keys. induction keys as [|key keys IH]; intros s rest Hs Hm.
  - cbn [app net]. rewrite Z.add_0_r, Z.mod_small by lia. reflexivity.
  - cbn [forallb] in Hm. apply andb_true_iff in Hm as [Hk Hm].
    cbn [app select_loop net]. unfold is_move, step_of in *.
    assert (Hn0 : (n =? 0)%Z = false) by (apply Z.eqb_neq; lia).
    rewrite Hn0.
    destruct ((key =? KEY_UP)%Z || (key =? ord "k")%Z).
    + rewrite IH by (try apply Z.mod_pos_bound; assumption).
      f_equal. rewrite Zplus_mod_idemp_l. f_equal. lia.
    + destruct ((key =? KEY_DOWN)%Z || (key =? ord "j")%Z); [|discriminate].
      rewrite IH by (try apply Z.mod_pos_bound; assumption).
      f_equal. rewrite Zplus_mod_idemp_l. f_equal. lia.
Qed.

Lemma select_loop_range n :
  (0 < n)%Z ->
  forall keys selected i,
    (0 <= selected < n)%Z ->
    select_loop n selected keys = Index i -> (0 <= i < n)%Z.
Proof.
  intros Hn keys. induction keys as [|key keys IH]; intros s i Hs;
    cbn [select_loop]; [discriminate|].
  assert (Hn0 : (n =? 0)%Z = false) by (apply Z.eqb_neq; lia).
  rewrite Hn0.
  destruct (_ || _).
  { apply IH. apply Z.mod_pos_bound. exact Hn. }
  destruct (_ || _).
  { apply IH. apply Z.mod_pos_bound. exact Hn. }
  destruct (_ || _ || _).
  { intros [= <-]. exact Hs. }
  destruct (_ || _); [discriminate|].
  apply IH. exact Hs.
Qed.

(** X16. With an index in range to start from, the index [_curses_select]
    returns is in range, so that [apps[idx]] in [get_user_selection] finds an
    entry; and no key makes the call raise. *)
Theorem curses_select_index_in_range
    {A} (selected_index : Z) (apps : list A) (keys : list Z) :
  (0 <= selected_index < Z.of_nat (length apps))%Z ->
  _curses_select selected_index apps keys <> ZeroDivisionError
  /\ forall idx,
       _curses_select selected_index apps keys = Index idx ->
       (0 <= idx < Z.of_nat (length apps))%Z
       /\ is_Some (getitem apps idx).
Proof.
  intros Hs. unfold _curses_select.
  destruct apps as [|a apps]; [cbn in Hs; lia|].
  set (l := a :: apps) in *. set (n := Z.of_nat (length l)) in *.
  assert (Hn : (0 < n)%Z) by lia.
  split.
  - clear Hs. revert selected_index.
    assert (Hn0 : (n =? 0)%Z = false) by (apply Z.eqb_neq; lia).
    induction keys as [|key keys IH]; intros s; cbn [select_loop];
      [discriminate|].
    rewrite Hn0. repeat (destruct (_ || _); try apply IH; try discriminate).
  - intros idx H. pose proof (select_loop_range n Hn _ _ _ Hs H) as Hi.
    split; [exact Hi|]. unfold getitem. fold n.
    destruct (Z.ltb_spec idx 0); [lia|].
    destruct (Z.leb_spec 0 idx); [|lia].
    destruct (Z.ltb_spec idx n); [|lia].
    cbn [andb]. apply lookup_lt_is_Some_2. subst n. lia.
Qed.

Lemma curses_select_index_in_range_witness :
  _curses_select 1 ["a"; "b"; "c"] [KEY_DOWN; KEY_DOWN; 10%Z]
  <> ZeroDivisionError
  /\ forall idx,
       _curses_select 1 ["a"; "b"; "c"] [KEY_DOWN; KEY_DOWN; 10%Z]
       = Index idx ->
       (0 <= idx < Z.of_nat (length ["a"; "b"; "c"]))%Z
       /\ is_Some (getitem ["a"; "b"; "c"] idx).
Proof.
  apply (curses_select_index_in_range 1 ["a"; "b"; "c"]). cbn. lia.
Defined.

Lemma select_loop_moves_any n :
  (0 < n)%Z ->
  forall keys selected rest,
    keys <> [] ->
    forallb is_move keys = true ->
    select_loop n selected (keys ++ rest)
    = select_loop n ((selected + net keys) mod n) rest.
Proof.
  intros Hn [|key keys] s rest Hne Hm; [congruence|].
  cbn [forallb] in Hm. apply andb_true_iff in Hm as [Hk Hm].
  cbn [app select_loop net]. unfold is_move, step_of in *.
  assert (Hn0 : (n =? 0)%Z = false) by (apply Z.eqb_neq; lia).
  rewrite Hn0.
  destruct ((key =? KEY_UP)%Z || (key =? ord "k")%Z).
  - rewrite select_loop_moves
      by (try apply Z.mod_pos_bound; assumption).
    f_equal. rewrite Zplus_mod_idemp_l. f_equal. lia.
  - destruct ((key =? KEY_DOWN)%Z || (key =? ord "j")%Z); [|discriminate].
    rewrite select_loop_moves
      by (try apply Z.mod_pos_bound; assumption).
    f_equal. rewrite Zplus_mod_idemp_l. f_equal. lia.
Qed.

(** X17. Arrow keys add up modulo the number of entries.  On a list that is
    not empty, after one or more keys that only move, the selection is
    [selected_index] plus the downs minus the ups, reduced modulo
    [len(apps)], whatever [selected_index] was.  When [selected_index] is
    within the list this also holds for no key at all, and moves whose sum
    is a multiple of [len(apps)], such as [len(apps)] presses of one arrow
    or an up and a down, bring the selection back to [selected_index]. *)
Theorem curses_select_moves_wrap
    {A} (selected_index : Z) (apps : list A) (keys rest : list Z) :
  apps <> [] ->
  forallb is_move keys = true ->
  let n := Z.of_nat (length apps) in
  (keys <> [] ->
   _curses_select selected_index apps (keys ++ rest)
   = _curses_select ((selected_index + net keys) mod n) apps rest)
  /\ ((0 <= selected_index < n)%Z ->
      _curses_select selected_index apps (keys ++ rest)
      = _curses_select ((selected_index + net keys) mod n) apps rest
      /\ ((net keys mod n = 0)%Z ->
          _curses_select selected_index apps (keys ++ rest)
          = _curses_select selected_index apps rest)).
Proof.
  intros Happs Hm n. unfold _curses_select.
  destruct apps as [|a apps]; [congruence|].
  fold n. assert (Hn : (0 < n)%Z) by (subst n; cbn [length]; lia).
  split.
  - intros Hne. apply select_loop_moves_any; assumption.
  - intros Hs. rewrite (select_loop_moves n Hn keys _ rest Hs Hm).
    split; [reflexivity|].
    intros H0. f_equal.
    rewrite Z.add_mod, H0, Z.add_0_r, Z.mod_mod by lia.
    apply Z.mod_small. exact Hs.
Qed.

Lemma curses_select_moves_wrap_witness :
  _curses_select 5 ["a"; "b"; "c"]
    ([KEY_DOWN; ord "j"; KEY_DOWN] ++ [KEY_ENTER])
  = Index 2
  /\ _curses_select 2 ["a"; "b"; "c"]
       ([KEY_DOWN; ord "j"; KEY_DOWN] ++ [KEY_ENTER])
     = _curses_select 2 ["a"; "b"; "c"] [KEY_ENTER].
Proof.
  destruct (curses_select_moves_wrap 5 ["a"; "b"; "c"]
              [KEY_DOWN; ord "j"; KEY_DOWN] [KEY_ENTER]
              ltac:(discriminate) eq_refl) as [H5 _].
  destruct (curses_select_moves_wrap 2 ["a"; "b"; "c"]
              [KEY_DOWN; ord "j"; KEY_DOWN] [KEY_ENTER]
              ltac:(discriminate) eq_refl) as [_ H2].
  split.
  - rewrite (H5 ltac:(discriminate)). reflexivity.
  - destruct H2 as [_ H2]; [cbn; lia|]. apply H2. reflexivity.
Defined.

(** X18. [selected_index] outlives the list it was chosen from.  When the
    list has become shorter, Enter as first key returns the stale index, for
    which [apps[idx]] raises [IndexError]; after one arrow key the index is
    back within the list. *)
Theorem curses_select_stale_index
    {A} (selected_index : Z) (apps : list A) (keys : list Z) :
  apps <> [] ->
  _curses_select selected_index apps (KEY_ENTER :: keys) = Index selected_index
  /\ (Z.of_nat (length apps) <= selected_index ->
      getitem apps selected_index = None)%Z
  /\ forall key idx,
       is_move key = true ->
       _curses_select selected_index apps (key :: keys) = Index idx ->
       (0 <= idx < Z.of_nat (length apps))%Z.
Proof.
  intros Hne. unfold _curses_select.
  destruct apps as [|a apps]; [congruence|].
  set (l := a :: apps). set (n := Z.of_nat (length l)).
  assert (Hn : (0 < n)%Z) by (subst n l; cbn [length]; lia).
  split; [reflexivity|]. split.
  - intros Hge. unfold getitem. fold n.
    destruct (Z.ltb_spec selected_index 0); [lia|].
    destruct (Z.ltb_spec selected_index n); [lia|].
    rewrite andb_false_r. reflexivity.
  - intros key idx Hk. cbn [select_loop]. unfold is_move, step_of in Hk.
    assert (Hn0 : (n =? 0)%Z = false) by (apply Z.eqb_neq; lia).
    rewrite Hn0.
    destruct ((key =? KEY_UP)%Z || (key =? ord "k")%Z).
    + apply (select_loop_range n Hn). apply Z.mod_pos_bound. exact Hn.
    + destruct ((key =? KEY_DOWN)%Z || (key =? ord "j")%Z); [|discriminate].
      apply (select_loop_range n Hn). apply Z.mod_pos_bound. exact Hn.
Qed.

Lemma curses_select_stale_index_witness :
  _curses_select 5 ["a"; "b"; "c"] [KEY_ENTER] = Index 5
  /\ getitem ["a"; "b"; "c"] 5 = None
  /\ _curses_select 5 ["a"; "b"; "c"] [KEY_UP; KEY_ENTER] = Index 1.
Proof.
  destruct (curses_select_stale_index 5 ["a"; "b"; "c"] [KEY_ENTER]
              ltac:(discriminate)) as (H1 & H2 & _).
  split; [exact H1|]. split; [apply H2; cbn; lia | reflexivity].
Defined.

(** ** [pdf_splitter.py] *)

Import Splitter.


Section SplitterFacts.
Context {Page : Type}.
Implicit Types pages : list Page.

Lemma getitem_in_range pages (i : Z) :
  (0 <= i < Z.of_nat (length pages))%Z ->
  getitem pages i = pages !! Z.to_nat i.
Proof.
  intros H. unfold getitem.
  destruct (Z.ltb_spec i 0); [lia|].
  destruct (Z.leb_spec 0 i); [|lia].
  destruct (Z.ltb_spec i (Z.of_nat (length pages))); [|lia].
  reflexivity.
Qed.

Lemma mapM_lookup_seq pages (lo len : nat) :
  lo + len <= length pages ->
  mapM (fun k => pages !! k) (seq lo len) = Some (take len (drop lo pages)).
Proof.
  revert lo. induction len as [|len IH]; intros lo H.
  - reflexivity.
  - cbn [seq]. destruct (lookup_lt_is_Some_2 pages lo) as [x Hx]; [lia|].
    cbn [mapM]. rewrite Hx. cbn [mbind option_bind].
    rewrite IH by lia. cbn [mbind option_bind mret option_ret].
    f_equal. rewrite (drop_S pages x lo Hx). reflexivity.
Qed.

Lemma mapM_ext_in {B C} (f g : B -> option C) l :
  (forall x, x ∈ l -> f x = g x) -> mapM f l = mapM g l.
Proof.
  induction l as [|x l IH]; intros H; [reflexivity|].
  cbn [mapM]. rewrite (H x) by apply list_elem_of_here.
  rewrite IH; [reflexivity|].
  intros y Hy. apply H. apply list_elem_of_further. exact Hy.
Qed.

Lemma mapM_map {B C D} (f : C -> option D) (g : B -> C) l :
  mapM f (map g l) = mapM (fun x => f (g x)) l.
Proof.
  induction l as [|x l IH]; [reflexivity|].
  cbn [map mapM]. rewrite IH. reflexivity.
Qed.

Lemma extract_pages_valid pages (start_page end_page : Z) :
  extract_pages (Some pages) start_page end_page
  = if valid_range (Z.of_nat (length pages)) start_page end_page
    then Written (page_range pages start_page end_page)
    else Failed.
Proof.
  unfold extract_pages, valid_range, page_range.
  set (total := Z.of_nat (length pages)).
  destruct (Z.ltb_spec start_page 1), (Z.leb_spec 1 start_page); try lia;
    cbn [orb andb]; [reflexivity|].
  destruct (Z.gtb_spec end_page total), (Z.leb_spec end_page total); try lia;
    cbn [orb andb]; [rewrite andb_false_r; reflexivity|].
  destruct (Z.gtb_spec start_page end_page),
    (Z.leb_spec start_page end_page); try lia; cbn [orb andb];
    [reflexivity|].
  assert (Hm : mapM (getitem pages) (range (start_page - 1) end_page)
               = Some (take (Z.to_nat (end_page - start_page + 1))
                         (drop (Z.to_nat (start_page - 1)) pages))).
  { unfold range. rewrite mapM_map.
    rewrite (mapM_ext_in _
               (fun k => pages !! (Z.to_nat (start_page - 1) + k))).
    2:{ intros k Hk. apply elem_of_seq in Hk.
        rewrite getitem_in_range by (fold total; lia). f_equal. lia. }
    replace (Z.to_nat (end_page - (start_page - 1)))
      with (Z.to_nat (end_page - start_page + 1)) by lia.
    set (lo := Z.to_nat (start_page - 1)).
    set (len := Z.to_nat (end_page - start_page + 1)).
    rewrite <- (mapM_lookup_seq pages lo len) by (subst lo len total; lia).
    assert (Hseq : seq lo len = map (Nat.add lo) (seq 0 len)).
    { rewrite <- (Nat.add_0_r lo) at 1. symmetry.
      apply (fmap_add_seq lo 0 len). }
    rewrite Hseq, mapM_map. reflexivity. }
  rewrite Hm. reflexivity.
Qed.

Lemma valid_range_spec (total start_page end_page : Z) :
  valid_range total start_page end_page = true
  <-> (1 <= start_page <= end_page /\ end_page <= total)%Z.
Proof.
  unfold valid_range. rewrite !andb_true_iff, !Z.leb_le. lia.
Qed.

Lemma length_page_range pages (start_page end_page : Z) :
  (1 <= start_page <= end_page /\ end_page <= Z.of_nat (length pages))%Z ->
  length (page_range pages start_page end_page)
  = Z.to_nat (end_page - start_page + 1).
Proof.
  intros H. unfold page_range. rewrite length_take, length_drop. lia.
Qed.

(** X19. [extract_pages] writes an output exactly when the input can be read
    and [1 <= start_page <= end_page <= total_pages]; the output then holds
    the [end_page - start_page + 1] pages of that range in their order, page
    [k] of the output being page [start_page + k] of the input (counting [k]
    from 0).  In particular a document without pages admits no range. *)
Theorem extract_pages_writes_the_range
    (pages : list Page) (start_page end_page : Z) :
  let total_pages := Z.of_nat (length pages) in
  extract_pages (@None (list Page)) start_page end_page = Failed
  /\ (forall written,
        extract_pages (Some pages) start_page end_page = Written written
        <-> (1 <= start_page <= end_page /\ end_page <= total_pages)%Z
            /\ written = page_range pages start_page end_page)
  /\ ((1 <= start_page <= end_page /\ end_page <= total_pages)%Z ->
      length (page_range pages start_page end_page)
      = Z.to_nat (end_page - start_page + 1)
      /\ forall k : nat,
           k < length (page_range pages start_page end_page) ->
           page_range pages start_page end_page !! k
           = pages !! (Z.to_nat (start_page - 1) + k))
  /\ (pages = [] ->
      extract_pages (Some pages) start_page end_page = Failed).
Proof.
  intros total_pages. split; [reflexivity|].
  rewrite extract_pages_valid. fold total_pages.
  pose proof (valid_range_spec total_pages start_page end_page) as Hv.
  split; [|split].
  - intros written. destruct (valid_range total_pages start_page end_page).
    + split.
      * intros [= <-]. split; [apply Hv; reflexivity | reflexivity].
      * intros [_ ->]. reflexivity.
    + split; [discriminate|]. intros [H _]. apply Hv in H. discriminate.
  - intros H. split; [apply length_page_range; exact H|].
    intros k Hk. unfold page_range in *.
    rewrite lookup_take_lt by (rewrite length_take in Hk; lia).
    apply lookup_drop.
  - intros ->. destruct (valid_range total_pages start_page end_page) eqn:E;
      [|reflexivity].
    apply valid_range_spec in E. subst total_pages. cbn in E. lia.
Qed.

(** X20. Extracting from an extract is extracting from the original with
    the page numbers shifted: a range of the pages [start_page..end_page]
    of a document is the range of the document that starts [start_page - 1]
    pages later. *)
Theorem extract_of_extract
    (pages written : list Page) (start_page end_page start2 end2 : Z) :
  extract_pages (Some pages) start_page end_page = Written written ->
  (1 <= start2)%Z -> (end2 <= end_page - start_page + 1)%Z ->
  extract_pages (Some written) start2 end2
  = extract_pages (Some pages) (start_page + start2 - 1)
      (start_page + end2 - 1).
Proof.
  rewrite !extract_pages_valid.
  destruct (valid_range (Z.of_nat (length pages)) start_page end_page) eqn:E;
    [|discriminate].
  apply valid_range_spec in E. intros [= <-] Hs He.
  rewrite (length_page_range pages start_page end_page E).
  destruct (valid_range _ start2 end2) eqn:E1.
  - apply valid_range_spec in E1.
    assert (E2 : valid_range (Z.of_nat (length pages))
                   (start_page + start2 - 1) (start_page + end2 - 1) = true)
      by (apply valid_range_spec; lia).
    rewrite E2. f_equal. unfold page_range.
    rewrite skipn_firstn_comm, take_take, drop_drop.
    f_equal; [lia|]. f_equal. lia.
  - assert (E2 : valid_range (Z.of_nat (length pages))
                   (start_page + start2 - 1) (start_page + end2 - 1) = false).
    { apply not_true_iff_false. intros H. apply valid_range_spec in H.
      apply not_true_iff_false in E1. apply E1. apply valid_range_spec. lia. }
    rewrite E2. reflexivity.
Qed.

(** X21. Two adjoining ranges extract to the two halves of the range that
    spans them, and the range of all pages extracts to the document
    itself. *)
Theorem adjoining_extracts_join
    (pages : list Page) (start_page middle end_page : Z) :
  (1 <= start_page <= middle)%Z ->
  (middle < end_page <= Z.of_nat (length pages))%Z ->
  exists first second,
    extract_pages (Some pages) start_page middle = Written first
    /\ extract_pages (Some pages) (middle + 1) end_page = Written second
    /\ extract_pages (Some pages) start_page end_page
       = Written (first ++ second)
    /\ extract_pages (Some pages) 1 (Z.of_nat (length pages)) = Written pages.
Proof.
  intros Hs He. rewrite !extract_pages_valid.
  assert (Hv : forall a b, (1 <= a <= b /\ b <= Z.of_nat (length pages))%Z ->
                 valid_range (Z.of_nat (length pages)) a b = true)
    by (intros; apply valid_range_spec; assumption).
  rewrite !Hv by lia.
  eexists _, _. split; [reflexivity|]. split; [reflexivity|]. split.
  - f_equal. unfold page_range.
    replace (Z.to_nat (middle + 1 - 1))
      with (Z.to_nat (start_page - 1) + Z.to_nat (middle - start_page + 1))
      by lia.
    rewrite <- drop_drop.
    replace (Z.to_nat (end_page - start_page + 1))
      with (Z.to_nat (middle - start_page + 1)
            + Z.to_nat (end_page - (middle + 1) + 1)) by lia.
    set (l := drop (Z.to_nat (start_page - 1)) pages).
    set (a := Z.to_nat (middle - start_page + 1)).
    set (b := Z.to_nat (end_page - (middle + 1) + 1)).
    symmetry. apply take_take_drop.
  - f_equal. unfold page_range. cbn [Z.sub Z.to_nat Z.pos_sub Z.opp drop].
    replace (Z.to_nat (Z.of_nat (length pages) - 1 + 1)) with (length pages)
      by lia.
    apply firstn_all.
Qed.

End SplitterFacts.

Lemma extract_of_extract_witness :
  extract_pages (Some [30; 40; 50]) 2 3
  = extract_pages (Some [10; 20; 30; 40; 50; 60]) (3 + 2 - 1) (3 + 3 - 1).
Proof.
  apply (extract_of_extract [10; 20; 30; 40; 50; 60] [30; 40; 50] 3 5 2 3).
  - reflexivity.
  - lia.
  - lia.
Defined.

Lemma adjoining_extracts_join_witness :
  exists first second,
    extract_pages (Some [10; 20; 30; 40; 50; 60]) 2 3 = Written first
    /\ extract_pages (Some [10; 20; 30; 40; 50; 60]) (3 + 1) 5 = Written second
    /\ extract_pages (Some [10; 20; 30; 40; 50; 60]) 2 5
       = Written (first ++ second)%list
    /\ extract_pages (Some [10; 20; 30; 40; 50; 60]) 1
         (Z.of_nat (length [10; 20; 30; 40; 50; 60]))
       = Written [10; 20; 30; 40; 50; 60].
Proof.
  apply (adjoining_extracts_join [10; 20; 30; 40; 50; 60] 2 3 5).
  - lia.
  - cbn. lia.
Defined.

Lemma ask_range_valid total :
  forall n answers start_page end_page,
    length answers <= n ->
    ask_range total answers = Some (start_page, end_page) ->
    valid_range total start_page end_page = true.
Proof.
  induction n as [|n IH]; intros answers s e Hlen.
  - destruct answers; [discriminate | cbn in Hlen; lia].
  - destruct answers as [|[s0|] rest]; cbn [ask_range]; [discriminate| |].
    + destruct rest as [|[e0|] rest]; [discriminate| |].
      * fold (valid_range total s0 e0).
        destruct (valid_range total s0 e0) eqn:E.
        -- intros [= <- <-]. exact E.
        -- apply IH. cbn in Hlen. lia.
      * apply IH. cbn in Hlen. lia.
    + apply IH. cbn in Hlen. lia.
Qed.

Lemma ask_range_no_pages total :
  (total < 1)%Z ->
  forall n answers, length answers <= n -> ask_range total answers = None.
Proof.
  intros Ht. induction n as [|n IH]; intros answers Hlen.
  - destruct answers; [reflexivity | cbn in Hlen; lia].
  - destruct answers as [|[s0|] rest]; cbn [ask_range]; [reflexivity| |].
    + destruct rest as [|[e0|] rest]; [reflexivity| |].
      * fold (valid_range total s0 e0).
        destruct (valid_range total s0 e0) eqn:E.
        -- apply valid_range_spec in E. lia.
        -- apply IH. cbn in Hlen. lia.
      * apply IH. cbn in Hlen. lia.
    + apply IH. cbn in Hlen. lia.
Qed.

(** X22. The range [interactive_mode] leaves its loop with is one
    [extract_pages] accepts: whatever is typed, the loop ends only on
    [1 <= start_page <= end_page <= total_pages], and [extract_pages] then
    writes exactly these pages.  For a document without pages the loop never
    ends. *)
Theorem asked_range_is_extracted
    {Page} (pages : list Page) (answers : list (option Z)) :
  let total_pages := Z.of_nat (length pages) in
  (forall start_page end_page,
     ask_range total_pages answers = Some (start_page, end_page) ->
     (1 <= start_page <= end_page /\ end_page <= total_pages)%Z
     /\ extract_pages (Some pages) start_page end_page
        = Written (page_range pages start_page end_page))
  /\ (pages = [] -> ask_range total_pages answers = None).
Proof.
  intros total_pages. split.
  - intros s e H.
    pose proof (ask_range_valid total_pages _ answers s e (le_n _) H) as Hv.
    split; [apply valid_range_spec; exact Hv|].
    rewrite extract_pages_valid. fold total_pages. rewrite Hv. reflexivity.
  - intros ->. subst total_pages.
    apply ask_range_no_pages with (n := length answers); [cbn; lia | lia].
Qed.

Lemma asked_range_is_extracted_witness :
  ask_range 6 [None; Some 0%Z; Some 3%Z; Some 4%Z; None; Some 2%Z; Some 5%Z]
  = Some (2, 5)%Z
  /\ extract_pages (Some [10; 20; 30; 40; 50; 60]) 2 5
     = Written (page_range [10; 20; 30; 40; 50; 60] 2 5).
Proof.
  split; [reflexivity|].
  apply (proj1 (asked_range_is_extracted [10; 20; 30; 40; 50; 60]
                  [None; Some 0%Z; Some 3%Z; Some 4%Z; None;
                   Some 2%Z; Some 5%Z]) 2%Z 5%Z).
  reflexivity.
Defined.

(** ** The list of running applications *)

Import Apps MoreSamples.


Section AppsFacts.
Context {workspace : Workspace}.

Lemma candidate_bundle_id app entry :
  candidate app = Some entry ->
  bundleIdentifier app = Some (bundle_id entry)
  /\ bundle_id entry <> ""
  /\ URLForApplicationWithBundleIdentifier (bundle_id entry) = Some (path entry)
  /\ top_level (path entry) = true
  /\ pid entry = processIdentifier app.
Proof.
  unfold candidate. destruct (bundleIdentifier app) as [b|]; [|discriminate].
  destruct (String.eqb_spec b ""); [discriminate|].
  destruct (URLForApplicationWithBundleIdentifier b) as [p|] eqn:Eu;
    [|discriminate].
  destruct (top_level p) eqn:Et; [|discriminate].
  intros [= <-]. cbn. auto.
Qed.

(** What the loop keeps: the entries collected so far, then the candidates
    among the remaining applications whose bundle id was not seen. *)
Lemma collect_spec running :
  forall seen apps,
    (forall e, e ∈ apps -> bundle_id e ∈ seen) ->
    NoDup (map bundle_id apps) ->
    let result := collect running seen apps in
    NoDup (map bundle_id result)
    /\ (forall e, e ∈ result <->
          ((e ∈ apps)
           \/ exists i app,
               running !! i = Some app /\ candidate app = Some e
               /\ (bundle_id e ∉ seen)
               /\ forall j app' e',
                    j < i -> running !! j = Some app' ->
                    candidate app' = Some e' -> bundle_id e' <> bundle_id e)).
Proof.
  induction running as [|app rest IH]; intros seen apps Hseen Hnd; cbn zeta.
  - cbn [Apps.collect]. split; [exact Hnd|].
    intros e. split; [auto|]. intros [H|(i & a & Hi & _)]; [exact H|].
    rewrite lookup_nil in Hi. discriminate.
  - cbn [Apps.collect]. destruct (candidate app) as [entry|] eqn:Ec.
    + destruct (decide (bundle_id entry ∈ seen)) as [Hin|Hnin].
      * destruct (IH seen apps Hseen Hnd) as [IH1 IH2]. split; [exact IH1|].
        intros e. rewrite IH2. clear IH1 IH2. split.
        -- intros [H|(i & a & Hi & Hc & Hs & Hfirst)]; [auto|].
           right. exists (S i), a. repeat split; try assumption.
           intros [|j] app' e' Hj Hl Hc'.
           ++ cbn in Hl. injection Hl as <-. rewrite Ec in Hc'.
              injection Hc' as <-. intros E. rewrite E in Hin. contradiction.
           ++ apply (Hfirst j app' e'); [lia | exact Hl | exact Hc'].
        -- intros [H|(i & a & Hi & Hc & Hs & Hfirst)]; [auto|].
           destruct i as [|i].
           ++ cbn in Hi. injection Hi as <-. rewrite Ec in Hc.
              injection Hc as <-. contradiction.
           ++ right. exists i, a. repeat split; try assumption.
              intros j app' e' Hj Hl Hc'.
              apply (Hfirst (S j) app' e'); [lia | exact Hl | exact Hc'].
      * destruct (IH ({[bundle_id entry]} ∪ seen) (apps ++ [entry])%list)
          as [IH1 IH2].
        { intros e He. apply elem_of_app in He as [He|He].
          - apply elem_of_union_r, Hseen, He.
          - apply list_elem_of_singleton in He as ->.
            apply elem_of_union_l, elem_of_singleton. reflexivity. }
        { rewrite map_app. apply NoDup_app. split; [exact Hnd|]. split.
          - intros b Hb Hb'. cbn in Hb'.
            apply list_elem_of_singleton in Hb' as ->.
            apply list_elem_of_fmap in Hb as (e & He & Hin).
            apply Hseen in Hin. rewrite <- He in Hin. contradiction.
          - cbn. apply NoDup_singleton. }
        split; [exact IH1|].
        intros e. rewrite IH2. clear IH1 IH2. split.
        -- intros [H|(i & a & Hi & Hc & Hs & Hfirst)].
           ++ apply elem_of_app in H as [H|H]; [auto|].
              apply list_elem_of_singleton in H as ->.
              right. exists 0, app. repeat split; try assumption.
              intros j ? ? Hj. lia.
           ++ right. exists (S i), a. repeat split; try assumption.
              ** intros Hin. apply Hs. apply elem_of_union_r. exact Hin.
              ** intros [|j] app' e' Hj Hl Hc'.
                 --- cbn in Hl. injection Hl as <-. rewrite Ec in Hc'.
                     injection Hc' as <-. intros E. apply Hs.
                     apply elem_of_union_l, elem_of_singleton.
                     symmetry. exact E.
                 --- apply (Hfirst j app' e'); [lia | exact Hl | exact Hc'].
        -- intros [H|(i & a & Hi & Hc & Hs & Hfirst)].
           ++ left. apply elem_of_app. auto.
           ++ destruct i as [|i].
              ** cbn in Hi. injection Hi as <-. rewrite Ec in Hc.
                 injection Hc as <-. left. apply elem_of_app. right.
                 apply list_elem_of_singleton. reflexivity.
              ** right. exists i, a. repeat split; try assumption.
                 --- intros Hin. apply elem_of_union in Hin as [Hin|Hin];
                       [|contradiction].
                     apply elem_of_singleton in Hin.
                     apply (Hfirst 0 app entry); [lia | reflexivity | exact Ec
                                                  | symmetry; exact Hin].
                 --- intros j app' e' Hj Hl Hc'.
                     apply (Hfirst (S j) app' e'); [lia | exact Hl | exact Hc'].
    + destruct (IH seen apps Hseen Hnd) as [IH1 IH2]. split; [exact IH1|].
      intros e. rewrite IH2. clear IH1 IH2. split.
      * intros [H|(i & a & Hi & Hc & Hs & Hfirst)]; [auto|].
        right. exists (S i), a. repeat split; try assumption.
        intros [|j] app' e' Hj Hl Hc'.
        -- cbn in Hl. injection Hl as <-. rewrite Ec in Hc'. discriminate.
        -- apply (Hfirst j app' e'); [lia | exact Hl | exact Hc'].
      * intros [H|(i & a & Hi & Hc & Hs & Hfirst)]; [auto|].
        destruct i as [|i].
        -- cbn in Hi. injection Hi as <-. rewrite Ec in Hc. discriminate.
        -- right. exists i, a. repeat split; try assumption.
           intros j app' e' Hj Hl Hc'.
           apply (Hfirst (S j) app' e'); [lia | exact Hl | exact Hc'].
Qed.

(** *** [os.path.dirname] *)

Lemma rfind_slash_free tail : slash_free tail = true -> rfind "/" tail = (-1)%Z.
Proof.
  induction tail as [|c tail IH]; [reflexivity|].
  cbn [slash_free rfind]. intros H. apply andb_true_iff in H as [Hc Ht].
  rewrite (IH Ht). cbn. apply negb_true_iff in Hc. rewrite Hc. reflexivity.
Qed.

Lemma rfind_last_slash h tail :
  slash_free tail = true ->
  rfind "/" (h ++ String "/" tail) = Z.of_nat (String.length h).
Proof.
  intros Ht. induction h as [|c h IH].
  - change ("" ++ String "/" tail) with (String "/" tail).
    cbn [rfind]. rewrite (rfind_slash_free tail Ht). reflexivity.
  - change (String c h ++ String "/" tail)
      with (String c (h ++ String "/" tail)).
    cbn [rfind String.length]. rewrite IH.
    destruct (Z.leb_spec 0 (Z.of_nat (String.length h))); lia.
Qed.

Lemma substring_prefix (s1 s2 : string) :
  substring 0 (String.length s1) (s1 ++ s2) = s1.
Proof.
  induction s1 as [|c s1 IH].
  - cbn. destruct s2; reflexivity.
  - change (String c s1 ++ s2) with (String c (s1 ++ s2)).
    cbn [String.length substring]. rewrite IH. reflexivity.
Qed.

Lemma length_append (s1 s2 : string) :
  String.length (s1 ++ s2) = String.length s1 + String.length s2.
Proof.
  induction s1 as [|c s1 IH]; [reflexivity|].
  change (String c s1 ++ s2) with (String c (s1 ++ s2)).
  cbn [String.length]. rewrite IH. reflexivity.
Qed.

Lemma head_tail p :
  p = head_of p ++ tail_of p
  /\ slash_free (tail_of p) = true
  /\ (head_of p = "" \/ exists h, head_of p = h ++ "/")
  /\ (head_of p = "" -> slash_free p = true).
Proof.
  induction p as [|c p (IH1 & IH2 & IH3 & IH4)].
  - cbn. auto.
  - cbn [head_of tail_of]. destruct (head_of p) as [|c' h] eqn:E.
    + specialize (IH4 eq_refl).
      change ("" ++ tail_of p) with (tail_of p) in IH1. rewrite <- IH1 in IH2.
      destruct (Ascii.eqb_spec c "/") as [->|Hc].
      * repeat split; [exact IH4 | | discriminate].
        right. exists "". reflexivity.
      * assert (Hs : slash_free (String c p) = true).
        { cbn [slash_free]. rewrite IH4.
          apply Ascii.eqb_neq in Hc. rewrite Hc. reflexivity. }
        repeat split; auto.
    + change (String c (String c' h) ++ tail_of p)
        with (String c (String c' h ++ tail_of p)).
      rewrite <- IH1. repeat split; [exact IH2 | | discriminate].
      right. destruct IH3 as [IH3|[h' Hh']]; [discriminate|].
      exists (String c h'). rewrite Hh'. reflexivity.
Qed.

Lemma dirname_head p :
  substring 0 (Z.to_nat (rfind "/" p + 1)) p = head_of p.
Proof.
  destruct (head_tail p) as (Hp & Ht & [He|[h Hh]] & Hsf).
  - rewrite He. rewrite (rfind_slash_free p (Hsf He)). cbn.
    destruct p; reflexivity.
  - rewrite Hp at 1 2. rewrite Hh.
    assert (Ha : forall a b c : string, (a ++ b) ++ c = a ++ b ++ c).
    { intros a b c. induction a as [|x a IH]; [reflexivity|].
      change (String x a ++ b) with (String x (a ++ b)).
      change (String x (a ++ b) ++ c) with (String x ((a ++ b) ++ c)).
      rewrite IH. reflexivity. }
    rewrite Ha. change ("/" ++ tail_of p) with (String "/" (tail_of p)).
    rewrite (rfind_last_slash h (tail_of p) Ht).
    replace (Z.to_nat (Z.of_nat (String.length h) + 1))
      with (String.length (h ++ "/")) by (rewrite length_append; cbn; lia).
    change (String "/" (tail_of p)) with ("/" ++ tail_of p).
    rewrite <- Ha. apply substring_prefix.
Qed.

Lemma rstrip_spec s : exists k, s = rstrip "/" s ++ repeat_sep "/" k.
Proof.
  induction s as [|c s [k IH]].
  - exists 0. reflexivity.
  - cbn [rstrip]. destruct (rstrip "/" s) as [|c' t] eqn:E.
    + destruct (Ascii.eqb_spec c "/") as [->|Hc].
      * exists (S k). rewrite IH at 1. reflexivity.
      * exists k. rewrite IH at 1. reflexivity.
    + exists k. rewrite IH at 1. reflexivity.
Qed.

Lemma append_inj_l (a b c : string) : a ++ b = a ++ c -> b = c.
Proof.
  induction a as [|x a IH]; [trivial|].
  change (String x a ++ b) with (String x (a ++ b)).
  change (String x a ++ c) with (String x (a ++ c)).
  intros [= H]. apply IH, H.
Qed.

Lemma append_nil_r (a : string) : a ++ "" = a.
Proof.
  induction a as [|x a IH]; [reflexivity|].
  change (String x a ++ "") with (String x (a ++ "")). rewrite IH. reflexivity.
Qed.

Lemma last_char_snoc (h : string) c : last_char (h ++ String c "") = Some c.
Proof.
  induction h as [|x h IH]; [reflexivity|].
  change (String x h ++ String c "") with (String x (h ++ String c "")).
  cbn [last_char]. rewrite IH. reflexivity.
Qed.

(** [dirname p] is [/Applications] exactly for the paths made of
    [/Applications], one or more [/], and a last component without [/]. *)
Lemma dirname_applications p :
  dirname p = "/Applications"
  <-> exists k tail,
        p = "/Applications" ++ repeat_sep "/" (S k) ++ tail
        /\ slash_free tail = true.
Proof.
  unfold dirname. rewrite dirname_head.
  destruct (head_tail p) as (Hp & Ht & Hh & _).
  split.
  - intros H.
    destruct (String.eqb_spec (head_of p) "") as [E|E];
      cbn [negb andb] in H; [rewrite E in H; discriminate|].
    destruct (String.eqb_spec (head_of p)
                (repeat_sep "/" (String.length (head_of p)))) as [E1|E1];
      cbn [negb andb] in H.
    { rewrite H in E1. cbn in E1. discriminate. }
    destruct (rstrip_spec (head_of p)) as [k Hk]. rewrite H in Hk.
    destruct k as [|k].
    + destruct Hh as [Hh|[h Hh]]; [contradiction|].
      rewrite Hk in Hh. exfalso.
      apply (f_equal last_char) in Hh. rewrite last_char_snoc in Hh.
      discriminate Hh.
    + exists k, (tail_of p). split; [|exact Ht].
      rewrite Hp at 1. rewrite Hk. apply append_assoc.
  - intros (k & tail & -> & Hs).
    assert (Hhead : head_of ("/Applications" ++ repeat_sep "/" (S k) ++ tail)
                    = "/Applications" ++ repeat_sep "/" (S k)).
    { rewrite <- dirname_head.
      assert (Hr : forall n, repeat_sep "/" (S n) = repeat_sep "/" n ++ "/").
      { induction n as [|n IHn]; [reflexivity|].
        change (repeat_sep "/" (S (S n)))
          with (String "/" (repeat_sep "/" (S n))).
        rewrite IHn at 1. reflexivity. }
      rewrite Hr, <- !append_assoc.
      rewrite (append_assoc _ "/" tail).
      change ("/" ++ tail) with (String "/" tail).
      rewrite rfind_last_slash by exact Hs.
      change (String "/" tail) with ("/" ++ tail).
      rewrite <- (append_assoc _ "/" tail).
      replace (Z.to_nat (Z.of_nat
                 (String.length ("/Applications" ++ repeat_sep "/" k)) + 1))
        with (String.length (("/Applications" ++ repeat_sep "/" k) ++ "/"))
        by (rewrite (length_append _ "/"); cbn [String.length]; lia).
      apply substring_prefix. }
    clear Hp Ht Hh. rewrite Hhead.
    assert (Hstrip : forall n,
               rstrip "/" ("/Applications" ++ repeat_sep "/" n)
               = "/Applications").
    { assert (Hz : forall n, rstrip "/" (repeat_sep "/" n) = "").
      { induction n as [|n IHn]; [reflexivity|].
        cbn [repeat_sep rstrip]. rewrite IHn. reflexivity. }
      assert (Ha : forall (a : string) n,
                 rstrip "/" (a ++ repeat_sep "/" n) = rstrip "/" a).
      { intros a n. induction a as [|x a IHa]; [apply Hz|].
        change (String x a ++ repeat_sep "/" n)
          with (String x (a ++ repeat_sep "/" n)).
        cbn [rstrip]. rewrite IHa. reflexivity. }
      intros n. rewrite Ha. reflexivity. }
    assert (Hne : forall n,
               String.eqb ("/Applications" ++ repeat_sep "/" (S k))
                 (repeat_sep "/" n) = false).
    { intros n. apply String.eqb_neq. intros E.
      destruct n as [|[|n]]; discriminate E. }
    rewrite Hne. cbn [negb andb]. rewrite Hstrip.
    destruct (String.eqb_spec ("/Applications" ++ repeat_sep "/" (S k)) "");
      [discriminate | reflexivity].
Qed.

Lemma slash_free_app (a b : string) :
  slash_free (a ++ b) = slash_free a && slash_free b.
Proof.
  induction a as [|x a IH]; [reflexivity|].
  change (String x a ++ b) with (String x (a ++ b)).
  cbn [slash_free]. rewrite IH. apply andb_assoc.
Qed.

Lemma top_level_spec p :
  top_level p = true
  <-> exists k tail,
        p = "/Applications" ++ repeat_sep "/" (S k) ++ tail
        /\ slash_free tail = true.
Proof.
  unfold top_level. rewrite !andb_true_iff, String.eqb_eq.
  rewrite dirname_applications. split; [tauto|].
  intros (k & tail & -> & Ht). split; [split|]; [| |eauto].
  - reflexivity.
  - apply String.prefix_correct. apply substring_prefix.
Qed.

(** The first application of the list that yields an entry with a given
    bundle id. *)
Lemma first_candidate b (running : list RunningApp) :
  (exists app e,
     app ∈ running /\ candidate app = Some e /\ bundle_id e = b) ->
  exists i app e,
    running !! i = Some app /\ candidate app = Some e /\ bundle_id e = b
    /\ forall j app' e',
         j < i -> running !! j = Some app' ->
         candidate app' = Some e' -> bundle_id e' <> b.
Proof.
  induction running as [|app0 rest IH]; intros (app & e & Hin & Hc & Hb).
  - apply elem_of_nil in Hin. destruct Hin.
  - destruct (candidate app0) as [e0|] eqn:E0.
    + destruct (decide (bundle_id e0 = b)) as [Hb0|Hb0].
      * exists 0, app0, e0. repeat split; try assumption. intros j ? ? Hj. lia.
      * apply elem_of_cons in Hin as [->|Hin]; [congruence|].
        destruct IH as (i & a & e' & Hi & Hc' & Hb' & Hfirst); [eauto|].
        exists (S i), a, e'. repeat split; try assumption.
        intros [|j] app' e'' Hj Hl Hc''.
        -- cbn in Hl. injection Hl as <-. congruence.
        -- apply (Hfirst j app' e''); [lia | exact Hl | exact Hc''].
    + apply elem_of_cons in Hin as [->|Hin]; [congruence|].
      destruct IH as (i & a & e' & Hi & Hc' & Hb' & Hfirst); [eauto|].
      exists (S i), a, e'. repeat split; try assumption.
      intros [|j] app' e'' Hj Hl Hc''.
      * cbn in Hl. injection Hl as <-. congruence.
      * apply (Hfirst j app' e''); [lia | exact Hl | exact Hc''].
Qed.

Lemma running_apps_spec (running : list RunningApp) :
  let apps := _get_running_apps_nsworkspace running in
  NoDup (map bundle_id apps)
  /\ forall e,
       e ∈ apps
       <-> exists i app,
             running !! i = Some app /\ candidate app = Some e
             /\ forall j app' e',
                  j < i -> running !! j = Some app' ->
                  candidate app' = Some e' -> bundle_id e' <> bundle_id e.
Proof.
  intros apps. subst apps. unfold _get_running_apps_nsworkspace.
  destruct (collect_spec running ∅ []) as [H1 H2].
  { intros e He. apply elem_of_nil in He. destruct He. }
  { constructor. }
  split; [exact H1|]. intros e. rewrite H2. split.
  - intros [H|(i & app & Hi & Hc & _ & Hfirst)].
    + apply elem_of_nil in H. destruct H.
    + eauto.
  - intros (i & app & Hi & Hc & Hfirst). right.
    exists i, app. repeat split; try assumption. apply not_elem_of_empty.
Qed.

(** X23. The list of running applications holds each bundle id once: an
    entry is listed exactly when it comes from the first running application
    with that bundle id among those that pass the tests of the loop. *)
Theorem running_apps_lists_each_bundle_once (running : list RunningApp) :
  let apps := _get_running_apps_nsworkspace running in
  NoDup (map bundle_id apps)
  /\ forall e,
       e ∈ apps
       <-> exists i app,
             running !! i = Some app /\ candidate app = Some e
             /\ forall j app' e',
                  j < i -> running !! j = Some app' ->
                  candidate app' = Some e' -> bundle_id e' <> bundle_id e.
Proof. exact (running_apps_spec running). Qed.

(** X24. Only applications installed directly in [/Applications] are
    listed: the path of an entry is [/Applications], one or more [/], and a
    last component without [/]; an application in a folder below
    [/Applications] is left out, and so is one without bundle id. *)
Theorem listed_apps_are_top_level (running : list RunningApp) (e : Entry) :
  e ∈ _get_running_apps_nsworkspace running ->
  bundle_id e <> ""
  /\ URLForApplicationWithBundleIdentifier (bundle_id e) = Some (path e)
  /\ (exists k tail,
        path e = "/Applications" ++ repeat_sep "/" (S k) ++ tail
        /\ slash_free tail = true)
  /\ (forall c folder rest,
        c <> "/"%char ->
        path e <> "/Applications/" ++ String c folder ++ "/" ++ rest).
Proof.
  intros He.
  apply (proj2 (running_apps_spec running)) in He
    as (i & app & _ & Hc & _).
  apply candidate_bundle_id in Hc as (_ & Hb & Hu & Ht & _).
  apply top_level_spec in Ht as (k & tail & Hp & Hs).
  split; [exact Hb|]. split; [exact Hu|]. split; [eauto|].
  intros c folder rest Hc E. rewrite Hp in E.
  change "/Applications/" with ("/Applications" ++ "/") in E.
  rewrite append_assoc in E. apply append_inj_l in E.
  change (repeat_sep "/" (S k) ++ tail)
    with (String "/" (repeat_sep "/" k ++ tail)) in E.
  change ("/" ++ String c folder ++ "/" ++ rest)
    with (String "/" (String c (folder ++ "/" ++ rest))) in E.
  injection E as E. destruct k as [|k].
  - change (repeat_sep "/" 0 ++ tail) with tail in E. rewrite E in Hs.
    cbn [slash_free] in Hs. rewrite slash_free_app in Hs.
    change ("/" ++ rest) with (String "/" rest) in Hs.
    cbn [slash_free Ascii.eqb Bool.eqb negb andb] in Hs.
    rewrite !andb_false_r in Hs. discriminate.
  - change (repeat_sep "/" (S k) ++ tail)
      with (String "/" (repeat_sep "/" k ++ tail)) in E.
    injection E as E _. congruence.
Qed.

(** X25. An application with a bundle id whose bundle lies directly in
    [/Applications] is listed, whatever else is running. *)
Theorem top_level_app_is_listed
    (running : list RunningApp) (app : RunningApp) (b app_file : string) :
  app ∈ running ->
  bundleIdentifier app = Some b -> b <> "" ->
  URLForApplicationWithBundleIdentifier b
  = Some ("/Applications/" ++ app_file) ->
  slash_free app_file = true ->
  exists e,
    e ∈ _get_running_apps_nsworkspace running
    /\ bundle_id e = b /\ path e = "/Applications/" ++ app_file.
Proof.
  intros Hin Hb Hne Hu Hs.
  assert (Ht : top_level ("/Applications/" ++ app_file) = true).
  { apply top_level_spec. exists 0, app_file. split; [|exact Hs].
    change "/Applications/" with ("/Applications" ++ "/").
    rewrite append_assoc. reflexivity. }
  assert (Hc : exists e0, candidate app = Some e0 /\ bundle_id e0 = b).
  { unfold Apps.candidate. rewrite Hb.
    destruct (String.eqb_spec b ""); [contradiction|].
    rewrite Hu, Ht. eexists. split; reflexivity. }
  destruct Hc as (e0 & Hc & Hb0).
  destruct (first_candidate b running) as (i & a & e & Hi & Hca & Hbe & Hfirst);
    [eauto|].
  exists e. split; [|split; [exact Hbe|]].
  - apply (proj2 (running_apps_spec running)). exists i, a.
    repeat split; try assumption. rewrite Hbe. exact Hfirst.
  - apply candidate_bundle_id in Hca as (_ & _ & Hu' & _).
    rewrite Hbe, Hu in Hu'. congruence.
Qed.

End AppsFacts.

Lemma listed_apps_are_top_level_witness :
  bundle_id safari_entry <> ""
  /\ installed (bundle_id safari_entry) = Some (path safari_entry)
  /\ (exists k tail,
        path safari_entry = "/Applications" ++ repeat_sep "/" (S k) ++ tail
        /\ slash_free tail = true)
  /\ (forall c folder rest,
        c <> "/"%char ->
        path safari_entry
        <> "/Applications/" ++ String c folder ++ "/" ++ rest).
Proof.
  apply (@listed_apps_are_top_level installed_workspace
           [terminal; safari; safari]).
  vm_compute. apply list_elem_of_here.
Defined.

Lemma top_level_app_is_listed_witness :
  exists e,
    e ∈ @_get_running_apps_nsworkspace installed_workspace
          [terminal; safari; safari]
    /\ bundle_id e = "com.apple.Safari"
    /\ path e = "/Applications/" ++ "Safari.app".
Proof.
  apply (@top_level_app_is_listed installed_workspace
           [terminal; safari; safari] safari).
  - apply list_elem_of_further, list_elem_of_here.
  - reflexivity.
  - discriminate.
  - reflexivity.
  - reflexivity.
Defined.
